(** * unified-mind: chunking, attribution and retrieval assembly

    A shallow embedding of the worker (src/index.js) and of the chunker of
    the ingest CLI (scripts/ingest.js), with the properties of the
    specification stated and settled against it.

    JavaScript strings are sequences of UTF-16 code units; objects used as
    string-keyed records are finite maps; the external collaborators
    (embedding model, vector index, blob store) are fields of [env], as in
    the source, acting on an explicit [World]. *)

From Stdlib Require Import ZArith NArith List String Ascii Lia QArith.
From Stdlib Require Import DecimalString.
From stdpp Require Import base option list gmap.

Local Open Scope Z_scope.

(* ===================================================================== *)
(** ** JavaScript strings *)
(* ===================================================================== *)

(** A string is the list of its UTF-16 code units. *)
Abbreviation jsstring := (list N).

(** A source literal (all literals of the program are ASCII). *)
Fixpoint lit (s : string) : jsstring :=
  match s with
  | EmptyString => []
  | String a rest => N_of_ascii a :: lit rest
  end.

Definition LF : jsstring := [10%N].
Definition DQUOTE : jsstring := [34%N].

(** [s.length] *)
Definition js_length (s : jsstring) : Z := Z.of_nat (length s).

(** Relative index of [String.prototype.slice]: a negative index counts
    from the end, and the result is clamped to [0, len]. *)
Definition rel_index (len i : Z) : Z :=
  if i <? 0 then Z.max (len + i) 0 else Z.min i len.

(** [s.slice(a, b)] *)
Definition slice (s : jsstring) (a b : Z) : jsstring :=
  let len := js_length s in
  let from := rel_index len a in
  let to := rel_index len b in
  firstn (Z.to_nat (to - from)) (skipn (Z.to_nat from) s).

(** Does [s] begin with [pat]? *)
Fixpoint starts_with (pat s : jsstring) : bool :=
  match pat, s with
  | [], _ => true
  | p :: pat', c :: s' => (p =? c)%N && starts_with pat' s'
  | _ :: _, [] => false
  end.

(** Scan left to right, remembering the last position where [pat] occurs. *)
Fixpoint lastIndexOf_from (pat s : jsstring) (i best : Z) : Z :=
  match s with
  | [] => if starts_with pat [] then i else best
  | _ :: s' => lastIndexOf_from pat s' (i + 1) (if starts_with pat s then i else best)
  end.

(** [s.lastIndexOf(pat)]: the last index of an occurrence, or -1. *)
Definition lastIndexOf (s pat : jsstring) : Z := lastIndexOf_from pat s 0 (-1).

(** WhiteSpace and LineTerminator code points of ECMAScript, the ones
    [String.prototype.trim] strips. *)
Definition is_white_space (c : N) : bool :=
  ((9 <=? c) && (c <=? 13) || (c =? 32) || (c =? 160) || (c =? 5760)
   || (8192 <=? c) && (c <=? 8202) || (c =? 8232) || (c =? 8233)
   || (c =? 8239) || (c =? 8287) || (c =? 12288) || (c =? 65279))%N.

Fixpoint trimStart (s : jsstring) : jsstring :=
  match s with
  | c :: s' => if is_white_space c then trimStart s' else s
  | [] => []
  end.

Definition trimEnd (s : jsstring) : jsstring := rev (trimStart (rev s)).

(** [s.trim()] *)
Definition trim (s : jsstring) : jsstring := trimEnd (trimStart s).

(** [has_content s]: some code unit of [s] is not white space. *)
Definition has_content (s : jsstring) : bool :=
  existsb (fun c => negb (is_white_space c)) s.

(** [a.length] of an array. *)
Definition js_length_of {A} (a : list A) : Z := Z.of_nat (length a).

(** [Math.ceil(n / 4)] for an integer [n]. *)
Definition ceil_div4 (n : Z) : Z := (n + 3) / 4.

(** [estimateTokens(text)] *)
Definition estimateTokens (text : jsstring) : Z := ceil_div4 (js_length text).

(* ===================================================================== *)
(** ** The chunker *)
(* ===================================================================== *)

(** [Math.max] of the four break candidates of a window. *)
Definition lastBreakOf (slice_ : jsstring) : Z :=
  Z.max (Z.max (Z.max (lastIndexOf slice_ (LF ++ LF))
                      (lastIndexOf slice_ (lit ". ")))
               (lastIndexOf slice_ (lit "? ")))
        (lastIndexOf slice_ (lit "! ")).

(** The window end chosen by one iteration of the loop. [lastBreak >
    maxChars * 0.5] is compared as [maxChars < 2 * lastBreak]. *)
Definition window_end (text : jsstring) (maxChars start : Z) : Z :=
  let end_ := start + maxChars in
  if end_ <? js_length text then
    let slice_ := slice text start end_ in
    let lastBreak := lastBreakOf slice_ in
    if maxChars <? 2 * lastBreak then start + lastBreak + 1 else end_
  else end_.

(** The [while (start < text.length)] loop. A JavaScript loop need not
    terminate: [fuel] bounds the number of iterations, and [None] says the
    loop was still running when it ran out. *)
Fixpoint chunk_loop (fuel : nat) (text : jsstring) (maxChars overlapChars : Z)
    (start : Z) (chunks : list jsstring) : option (list jsstring) :=
  match fuel with
  | O => None
  | S fuel' =>
      if start <? js_length text then
        let end_ := window_end text maxChars start in
        chunk_loop fuel' text maxChars overlapChars (end_ - overlapChars)
                   (chunks ++ [trim (slice text start end_)])
      else Some chunks
  end.

(** The body shared by both copies of [chunkText], in characters. *)
Definition chunkChars (fuel : nat) (text : jsstring) (maxChars overlapChars : Z)
    : option (list jsstring) :=
  if js_length text <=? maxChars then Some [text]
  else chunk_loop fuel text maxChars overlapChars 0 [].

(** [chunkText(text, maxTokens = 400, overlap = 50)] of the worker. *)
Definition chunkText (fuel : nat) (text : jsstring) (maxTokens overlap : Z)
    : option (list jsstring) :=
  let maxChars := maxTokens * 4 in
  let overlapChars := overlap * 4 in
  chunkChars fuel text maxChars overlapChars.

Module Cli.
Definition CHUNK_SIZE : Z := 1500.
Definition CHUNK_OVERLAP : Z := 200.

(** [chunkText(text, maxChars = CHUNK_SIZE, overlap = CHUNK_OVERLAP)] of
    the ingest CLI. *)
Definition chunkText (fuel : nat) (text : jsstring) (maxChars overlap : Z)
    : option (list jsstring) :=
  chunkChars fuel text maxChars overlap.
End Cli.



(* ===================================================================== *)
(** ** JavaScript values and objects *)
(* ===================================================================== *)

(** The values that reach the worker through JSON arguments and index
    metadata. Numbers are the integers; an array or a plain object is kept
    with the string [ToString] gives it, which is all the program observes
    of one. *)
Inductive JsVal : Type :=
  | VUndef
  | VNull
  | VBool (b : bool)
  | VNum (n : Z)
  | VStr (s : jsstring)
  | VObj (render : jsstring).

#[export] Instance JsVal_eq_dec : EqDecision JsVal.
Proof. solve_decision. Defined.

(** An object used as a string-keyed record. *)
Abbreviation JsObj := (gmap jsstring JsVal).

(** [ToBoolean] *)
Definition truthy (v : JsVal) : bool :=
  match v with
  | VUndef | VNull => false
  | VBool b => b
  | VNum n => negb (n =? 0)
  | VStr s => match s with [] => false | _ => true end
  | VObj _ => true
  end.

(** [a || b] *)
Definition js_or (a b : JsVal) : JsVal := if truthy a then a else b.

(** [ToString], as a template literal applies it. A number is printed in
    decimal, which is what JavaScript prints for an integer below 1e21 in
    absolute value; the exponent form of a larger one is not modelled. *)
Definition ToString (v : JsVal) : jsstring :=
  match v with
  | VUndef => lit "undefined"
  | VNull => lit "null"
  | VBool true => lit "true"
  | VBool false => lit "false"
  | VNum n => lit (NilZero.string_of_int (Z.to_int n))
  | VStr s => s
  | VObj render => render
  end.

(** [o.k]: a missing property reads as [undefined]. *)
Definition get_prop (o : JsObj) (k : jsstring) : JsVal := default VUndef (o !! k).

(** [o?.k] where [o] may be [undefined]. *)
Definition get_prop_opt (o : option JsObj) (k : jsstring) : JsVal :=
  match o with
  | Some o' => get_prop o' k
  | None => VUndef
  end.

(** An object literal [{k1: v1, ..., kn: vn}]: properties are defined left
    to right, a later one replacing an earlier one of the same name. *)
Definition obj_literal (fields : list (jsstring * JsVal)) : JsObj :=
  fold_left (fun o kv => <[fst kv := snd kv]> o) fields ∅.

(** [{...o, ...src}]: the properties of [src] are copied over [o]. *)
Definition spread (o src : JsObj) : JsObj := src ∪ o.

(** A thrown exception carries its message. *)
Inductive result (A : Type) : Type :=
  | Ok (a : A)
  | Err (message : jsstring).
Arguments Ok {A} a.
Arguments Err {A} message.

(** What the program takes from the JavaScript runtime: Unicode case
    mapping, SHA-256 (as the hexadecimal digest [hashContent] builds from
    it), the UUID source and the clock. *)
Record Host : Type := {
  toUpperCase : jsstring -> jsstring;
  toLowerCase : jsstring -> jsstring;
  sha256_hex : jsstring -> jsstring;
  randomUUID : nat -> jsstring;
  toISOString_now : nat -> jsstring
}.

(* ===================================================================== *)
(** ** Attribution formatting *)
(* ===================================================================== *)

(** The argument of [formatAttribution]: [{ metadata, text }]. *)
Record Memory : Type := {
  memory_metadata : option JsObj;
  memory_text : JsVal
}.

(** [type.toUpperCase()]: only a string has the method. *)
Definition call_toUpperCase (host : Host) (v : JsVal) : result jsstring :=
  match v with
  | VStr s => Ok (toUpperCase host s)
  | _ => Err (lit "type.toUpperCase is not a function")
  end.

Definition formatAttribution (host : Host) (memory : Memory) : result jsstring :=
  let entity := js_or (get_prop_opt (memory_metadata memory) (lit "entity_name")) (VStr (lit "unknown")) in
  let platform := js_or (get_prop_opt (memory_metadata memory) (lit "source_platform")) (VStr (lit "unknown")) in
  let timestamp := js_or (get_prop_opt (memory_metadata memory) (lit "timestamp")) (VStr (lit "unknown date")) in
  let type := js_or (get_prop_opt (memory_metadata memory) (lit "memory_type")) (VStr (lit "memory")) in
  match call_toUpperCase host type with
  | Err e => Err e
  | Ok upper =>
      Ok (lit "[" ++ upper ++ lit " from " ++ ToString entity
          ++ lit " | Source: " ++ ToString platform
          ++ lit " | " ++ ToString timestamp ++ lit "]" ++ LF
          ++ ToString (js_or (memory_text memory)
                         (js_or (get_prop_opt (memory_metadata memory) (lit "text_preview"))
                                (VStr (lit "(content unavailable)"))))
          ++ LF ++ lit "---")
  end.

(** The rendering in the words of the specification, to compare
    [formatAttribution] with: a field that is missing (absent or falsy)
    renders as its fallback, a present one as its string. *)
Definition field_or (v : JsVal) (fallback : jsstring) : jsstring :=
  if truthy v then ToString v else fallback.

(** The block of the specification: the four bracketed fields in order,
    the content line, the rule. *)
Definition attribution_block (type entity platform timestamp content : jsstring)
    : jsstring :=
  lit "[" ++ type ++ lit " from " ++ entity ++ lit " | Source: " ++ platform
  ++ lit " | " ++ timestamp ++ lit "]" ++ LF ++ content ++ LF ++ lit "---".

Definition is_string (v : JsVal) : bool :=
  match v with VStr _ => true | _ => false end.

(* ===================================================================== *)
(** ** Collaborators and effects *)
(* ===================================================================== *)

(** An embedding vector; a similarity score. *)
Abbreviation Vector := (list Q).

(** The argument of [env.VECTORIZE.upsert]: [{ id, values, namespace,
    metadata }]. *)
Record VectorRecord : Type := {
  vec_id : jsstring;
  vec_values : Vector;
  vec_namespace : JsVal;
  vec_metadata : JsObj
}.

(** The object [toolIngest] serialises into blob storage: [{ hash, text,
    metadata }]. *)
Record Blob : Type := {
  blob_hash : jsstring;
  blob_text : jsstring;
  blob_metadata : JsObj
}.

Record QueryOptions : Type := {
  topK : Z;
  returnValues : bool;
  returnMetadata : jsstring;
  qo_filter : option JsObj
}.

(** What the collaborators hold and were asked, and how often the UUID
    source and the clock were read: the records upserted into the index
    and the queries put to it, in the order it happened, and the blob
    store, which keeps one object per key. *)
Record World : Type := {
  upserts : list VectorRecord;
  blobs : gmap jsstring Blob;
  queries : list (Vector * QueryOptions);
  uuids_drawn : nat;
  clock_reads : nat
}.

(** An element of [results.matches]. *)
Record Match : Type := {
  match_id : jsstring;
  match_score : Q;
  match_metadata : option JsObj
}.

(** The bindings of the worker. [MAX_CHUNK_TOKENS] and [CHUNK_OVERLAP] hold
    what [parseInt] reads from the binding, [None] for NaN. A collaborator
    either throws (an error message) or succeeds; a successful write is
    recorded in the world. *)
Record Env : Type := {
  MAX_CHUNK_TOKENS : option Z;
  CHUNK_OVERLAP : option Z;
  AI_run : World -> jsstring -> result Vector;
  R2_put : World -> jsstring -> Blob -> option jsstring;
  VECTORIZE_upsert : World -> VectorRecord -> option jsstring;
  VECTORIZE_query : World -> Vector -> QueryOptions -> result (list Match)
}.

(** Computations that read and write the world and may throw. *)
Definition M (A : Type) : Type := World -> result A * World.

Definition ret {A} (a : A) : M A := fun w => (Ok a, w).

Definition bind {A B} (c : M A) (k : A -> M B) : M B :=
  fun w =>
    match c w with
    | (Ok a, w') => k a w'
    | (Err e, w') => (Err e, w')
    end.

Declare Scope js_scope.
Delimit Scope js_scope with js.
Notation "x <- c ;; k" := (bind c (fun x => k))
  (at level 100, c at next level, right associativity) : js_scope.
Notation "c ;;; k" := (bind c (fun _ => k))
  (at level 100, right associativity) : js_scope.
Local Open Scope js_scope.

(** Lift a pure computation that may throw. *)
Definition lift_result {A} (r : result A) : M A := fun w => (r, w).

(** [crypto.randomUUID()] *)
Definition crypto_randomUUID (host : Host) : M jsstring :=
  fun w =>
    (Ok (randomUUID host (uuids_drawn w)),
     {| upserts := upserts w; blobs := blobs w; queries := queries w;
        uuids_drawn := S (uuids_drawn w); clock_reads := clock_reads w |}).

(** [new Date().toISOString()] *)
Definition Date_now_toISOString (host : Host) : M jsstring :=
  fun w =>
    (Ok (toISOString_now host (clock_reads w)),
     {| upserts := upserts w; blobs := blobs w; queries := queries w;
        uuids_drawn := uuids_drawn w; clock_reads := S (clock_reads w) |}).

(** [await env.R2.put(key, JSON.stringify(blob))]: the object replaces
    the one the store held under [key], if any. *)
Definition env_R2_put (env : Env) (key : jsstring) (blob : Blob) : M unit :=
  fun w =>
    match R2_put env w key blob with
    | Some e => (Err e, w)
    | None =>
        (Ok tt,
         {| upserts := upserts w; blobs := <[key := blob]> (blobs w);
            queries := queries w;
            uuids_drawn := uuids_drawn w; clock_reads := clock_reads w |})
    end.

(** [await env.VECTORIZE.upsert([record])] *)
Definition env_VECTORIZE_upsert (env : Env) (record : VectorRecord) : M unit :=
  fun w =>
    match VECTORIZE_upsert env w record with
    | Some e => (Err e, w)
    | None =>
        (Ok tt,
         {| upserts := upserts w ++ [record]; blobs := blobs w;
            queries := queries w;
            uuids_drawn := uuids_drawn w; clock_reads := clock_reads w |})
    end.

(** [await env.VECTORIZE.query(embedding, queryOptions)], then [.matches];
    the call is recorded whether or not it succeeds. *)
Definition env_VECTORIZE_query (env : Env) (embedding : Vector)
    (queryOptions : QueryOptions) : M (list Match) :=
  fun w =>
    (VECTORIZE_query env w embedding queryOptions,
     {| upserts := upserts w; blobs := blobs w;
        queries := queries w ++ [(embedding, queryOptions)];
        uuids_drawn := uuids_drawn w; clock_reads := clock_reads w |}).

(** [generateId()]: ['mem_' + crypto.randomUUID().replace(/-/g, '').slice(0, 16)] *)
Definition generateId (host : Host) : M jsstring :=
  uuid <- crypto_randomUUID host ;;
  ret (lit "mem_" ++ slice (List.filter (fun c => negb (c =? 45)%N) uuid) 0 16).

(** [hashContent(text)]: the SHA-256 digest in hexadecimal. *)
Definition hashContent (host : Host) (text : jsstring) : jsstring :=
  sha256_hex host text.

(** [generateEmbedding(text, env)] *)
Definition generateEmbedding (env : Env) (text : jsstring) : M Vector :=
  fun w => (AI_run env w text, w).

(** [parseInt(binding) || fallback]: NaN and 0 are falsy. *)
Definition parsed_or (parsed : option Z) (fallback : Z) : Z :=
  match parsed with
  | Some n => if n =? 0 then fallback else n
  | None => fallback
  end.

(* ===================================================================== *)
(** ** Tool: search *)
(* ===================================================================== *)

Record SearchArgs : Type := {
  sa_query : jsstring;
  sa_entity : JsVal;
  sa_memory_type : JsVal;
  sa_source_platform : JsVal;
  sa_limit : option Z;
  sa_min_score : option Q
}.

Record SearchMemory : Type := {
  sm_id : jsstring;
  sm_score : Q;
  sm_text : JsVal;
  sm_metadata : option JsObj;
  sm_formatted : jsstring
}.

Record SearchResult : Type := {
  sr_query : jsstring;
  sr_count : Z;
  sr_memories : list SearchMemory
}.

(** [a !== b] *)
Definition strict_neq (a b : JsVal) : bool := negb (bool_decide (a = b)).

(** The [filter] object of [toolSearch]. *)
Definition search_filter (entity memory_type source_platform : JsVal) : JsObj :=
  let filter := ∅ in
  let filter :=
    if truthy entity && strict_neq entity (VStr (lit "all"))
    then <[lit "entity_name" := entity]> filter else filter in
  let filter :=
    if truthy memory_type
    then <[lit "memory_type" := memory_type]> filter else filter in
  let filter :=
    if truthy source_platform
    then <[lit "source_platform" := source_platform]> filter else filter in
  filter.

(** The [queryOptions] object of [toolSearch]: [filter] is set only when
    [Object.keys(filter).length > 0]. *)
Definition search_queryOptions (limit : Z) (filter : JsObj) : QueryOptions :=
  {| topK := Z.min limit 20;
     returnValues := false;
     returnMetadata := lit "all";
     qo_filter := if (0 <? Z.of_nat (size filter)) then Some filter else None |}.

(** The callback of [.map] over the surviving matches. *)
Definition to_memory (host : Host) (m : Match) : result SearchMemory :=
  let text := get_prop_opt (match_metadata m) (lit "text_preview") in
  match formatAttribution host
          {| memory_metadata := match_metadata m; memory_text := text |} with
  | Err e => Err e
  | Ok formatted =>
      Ok {| sm_id := match_id m; sm_score := match_score m; sm_text := text;
            sm_metadata := match_metadata m; sm_formatted := formatted |}
  end.

(** [.map(f)] where [f] may throw. *)
Fixpoint map_result {A B} (f : A -> result B) (l : list A) : result (list B) :=
  match l with
  | [] => Ok []
  | a :: l' =>
      match f a with
      | Err e => Err e
      | Ok b =>
          match map_result f l' with
          | Err e => Err e
          | Ok bs => Ok (b :: bs)
          end
      end
  end.

Definition toolSearch (host : Host) (env : Env) (args : SearchArgs) : M SearchResult :=
  let limit := default 10 (sa_limit args) in
  let min_score := default (7 # 10)%Q (sa_min_score args) in
  embedding <- generateEmbedding env (sa_query args) ;;
  let filter := search_filter (sa_entity args) (sa_memory_type args)
                              (sa_source_platform args) in
  let queryOptions := search_queryOptions limit filter in
  matches <- env_VECTORIZE_query env embedding queryOptions ;;
  memories <- lift_result
    (map_result (to_memory host)
       (List.filter (fun m => Qle_bool min_score (match_score m)) matches)) ;;
  ret {| sr_query := sa_query args;
         sr_count := js_length_of memories;
         sr_memories := memories |}.

(* ===================================================================== *)
(** ** Tool: get_grounding_context *)
(* ===================================================================== *)

Record GroundingArgs : Type := {
  ga_topic : JsVal;
  ga_entity : JsVal;
  ga_max_tokens : option Z
}.

Record GroundingResult : Type := {
  gr_context : jsstring;
  gr_token_estimate : Z;
  gr_memories_included : Z;
  gr_total_available : Z
}.

(** The state of the packing loop: [context], [currentTokens] and
    [includedMemories]. *)
Record Packing : Type := {
  context : jsstring;
  currentTokens : Z;
  includedMemories : list jsstring
}.

(** [for (const memory of searchResult.memories) { ... else break; }] *)
Fixpoint pack_loop (memories : list SearchMemory) (max_tokens : Z) (st : Packing)
    : Packing :=
  match memories with
  | [] => st
  | memory :: rest =>
      let memoryText := sm_formatted memory in
      let memoryTokens := estimateTokens memoryText in
      if currentTokens st + memoryTokens <=? max_tokens then
        pack_loop rest max_tokens
          {| context := context st ++ memoryText ++ LF;
             currentTokens := currentTokens st + memoryTokens;
             includedMemories := includedMemories st ++ [sm_id memory] |}
      else st
  end.

(** The two header lines the context starts with. *)
Definition grounding_header (topic : JsVal) (entity : JsVal) : jsstring :=
  (lit "## Grounding Context" ++ LF)
  ++ (lit "Query: " ++ DQUOTE ++ ToString topic ++ DQUOTE ++ lit " | Entity filter: "
      ++ ToString entity ++ LF ++ LF).

(** [topic.toLowerCase()]: only a string has the method, and [undefined]
    and [null] have no property to read. *)
Definition call_toLowerCase (host : Host) (topic : JsVal) : result jsstring :=
  match topic with
  | VStr s => Ok (toLowerCase host s)
  | VUndef => Err (lit "Cannot read properties of undefined (reading 'toLowerCase')")
  | VNull => Err (lit "Cannot read properties of null (reading 'toLowerCase')")
  | _ => Err (lit "topic.toLowerCase is not a function")
  end.

(** [toolGetGroundingContext(args, env)]. [topic.toLowerCase()] is called
    before the search, and throws for a topic that is not a string; past
    it [topic] is a string, which [ToString] leaves as it is. *)
Definition toolGetGroundingContext (host : Host) (env : Env) (args : GroundingArgs)
    : M GroundingResult :=
  let topic := ga_topic args in
  let entity := match ga_entity args with VUndef => VStr (lit "all") | v => v end in
  let max_tokens := default 2000 (ga_max_tokens args) in
  lowered <- lift_result (call_toLowerCase host topic) ;;
  let searchQuery :=
    if bool_decide (lowered = lit "recent")
    then lit "recent conversation important memory significant moment"
    else ToString topic in
  searchResult <- toolSearch host env
    {| sa_query := searchQuery; sa_entity := entity;
       sa_memory_type := VUndef; sa_source_platform := VUndef;
       sa_limit := Some 20; sa_min_score := Some (5 # 10)%Q |} ;;
  let header := grounding_header topic entity in
  let st := pack_loop (sr_memories searchResult) max_tokens
              {| context := header;
                 currentTokens := estimateTokens header;
                 includedMemories := [] |} in
  ret {| gr_context := context st;
         gr_token_estimate := currentTokens st;
         gr_memories_included := js_length_of (includedMemories st);
         gr_total_available := sr_count searchResult |}.

(** The text the packing loop appends for the memories [ms]: each
    formatted block followed by a newline. *)
Definition blocks_text (ms : list SearchMemory) : jsstring :=
  concat (map (fun m => sm_formatted m ++ LF) ms).

(** The sum of the token estimates of the formatted blocks of [ms]. *)
Definition sum_tokens (ms : list SearchMemory) : Z :=
  fold_right (fun m acc => estimateTokens (sm_formatted m) + acc) 0 ms.

(** The arguments [toolGetGroundingContext] passes to [toolSearch], which
    it reaches only with a topic that is a string. *)
Definition grounding_search_args (host : Host) (args : GroundingArgs) : SearchArgs :=
  {| sa_query :=
       if bool_decide (toLowerCase host (ToString (ga_topic args)) = lit "recent")
       then lit "recent conversation important memory significant moment"
       else ToString (ga_topic args);
     sa_entity := match ga_entity args with VUndef => VStr (lit "all") | v => v end;
     sa_memory_type := VUndef; sa_source_platform := VUndef;
     sa_limit := Some 20; sa_min_score := Some (5 # 10)%Q |}.

(* ===================================================================== *)
(** ** Tool: ingest *)
(* ===================================================================== *)

Record IngestArgs : Type := {
  ia_content : jsstring;
  ia_entity_name : JsVal;
  ia_source_platform : JsVal;
  ia_memory_type : JsVal;
  ia_metadata : option JsObj
}.

(** An element of [results]: [{ id, hash, chunk_index }]. *)
Record IngestEntry : Type := {
  ie_id : jsstring;
  ie_hash : jsstring;
  ie_chunk_index : Z
}.

Record IngestResult : Type := {
  ir_success : bool;
  ir_entity : JsVal;
  ir_chunks_created : Z;
  ir_memory_ids : list jsstring
}.

(** The object literal bound to [vectorMetadata] for chunk [i]: the nine
    system fields, then the spread of the caller's [metadata]. *)
Definition ingest_vectorMetadata (host : Host) (args : IngestArgs)
    (metadata : JsObj) (timestamp : jsstring) (total i : Z) (chunk : jsstring)
    : JsObj :=
  spread
    (obj_literal
       [ (lit "entity_name", ia_entity_name args);
         (lit "source_platform", ia_source_platform args);
         (lit "memory_type", ia_memory_type args);
         (lit "timestamp", js_or (get_prop metadata (lit "timestamp")) (VStr timestamp));
         (lit "text_preview", VStr (slice chunk 0 500));
         (lit "chunk_hash", VStr (hashContent host chunk));
         (lit "chunk_index", VNum i);
         (lit "total_chunks", VNum total);
         (lit "ingested_at", VStr timestamp) ])
    metadata.

(** [`chunks/${hash}.json`] *)
Definition r2Key_of (hash : jsstring) : jsstring :=
  lit "chunks/" ++ hash ++ lit ".json".

(** The body of [for (let i = 0; i < chunks.length; i++)], from chunk [i]
    on: [rest] holds [chunks[i]], [chunks[i+1]], ... and [total] is
    [chunks.length]. *)
Fixpoint ingest_loop (host : Host) (env : Env) (args : IngestArgs)
    (metadata : JsObj) (timestamp : jsstring) (total : Z)
    (rest : list jsstring) (i : Z) (results : list IngestEntry)
    : M (list IngestEntry) :=
  match rest with
  | [] => ret results
  | chunk :: rest' =>
      let hash := hashContent host chunk in
      id <- generateId host ;;
      embedding <- generateEmbedding env chunk ;;
      let vectorMetadata :=
        ingest_vectorMetadata host args metadata timestamp total i chunk in
      vectorMetadata <-
        (if 500 <? js_length chunk then
           let r2Key := r2Key_of hash in
           env_R2_put env r2Key
             {| blob_hash := hash; blob_text := chunk;
                blob_metadata := vectorMetadata |} ;;;
           ret (<[lit "r2_key" := VStr r2Key]> vectorMetadata)
         else ret vectorMetadata) ;;
      env_VECTORIZE_upsert env
        {| vec_id := id; vec_values := embedding;
           vec_namespace := ia_entity_name args;
           vec_metadata := vectorMetadata |} ;;;
      ingest_loop host env args metadata timestamp total rest' (i + 1)
        (results ++ [{| ie_id := id; ie_hash := hash; ie_chunk_index := i |}])
  end.

(** [toolIngest(args, env)]. [None]: the chunker was still looping when
    [fuel] ran out, so nothing after it has happened. *)
Definition toolIngest (fuel : nat) (host : Host) (env : Env) (args : IngestArgs)
    (w : World) : option (result IngestResult * World) :=
  let metadata := default ∅ (ia_metadata args) in
  let maxChunkTokens := parsed_or (MAX_CHUNK_TOKENS env) 400 in
  let chunkOverlap := parsed_or (CHUNK_OVERLAP env) 50 in
  match chunkText fuel (ia_content args) maxChunkTokens chunkOverlap with
  | None => None
  | Some chunks =>
      Some
        ((timestamp <- Date_now_toISOString host ;;
          results <- ingest_loop host env args metadata timestamp
                       (js_length_of chunks) chunks 0 [] ;;
          ret {| ir_success := true;
                 ir_entity := ia_entity_name args;
                 ir_chunks_created := js_length_of results;
                 ir_memory_ids := map ie_id results |}) w)
  end.

(* ===================================================================== *)
(** ** Tool: store *)
(* ===================================================================== *)

Record StoreArgs : Type := {
  st_text : jsstring;
  st_entity_name : JsVal;
  st_source_platform : JsVal;
  st_memory_type : JsVal;
  st_metadata : option JsObj
}.

Record StoreResult : Type := {
  so_success : bool;
  so_memory_id : jsstring;
  so_entity : JsVal;
  so_type : JsVal
}.

(** The object literal bound to [vectorMetadata] in [toolStore]. *)
Definition store_vectorMetadata (host : Host) (args : StoreArgs)
    (source_platform : JsVal) (metadata : JsObj) (timestamp : jsstring) : JsObj :=
  spread
    (obj_literal
       [ (lit "entity_name", st_entity_name args);
         (lit "source_platform", source_platform);
         (lit "memory_type", st_memory_type args);
         (lit "timestamp", js_or (get_prop metadata (lit "timestamp")) (VStr timestamp));
         (lit "text_preview", VStr (slice (st_text args) 0 500));
         (lit "chunk_hash", VStr (hashContent host (st_text args)));
         (lit "ingested_at", VStr timestamp) ])
    metadata.

Definition toolStore (host : Host) (env : Env) (args : StoreArgs) : M StoreResult :=
  let text := st_text args in
  let source_platform :=
    match st_source_platform args with VUndef => VStr (lit "direct") | v => v end in
  let metadata := default ∅ (st_metadata args) in
  id <- generateId host ;;
  timestamp <- Date_now_toISOString host ;;
  embedding <- generateEmbedding env text ;;
  let vectorMetadata :=
    store_vectorMetadata host args source_platform metadata timestamp in
  env_VECTORIZE_upsert env
    {| vec_id := id; vec_values := embedding;
       vec_namespace := st_entity_name args;
       vec_metadata := vectorMetadata |} ;;;
  ret {| so_success := true; so_memory_id := id;
         so_entity := st_entity_name args; so_type := st_memory_type args |}.

(** The metadata keys the writer assigns itself before the caller's
    metadata is merged. *)
Definition system_keys : list jsstring :=
  [ lit "entity_name"; lit "source_platform"; lit "memory_type";
    lit "timestamp"; lit "text_preview"; lit "chunk_hash"; lit "chunk_index";
    lit "total_chunks"; lit "ingested_at" ].

(** The metadata of the unit [toolIngest] upserts for chunk [i], once the
    blob key has been recorded. *)
Definition ingest_unit_metadata (host : Host) (args : IngestArgs)
    (metadata : JsObj) (timestamp : jsstring) (total i : Z) (chunk : jsstring)
    : JsObj :=
  let vectorMetadata :=
    ingest_vectorMetadata host args metadata timestamp total i chunk in
  if 500 <? js_length chunk
  then <[lit "r2_key" := VStr (r2Key_of (hashContent host chunk))]> vectorMetadata
  else vectorMetadata.

(** A collaborator call made for chunk [i] throws [e]: the embedding, the
    blob put of a chunk longer than 500 characters, or the index upsert. *)
Definition chunk_write_fails (host : Host) (env : Env) (args : IngestArgs)
    (metadata : JsObj) (timestamp : jsstring) (total i : Z) (chunk : jsstring)
    (e : jsstring) : Prop :=
  exists w1,
    AI_run env w1 chunk = Err e
    \/ (500 < js_length chunk
        /\ R2_put env w1 (r2Key_of (hashContent host chunk))
             {| blob_hash := hashContent host chunk; blob_text := chunk;
                blob_metadata :=
                  ingest_vectorMetadata host args metadata timestamp total i chunk |}
           = Some e)
    \/ (exists id embedding,
          VECTORIZE_upsert env w1
            {| vec_id := id; vec_values := embedding;
               vec_namespace := ia_entity_name args;
               vec_metadata :=
                 ingest_unit_metadata host args metadata timestamp total i chunk |}
          = Some e).

(* ===================================================================== *)
(** ** A sample runtime, sample bindings and sample inputs *)
(* ===================================================================== *)

(** Case mapping on the Basic Latin letters. *)
Definition ascii_upper (s : jsstring) : jsstring :=
  map (fun c => if (97 <=? c) && (c <=? 122) then c - 32 else c)%N s.

Definition ascii_lower (s : jsstring) : jsstring :=
  map (fun c => if (65 <=? c) && (c <=? 90) then c + 32 else c)%N s.

(** A stand-in digest: the sum of the code units, in decimal. *)
Definition toy_digest (s : jsstring) : jsstring :=
  lit (NilZero.string_of_uint (N.to_uint (fold_right N.add 0%N s))).

Definition sample_host : Host :=
  {| toUpperCase := ascii_upper;
     toLowerCase := ascii_lower;
     sha256_hex := toy_digest;
     randomUUID := fun n => lit "0a1b2c3d-4e5f-" ++ toy_digest (repeat 1%N n);
     toISOString_now := fun _ => lit "2026-02-01T00:00:00.000Z" |}.

(** Collaborators that never fail; the index has nothing to return. *)
Definition reliable_env (maxChunkTokens chunkOverlap : option Z) : Env :=
  {| MAX_CHUNK_TOKENS := maxChunkTokens;
     CHUNK_OVERLAP := chunkOverlap;
     AI_run := fun _ text => Ok [inject_Z (js_length text)];
     R2_put := fun _ _ _ => None;
     VECTORIZE_upsert := fun _ _ => None;
     VECTORIZE_query := fun _ _ _ => Ok [] |}.

(** As [reliable_env], but the embedding model rejects every text that
    starts with [bad]. *)
Definition flaky_env (maxChunkTokens chunkOverlap : option Z) (bad : jsstring) : Env :=
  {| MAX_CHUNK_TOKENS := maxChunkTokens;
     CHUNK_OVERLAP := chunkOverlap;
     AI_run := fun _ text =>
       if starts_with bad text then Err (lit "embedding failed")
       else Ok [inject_Z (js_length text)];
     R2_put := fun _ _ _ => None;
     VECTORIZE_upsert := fun _ _ => None;
     VECTORIZE_query := fun _ _ _ => Ok [] |}.

(** As [reliable_env], but the index returns the given matches. *)
Definition answering_env (matches : list Match) : Env :=
  {| MAX_CHUNK_TOKENS := None;
     CHUNK_OVERLAP := None;
     AI_run := fun _ text => Ok [inject_Z (js_length text)];
     R2_put := fun _ _ _ => None;
     VECTORIZE_upsert := fun _ _ => None;
     VECTORIZE_query := fun _ _ _ => Ok matches |}.

Definition empty_world : World :=
  {| upserts := []; blobs := ∅; queries := []; uuids_drawn := 0; clock_reads := 0 |}.

(** [ingest(content, "e1", "p", "note", metadata)] *)
Definition sample_ingest_args (content : jsstring) (metadata : option JsObj)
    : IngestArgs :=
  {| ia_content := content;
     ia_entity_name := VStr (lit "e1");
     ia_source_platform := VStr (lit "p");
     ia_memory_type := VStr (lit "note");
     ia_metadata := metadata |}.

(** [store(text, "e1", memory_type = "note", metadata)] *)
Definition sample_store_args (text : jsstring) (metadata : option JsObj)
    : StoreArgs :=
  {| st_text := text;
     st_entity_name := VStr (lit "e1");
     st_source_platform := VUndef;
     st_memory_type := VStr (lit "note");
     st_metadata := metadata |}.

(** Six hundred times the letter a. *)
Definition a600 : jsstring := repeat 97%N 600.

(** A memory of type note, of entity e1, from platform p, with the text
    hi and no timestamp. *)
Definition undated_memory : Memory :=
  {| memory_metadata :=
       Some (obj_literal [ (lit "memory_type", VStr (lit "note"));
                           (lit "entity_name", VStr (lit "e1"));
                           (lit "source_platform", VStr (lit "p")) ]);
     memory_text := VStr (lit "hi") |}.

(** [search("q", memory_type = "all")] *)
Definition search_all_types : SearchArgs :=
  {| sa_query := lit "q"; sa_entity := VUndef;
     sa_memory_type := VStr (lit "all"); sa_source_platform := VUndef;
     sa_limit := None; sa_min_score := None |}.

(** A match of score 0.9 for a note of e1 with the given preview. *)
Definition sample_match (preview : jsstring) : Match :=
  {| match_id := lit "mem_1";
     match_score := (9 # 10)%Q;
     match_metadata :=
       Some (obj_literal [ (lit "memory_type", VStr (lit "note"));
                           (lit "entity_name", VStr (lit "e1"));
                           (lit "source_platform", VStr (lit "p"));
                           (lit "text_preview", VStr preview) ]) |}.

(** [get_grounding_context(topic, max_tokens)] *)
Definition sample_grounding_args (topic : jsstring) (max_tokens : Z) : GroundingArgs :=
  {| ga_topic := VStr topic; ga_entity := VUndef; ga_max_tokens := Some max_tokens |}.


(* ===================================================================== *)
(** ** Notions used in the further properties *)
(* ===================================================================== *)

(** The matches [toolSearch] keeps: those whose score reaches [min_score]. *)
Definition kept_matches (min_score : Q) (matches : list Match) : list Match :=
  List.filter (fun m => Qle_bool min_score (match_score m)) matches.

(** Can [formatAttribution] render the match? Its memory type is missing
    (falsy) or a string. *)
Definition formattable (m : Match) : bool :=
  let type := get_prop_opt (match_metadata m) (lit "memory_type") in
  negb (truthy type && negb (is_string type)).

(* ===================================================================== *)
(** ** Tool: stats *)
(* ===================================================================== *)

(** The [CACHE] binding: [env.CACHE.get(key, 'json')] throws, or answers
    the cached object, [None] standing for [null] and for any value
    without properties of its own. *)
Record Cache : Type := {
  CACHE_get : World -> jsstring -> result (option JsObj)
}.

Record StatsResult : Type := {
  stats_index : jsstring;
  stats_last_updated : JsVal;
  stats_vector_count_estimate : JsVal;
  stats_r2_bucket : jsstring;
  stats_kv_namespace : jsstring
}.

Definition toolStats (cache : Cache) : M StatsResult :=
  fun w =>
    let stats : JsObj :=
      match CACHE_get cache w (lit "unified-mind:stats") with
      | Ok (Some cached) => cached
      | Ok None => ∅
      | Err _ => ∅
      end in
    (Ok {| stats_index := lit "unified-mind-index";
           stats_last_updated :=
             js_or (get_prop stats (lit "last_updated")) (VStr (lit "unknown"));
           stats_vector_count_estimate :=
             js_or (get_prop stats (lit "vector_count")) (VStr (lit "unknown"));
           stats_r2_bucket := lit "unified-mind-storage";
           stats_kv_namespace := lit "unified-mind-cache" |}, w).

(* ===================================================================== *)
(** ** The MCP protocol handler *)
(* ===================================================================== *)

(** The names of [MCP_TOOLS], in the order of the table. *)
Definition MCP_TOOLS : list jsstring :=
  [ lit "search"; lit "get_grounding_context"; lit "ingest"; lit "store";
    lit "stats" ].

(** The case of [switch (name)] in [executeTool] that a name selects, if
    any. *)
Inductive Tool : Type :=
  | TSearch | TGetGroundingContext | TIngest | TStore | TStats.

Definition tool_of_name (name : JsVal) : option Tool :=
  if bool_decide (name = VStr (lit "search")) then Some TSearch
  else if bool_decide (name = VStr (lit "get_grounding_context"))
       then Some TGetGroundingContext
  else if bool_decide (name = VStr (lit "ingest")) then Some TIngest
  else if bool_decide (name = VStr (lit "store")) then Some TStore
  else if bool_decide (name = VStr (lit "stats")) then Some TStats
  else None.

(** The arguments object of a call, as each tool destructures it. *)
Record ToolArgs : Type := {
  as_search : SearchArgs;
  as_grounding : GroundingArgs;
  as_ingest : IngestArgs;
  as_store : StoreArgs
}.

Inductive ToolResult : Type :=
  | SearchOut (r : SearchResult)
  | GroundingOut (r : GroundingResult)
  | IngestOut (r : IngestResult)
  | StoreOut (r : StoreResult)
  | StatsOut (r : StatsResult).

(** [await tool(...)] followed by the return of its value. *)
Definition returning {A B} (wrap : A -> B) (c : M A) : M B :=
  a <- c ;; ret (wrap a).

(** [executeTool(name, args, env)]. [None]: the chunker of an ingest was
    still looping when [fuel] ran out. *)
Definition executeTool (fuel : nat) (host : Host) (env : Env) (cache : Cache)
    (name : JsVal) (args : ToolArgs) (w : World)
    : option (result ToolResult * World) :=
  match tool_of_name name with
  | Some TSearch => Some (returning SearchOut (toolSearch host env (as_search args)) w)
  | Some TGetGroundingContext =>
      Some (returning GroundingOut
              (toolGetGroundingContext host env (as_grounding args)) w)
  | Some TIngest =>
      match toolIngest fuel host env (as_ingest args) w with
      | None => None
      | Some (Ok r, w') => Some (Ok (IngestOut r), w')
      | Some (Err e, w') => Some (Err e, w')
      end
  | Some TStore => Some (returning StoreOut (toolStore host env (as_store args)) w)
  | Some TStats => Some (returning StatsOut (toolStats cache) w)
  | None => Some (Err (lit "Unknown tool: " ++ ToString name), w)
  end.

(** The [params] of a [tools/call] request: [{ name, arguments }], for a
    call that carries its arguments. *)
Record CallParams : Type := {
  cp_name : JsVal;
  cp_arguments : ToolArgs
}.

(** A property that may be missing ([undefined]) or [null], neither of
    which can be destructured. *)
Inductive Maybe (A : Type) : Type :=
  | IsUndefined
  | IsNull
  | Is (a : A).
Arguments IsUndefined {A}.
Arguments IsNull {A}.
Arguments Is {A} a.

(** The body of a request as the handler destructures it:
    [{ method, params, id }]. *)
Record RpcBody : Type := {
  rpc_method : JsVal;
  rpc_params : Maybe CallParams;
  rpc_id : JsVal
}.

(** What [fetch] and [handleMCPRequest] read of a request: its method,
    the path of its URL, and what [await request.json()] gives: it throws
    when the body is not JSON, and [None] is the JSON value [null]. *)
Record Request : Type := {
  req_method : jsstring;
  req_pathname : jsstring;
  req_json : result (option RpcBody)
}.

Inductive RpcResult : Type :=
  | InitializeResult
  | ToolsListResult (tools : list jsstring)
  | ToolCallResult (result_ : ToolResult).

(** A JSON-RPC 2.0 response object: [{ jsonrpc, id, result }] or
    [{ jsonrpc, id, error: { code, message } }]. *)
Inductive RpcReply : Type :=
  | RpcOk (id : JsVal) (result_ : RpcResult)
  | RpcError (id : JsVal) (code : Z) (message : jsstring).

(** The [id] of a response. *)
Definition reply_id (reply : RpcReply) : JsVal :=
  match reply with
  | RpcOk id _ => id
  | RpcError id _ _ => id
  end.

(** [handleMCPRequest(request, env)]. Three things throw out of the
    handler: [request.json()] on a body that is not JSON, the
    destructuring of a [null] body, and, in the [tools/call] case, the
    destructuring of [params], which is outside the [try]. *)
Definition handleMCPRequest (fuel : nat) (host : Host) (env : Env) (cache : Cache)
    (request : Request) (w : World) : option (result RpcReply * World) :=
  match req_json request with
  | Err message => Some (Err message, w)
  | Ok None =>
      Some (Err (lit "Cannot destructure property 'method' of 'body' as it is null."), w)
  | Ok (Some body) =>
      let id := rpc_id body in
      if bool_decide (rpc_method body = VStr (lit "initialize")) then
        Some (Ok (RpcOk id InitializeResult), w)
      else if bool_decide (rpc_method body = VStr (lit "tools/list")) then
        Some (Ok (RpcOk id (ToolsListResult MCP_TOOLS)), w)
      else if bool_decide (rpc_method body = VStr (lit "tools/call")) then
        match rpc_params body with
        | IsUndefined =>
            Some (Err (lit "Cannot destructure property 'name' of 'params' as it is undefined."), w)
        | IsNull =>
            Some (Err (lit "Cannot destructure property 'name' of 'params' as it is null."), w)
        | Is params =>
            match executeTool fuel host env cache (cp_name params)
                    (cp_arguments params) w with
            | None => None
            | Some (Ok result_, w') => Some (Ok (RpcOk id (ToolCallResult result_)), w')
            | Some (Err message, w') => Some (Ok (RpcError id (-32000) message), w')
            end
        end
      else
        Some (Ok (RpcError id (-32601)
                    (lit "Unknown method: " ++ ToString (rpc_method body))), w)
  end.

(* ===================================================================== *)
(** ** The request handler *)
(* ===================================================================== *)

Inductive ResponseBody : Type :=
  | BodyNull
  | BodyHealth (timestamp : jsstring)
  | BodyRpc (reply : RpcReply)
  | BodyNotFound.

Record Response : Type := {
  resp_status : Z;
  resp_headers : gmap jsstring jsstring;
  resp_body : ResponseBody
}.

(** [corsHeaders], for the configured [env.CORS_ORIGIN]. *)
Definition corsHeaders (cors_origin : JsVal) : gmap jsstring jsstring :=
  <[lit "Access-Control-Allow-Headers" := lit "Content-Type"]>
    (<[lit "Access-Control-Allow-Methods" := lit "GET, POST, OPTIONS"]>
       (<[lit "Access-Control-Allow-Origin" :=
            ToString (js_or cors_origin (VStr (lit "*")))]> ∅)).

(** [{ ...corsHeaders, 'Content-Type': 'application/json' }] *)
Definition jsonHeaders (cors_origin : JsVal) : gmap jsstring jsstring :=
  <[lit "Content-Type" := lit "application/json"]> (corsHeaders cors_origin).

(** [fetch(request, env, ctx)] *)
Definition fetch (fuel : nat) (host : Host) (env : Env) (cache : Cache)
    (cors_origin : JsVal) (request : Request) (w : World)
    : option (Response * World) :=
  if bool_decide (req_method request = lit "OPTIONS") then
    Some ({| resp_status := 200; resp_headers := corsHeaders cors_origin;
             resp_body := BodyNull |}, w)
  else if bool_decide (req_pathname request = lit "/")
          || bool_decide (req_pathname request = lit "/health") then
    Some ({| resp_status := 200; resp_headers := jsonHeaders cors_origin;
             resp_body := BodyHealth (toISOString_now host (clock_reads w)) |},
          snd (Date_now_toISOString host w))
  else if bool_decide (req_pathname request = lit "/mcp")
          && bool_decide (req_method request = lit "POST") then
    match handleMCPRequest fuel host env cache request w with
    | None => None
    | Some (Ok reply, w') =>
        Some ({| resp_status := 200; resp_headers := jsonHeaders cors_origin;
                 resp_body := BodyRpc reply |}, w')
    | Some (Err message, w') =>
        Some ({| resp_status := 500; resp_headers := jsonHeaders cors_origin;
                 resp_body := BodyRpc (RpcError VNull (-32603) message) |}, w')
    end
  else
    Some ({| resp_status := 404; resp_headers := jsonHeaders cors_origin;
             resp_body := BodyNotFound |}, w).

(* ===================================================================== *)
(** ** The ingest CLI *)
(* ===================================================================== *)

Module IngestCli.

(** A parsed JSON document. Numbers are the integers, as for [JsVal].
    The fields of an object are in the order of the text; a repeated key
    reads as its last occurrence. *)
#[warnings="-register-all"]
Inductive Json : Type :=
  | JNull
  | JBool (b : bool)
  | JNum (n : Z)
  | JStr (s : jsstring)
  | JArr (items : list Json)
  | JObj (fields : list (jsstring * Json)).

(** [ToString] of a parsed value: an array joins its elements with
    commas, [null] elements as the empty string; an object is
    [[object Object]]. *)
Fixpoint ToString_json (j : Json) : jsstring :=
  match j with
  | JNull => lit "null"
  | JBool true => lit "true"
  | JBool false => lit "false"
  | JNum n => lit (NilZero.string_of_int (Z.to_int n))
  | JStr s => s
  | JArr items =>
      (fix join (l : list Json) : jsstring :=
         match l with
         | [] => []
         | x :: r =>
             (match x with JNull => [] | _ => ToString_json x end)
             ++ match r with [] => [] | _ :: _ => lit "," ++ join r end
         end) items
  | JObj _ => lit "[object Object]"
  end.

(** A parsed value as the value the expressions of the program see. *)
Definition val_of (j : Json) : JsVal :=
  match j with
  | JNull => VNull
  | JBool b => VBool b
  | JNum n => VNum n
  | JStr s => VStr s
  | JArr _ | JObj _ => VObj (ToString_json j)
  end.

(** The last field named [k]. *)
Definition field (fields : list (jsstring * Json)) (k : jsstring) : option Json :=
  snd <$> List.find (fun kv => bool_decide (fst kv = k)) (rev fields).

(** [data.k] for one of the keys the program reads (none of them a
    property of a prototype): [None] is [undefined]; reading a property
    of [null] throws. *)
Definition read (data : Json) (k : jsstring) : result (option Json) :=
  match data with
  | JNull => Err (lit "Cannot read properties of null (reading '" ++ k ++ lit "')")
  | JObj fields => Ok (field fields k)
  | _ => Ok None
  end.

(** [data.k] where [data] is known not to be [null]. *)
Definition read_val (data : Json) (k : jsstring) : JsVal :=
  match read data k with
  | Ok (Some j) => val_of j
  | _ => VUndef
  end.

(** The strings a [for ... of] over a string yields: one per code point,
    a surrogate pair staying together. *)
Fixpoint code_points (s : jsstring) : list jsstring :=
  match s with
  | [] => []
  | c :: r =>
      match r with
      | d :: r' =>
          if ((55296 <=? c) && (c <=? 56319) && (56320 <=? d) && (d <=? 57343))%N
          then [c; d] :: code_points r'
          else [c] :: code_points r
      | [] => [[c]]
      end
  end.

(** [for (const x of v)]: arrays and strings are iterable. *)
Definition iterate (what : jsstring) (v : Json) : result (list Json) :=
  match v with
  | JArr items => Ok items
  | JStr s => Ok (map JStr (code_points s))
  | _ => Err (what ++ lit " is not iterable")
  end.

(** An entry of [fs.readdir(dir, { withFileTypes: true, recursive: true })]. *)
Record Dirent : Type := {
  de_name : jsstring;
  de_path : JsVal;
  de_isFile : bool
}.

(** The [ingest] call that [ingestChunk] sends: where it goes and its
    arguments. *)
Record IngestRequest : Type := {
  rq_url : jsstring;
  rq_content : jsstring;
  rq_entity : jsstring;
  rq_platform : jsstring;
  rq_type : jsstring;
  rq_metadata : JsObj
}.

(** What the process has done: the requests it sent, each with whether
    [callMCP] returned ([true]) or threw, the lines it wrote with
    [console.error], and [process.env.UNIFIED_MIND_URL]. Lines written to
    the standard output are not kept. *)
Record CliWorld : Type := {
  calls : list (IngestRequest * bool);
  stderr : list jsstring;
  env_UNIFIED_MIND_URL : JsVal
}.

(** What the program takes from Node and from the network. [callMCP]
    throws when the request fails or the response carries an error. *)
Record CliHost : Type := {
  readFile : jsstring -> result jsstring;
  readdir : jsstring -> result (list Dirent);
  path_basename : jsstring -> jsstring;
  path_extname : jsstring -> jsstring;
  path_join : jsstring -> jsstring -> jsstring;
  String_toLowerCase : jsstring -> jsstring;
  JSON_parse : jsstring -> result Json;
  JSON_stringify : Json -> jsstring;
  JSON_stringify_pretty : Json -> jsstring;
  callMCP_error : CliWorld -> IngestRequest -> option jsstring
}.

(** Computations of the CLI: they act on the process, may throw, and may
    still be running ([None]) when the fuel of a chunker is spent. *)
Definition C (A : Type) : Type := CliWorld -> option (result A * CliWorld).

Definition cret {A} (a : A) : C A := fun w => Some (Ok a, w).

Definition cthrow {A} (e : jsstring) : C A := fun w => Some (Err e, w).

Definition cbind {A B} (c : C A) (k : A -> C B) : C B :=
  fun w =>
    match c w with
    | None => None
    | Some (Ok a, w') => k a w'
    | Some (Err e, w') => Some (Err e, w')
    end.

(** [try { c } catch (e) { handler(e.message) }] *)
Definition try_catch {A} (c : C A) (handler : jsstring -> C A) : C A :=
  fun w =>
    match c w with
    | None => None
    | Some (Ok a, w') => Some (Ok a, w')
    | Some (Err e, w') => handler e w'
    end.

Definition lift {A} (r : result A) : C A := fun w => Some (r, w).

Declare Scope cli_scope.
Delimit Scope cli_scope with cli.
Notation "x <~ c ;; k" := (cbind c (fun x => k))
  (at level 100, c at next level, right associativity) : cli_scope.
Local Open Scope cli_scope.

(** [console.error(line)] *)
Definition console_error (line : jsstring) : C unit :=
  fun w =>
    Some (Ok tt, {| calls := calls w; stderr := stderr w ++ [line];
                    env_UNIFIED_MIND_URL := env_UNIFIED_MIND_URL w |}).

(** [const UNIFIED_MIND_URL = process.env.UNIFIED_MIND_URL ||
    'http://localhost:8787/mcp'], evaluated once, when the module loads. *)
Definition UNIFIED_MIND_URL (env_at_load : JsVal) : jsstring :=
  ToString (js_or env_at_load (VStr (lit "http://localhost:8787/mcp"))).

(** [chunkText(text)] with the defaults of the CLI. *)
Definition chunks_of (fuel : nat) (text : jsstring) : C (list jsstring) :=
  fun w =>
    match Cli.chunkText fuel text Cli.CHUNK_SIZE Cli.CHUNK_OVERLAP with
    | None => None
    | Some chunks => Some (Ok chunks, w)
    end.

(** [ingestChunk(content, entity, platform, type, metadata)]: one
    [tools/call] of [ingest] sent to [url] through [callMCP]. *)
Definition ingestChunk (host : CliHost) (url : jsstring)
    (content entity platform type : jsstring) (metadata : JsObj) : C unit :=
  fun w =>
    let request :=
      {| rq_url := url; rq_content := content; rq_entity := entity;
         rq_platform := platform; rq_type := type; rq_metadata := metadata |} in
    match callMCP_error host w request with
    | None =>
        Some (Ok tt, {| calls := calls w ++ [(request, true)]; stderr := stderr w;
                        env_UNIFIED_MIND_URL := env_UNIFIED_MIND_URL w |})
    | Some message =>
        Some (Err message,
              {| calls := calls w ++ [(request, false)]; stderr := stderr w;
                 env_UNIFIED_MIND_URL := env_UNIFIED_MIND_URL w |})
    end.

(** The body of the loops over chunks: [try { await ingestChunk(...);
    successCount++; } catch (e) { console.error(prefix + e.message); }],
    for the chunks from position [i] on. [metadata_of] builds the
    metadata of the chunk at a position, [prefix_of] the start of the
    error line. *)
Fixpoint ingest_each (host : CliHost) (url entity platform type : jsstring)
    (metadata_of : Z -> JsObj) (prefix_of : Z -> jsstring)
    (rest : list jsstring) (i : Z) (successCount : Z) : C Z :=
  match rest with
  | [] => cret successCount
  | chunk :: rest' =>
      successCount' <~
        try_catch
          (_ <~ ingestChunk host url chunk entity platform type (metadata_of i) ;;
           cret (successCount + 1))
          (fun message =>
             _ <~ console_error (prefix_of i ++ message) ;; cret successCount) ;;
      ingest_each host url entity platform type metadata_of prefix_of rest' (i + 1)
        successCount'
  end.

(** [processMarkdownFile(filePath, entity, platform, type)] *)
Definition processMarkdownFile (fuel : nat) (host : CliHost) (url : jsstring)
    (filePath entity platform type : jsstring) : C Z :=
  content <~ lift (readFile host filePath) ;;
  chunks <~ chunks_of fuel content ;;
  ingest_each host url entity platform type
    (fun i => obj_literal [ (lit "source_file", VStr filePath);
                            (lit "chunk_index", VNum i);
                            (lit "total_chunks", VNum (js_length_of chunks)) ])
    (fun i => lit "  Error on chunk " ++ ToString (VNum i) ++ lit ": ")
    chunks 0 0.

(** The result of [parseJSON], by its [type]: json-array, chat-export,
    conversations, json-unknown. *)
Inductive Parsed : Type :=
  | ParsedArray (entries : list Json)
  | ParsedChat (messages : Json)
  | ParsedConversations (conversations : Json)
  | ParsedUnknown (content : jsstring).

(** [data.k] as a value, [undefined] when missing. *)
Definition val_opt (j : option Json) : JsVal := from_option val_of VUndef j.

(** The classification of [parseJSON], on the parsed document. *)
Definition classify (host : CliHost) (data : Json) : result Parsed :=
  match data with
  | JArr entries => Ok (ParsedArray entries)
  | _ =>
      match read data (lit "messages") with
      | Err e => Err e
      | Ok messages =>
          if truthy (val_opt messages)
          then Ok (ParsedChat (default JNull messages))
          else
            match read data (lit "conversations") with
            | Err e => Err e
            | Ok conversations =>
                if truthy (val_opt conversations)
                then Ok (ParsedConversations (default JNull conversations))
                else Ok (ParsedUnknown (JSON_stringify_pretty host data))
            end
      end
  end.

(** [parseJSON(filePath)] *)
Definition parseJSON (host : CliHost) (filePath : jsstring) : result Parsed :=
  match readFile host filePath with
  | Err e => Err e
  | Ok content =>
      match JSON_parse host content with
      | Err e => Err e
      | Ok data => classify host data
      end
  end.

(** [`[${m.role || m.author || 'unknown'}]: ${m.content || m.text || ''}`] *)
Definition message_line (m : Json) : result jsstring :=
  match read m (lit "role") with
  | Err e => Err e
  | Ok _ =>
      Ok (lit "["
          ++ ToString (js_or (read_val m (lit "role"))
                         (js_or (read_val m (lit "author")) (VStr (lit "unknown"))))
          ++ lit "]: "
          ++ ToString (js_or (read_val m (lit "content"))
                         (js_or (read_val m (lit "text")) (VStr []))))
  end.

(** [lines.join('\n\n')] *)
Fixpoint join_blank (lines : list jsstring) : jsstring :=
  match lines with
  | [] => []
  | line :: rest =>
      line ++ match rest with [] => [] | _ :: _ => LF ++ LF ++ join_blank rest end
  end.

(** The loop over [parsed.messages] of a chat export. *)
Fixpoint each_message (fuel : nat) (host : CliHost) (url : jsstring)
    (filePath entity platform type : jsstring) (messages : list Json)
    (successCount : Z) : C Z :=
  match messages with
  | [] => cret successCount
  | msg :: rest =>
      content <~ lift (message_line msg) ;;
      chunks <~ chunks_of fuel content ;;
      successCount' <~
        ingest_each host url entity platform type
          (fun _ =>
             obj_literal
               [ (lit "source_file", VStr filePath);
                 (lit "message_id", read_val msg (lit "id"));
                 (lit "timestamp",
                  js_or (read_val msg (lit "timestamp"))
                        (read_val msg (lit "created_at"))) ])
          (fun _ => lit "  Error: ") chunks 0 successCount ;;
      each_message fuel host url filePath entity platform type rest successCount'
  end.

(** [(conv.messages || []).map(m => ...).join('\n\n')] *)
Definition conversation_text (conv : Json) : result jsstring :=
  match read conv (lit "messages") with
  | Err e => Err e
  | Ok messages =>
      if truthy (val_opt messages) then
        match messages with
        | Some (JArr items) =>
            match map_result message_line items with
            | Err e => Err e
            | Ok lines => Ok (join_blank lines)
            end
        | _ => Err (lit "(conv.messages || []).map is not a function")
        end
      else Ok []
  end.

(** The loop over [parsed.conversations]. *)
Fixpoint each_conversation (fuel : nat) (host : CliHost) (url : jsstring)
    (filePath entity platform type : jsstring) (conversations : list Json)
    (successCount : Z) : C Z :=
  match conversations with
  | [] => cret successCount
  | conv :: rest =>
      convText <~ lift (conversation_text conv) ;;
      chunks <~ chunks_of fuel convText ;;
      successCount' <~
        ingest_each host url entity platform type
          (fun _ =>
             obj_literal
               [ (lit "source_file", VStr filePath);
                 (lit "conversation_id", read_val conv (lit "id"));
                 (lit "conversation_title", read_val conv (lit "title")) ])
          (fun _ => lit "  Error: ") chunks 0 successCount ;;
      each_conversation fuel host url filePath entity platform type rest
        successCount'
  end.

(** [processJSONFile(filePath, entity, platform, type)]. The text of the
    last branch is [parsed.content || JSON.stringify(parsed)], where
    [parsed] carries the base name of the file. *)
Definition processJSONFile (fuel : nat) (host : CliHost) (url : jsstring)
    (filePath entity platform type : jsstring) : C Z :=
  parsed <~ lift (parseJSON host filePath) ;;
  let filename := path_basename host filePath in
  match parsed with
  | ParsedChat messages =>
      items <~ lift (iterate (lit "parsed.messages") messages) ;;
      each_message fuel host url filePath entity platform type items 0
  | ParsedConversations conversations =>
      items <~ lift (iterate (lit "parsed.conversations") conversations) ;;
      each_conversation fuel host url filePath entity platform type items 0
  | ParsedArray entries =>
      chunks <~ chunks_of fuel
        (JSON_stringify host
           (JObj [ (lit "type", JStr (lit "json-array"));
                   (lit "entries", JArr entries);
                   (lit "metadata", JObj [(lit "filename", JStr filename)]) ])) ;;
      ingest_each host url entity platform type
        (fun _ => obj_literal [ (lit "source_file", VStr filePath) ])
        (fun _ => lit "  Error: ") chunks 0 0
  | ParsedUnknown content =>
      chunks <~ chunks_of fuel
        (match content with
         | _ :: _ => content
         | [] =>
             JSON_stringify host
               (JObj [ (lit "type", JStr (lit "json-unknown"));
                       (lit "content", JStr content);
                       (lit "metadata", JObj [(lit "filename", JStr filename)]) ])
         end) ;;
      ingest_each host url entity platform type
        (fun _ => obj_literal [ (lit "source_file", VStr filePath) ])
        (fun _ => lit "  Error: ") chunks 0 0
  end.

(** [name.endsWith(ext)] *)
Definition endsWith (name ext : jsstring) : bool := bool_decide (ext `suffix_of` name).

(** The default of [extensions]. *)
Definition extensions : list jsstring := [lit ".md"; lit ".json"; lit ".txt"].

(** [files.filter(f => f.isFile() && extensions.some(ext =>
    f.name.endsWith(ext))).map(f => path.join(f.path || dirPath, f.name))] *)
Definition matchingFiles (host : CliHost) (dirPath : jsstring)
    (files : list Dirent) : list jsstring :=
  map (fun f => path_join host (ToString (js_or (de_path f) (VStr dirPath))) (de_name f))
      (List.filter (fun f => de_isFile f && existsb (endsWith (de_name f)) extensions)
                   files).

(** How a file is processed, by [path.extname(file).toLowerCase()]. *)
Inductive Kind : Type := Markdown | JsonFile | Unsupported.

Definition kind_of (ext : jsstring) : Kind :=
  if bool_decide (ext = lit ".md") || bool_decide (ext = lit ".txt") then Markdown
  else if bool_decide (ext = lit ".json") then JsonFile
  else Unsupported.

Definition extname_lower (host : CliHost) (filePath : jsstring) : jsstring :=
  String_toLowerCase host (path_extname host filePath).

(** The loop of [processDirectory] over the matching files. *)
Fixpoint each_file (fuel : nat) (host : CliHost) (url : jsstring)
    (entity platform type : jsstring) (files : list jsstring)
    (totalChunks : Z) : C Z :=
  match files with
  | [] => cret totalChunks
  | filePath :: rest =>
      match kind_of (extname_lower host filePath) with
      | Markdown =>
          n <~ processMarkdownFile fuel host url filePath entity platform type ;;
          each_file fuel host url entity platform type rest (totalChunks + n)
      | JsonFile =>
          n <~ processJSONFile fuel host url filePath entity platform type ;;
          each_file fuel host url entity platform type rest (totalChunks + n)
      | Unsupported =>
          each_file fuel host url entity platform type rest totalChunks
      end
  end.

(** [processDirectory(dirPath, entity, platform, type)] *)
Definition processDirectory (fuel : nat) (host : CliHost) (url : jsstring)
    (dirPath entity platform type : jsstring) : C Z :=
  files <~ lift (readdir host dirPath) ;;
  each_file fuel host url entity platform type (matchingFiles host dirPath files) 0.

(** [args.indexOf(flag)] *)
Fixpoint indexOf (args : list jsstring) (flag : jsstring) : Z :=
  match args with
  | [] => -1
  | a :: rest =>
      if bool_decide (a = flag) then 0
      else let i := indexOf rest flag in if i <? 0 then -1 else i + 1
  end.

(** [getArg(flag)]: [idx >= 0 && args[idx + 1] ? args[idx + 1] : null] *)
Definition getArg (args : list jsstring) (flag : jsstring) : JsVal :=
  let idx := indexOf args flag in
  if 0 <=? idx then
    match args !! Z.to_nat (idx + 1) with
    | Some v => if truthy (VStr v) then VStr v else VNull
    | None => VNull
    end
  else VNull.

(** [process.env.UNIFIED_MIND_URL = value] *)
Definition set_env_UNIFIED_MIND_URL (value : JsVal) : C unit :=
  fun w =>
    Some (Ok tt, {| calls := calls w; stderr := stderr w;
                    env_UNIFIED_MIND_URL := VStr (ToString value) |}).

(** How [main] ends: it returns, or the process exits with a code. *)
Inductive Outcome : Type :=
  | Returned
  | Exited (code : Z).

(** [main()], with [args] for [process.argv.slice(2)] and [url] for the
    constant [UNIFIED_MIND_URL] of the module. *)
Definition main (fuel : nat) (host : CliHost) (url : jsstring)
    (args : list jsstring) : C Outcome :=
  if bool_decide (lit "--help" ∈ args) || bool_decide (args = []) then cret Returned
  else
    let file := getArg args (lit "--file") in
    let dir := getArg args (lit "--dir") in
    let entity := getArg args (lit "--entity") in
    let type := ToString (js_or (getArg args (lit "--type")) (VStr (lit "conversation"))) in
    let platform := ToString (js_or (getArg args (lit "--platform")) (VStr (lit "file"))) in
    _ <~ (if truthy (getArg args (lit "--url"))
          then set_env_UNIFIED_MIND_URL (getArg args (lit "--url"))
          else cret tt) ;;
    if negb (truthy entity) then
      _ <~ console_error (lit "Error: --entity is required") ;; cret (Exited 1)
    else if truthy file then
      let ext := extname_lower host (ToString file) in
      match kind_of ext with
      | Markdown =>
          _ <~ processMarkdownFile fuel host url (ToString file) (ToString entity)
                 platform type ;;
          cret Returned
      | JsonFile =>
          _ <~ processJSONFile fuel host url (ToString file) (ToString entity)
                 platform type ;;
          cret Returned
      | Unsupported =>
          _ <~ console_error (lit "Unsupported file type: " ++ ext) ;; cret Returned
      end
    else if truthy dir then
      _ <~ processDirectory fuel host url (ToString dir) (ToString entity)
             platform type ;;
      cret Returned
    else
      _ <~ console_error (lit "Error: --file or --dir is required") ;; cret (Exited 1).

(** The program: the module is loaded, which fixes [UNIFIED_MIND_URL]
    from the environment, then [main] runs. What [main] throws is the
    result here; printing it, as [main().catch(console.error)] does, is
    left out. *)
Definition program (fuel : nat) (host : CliHost) (args : list jsstring) : C Outcome :=
  fun w => main fuel host (UNIFIED_MIND_URL (env_UNIFIED_MIND_URL w)) args w.

(** A host for examples: two files, a directory listing both and a
    sub-directory, and a worker that refuses every second request. *)
Definition sample_cli_host : CliHost :=
  {| readFile := fun p =>
       if bool_decide (p = lit "notes/a.md") then Ok (lit "First note.")
       else if bool_decide (p = lit "notes/chat.json") then Ok (lit "{chat}")
       else Err (lit "ENOENT: no such file or directory, open '" ++ p ++ lit "'");
     readdir := fun d =>
       if bool_decide (d = lit "notes")
       then Ok [ {| de_name := lit "a.md"; de_path := VStr (lit "notes"); de_isFile := true |};
                 {| de_name := lit "sub"; de_path := VStr (lit "notes"); de_isFile := false |};
                 {| de_name := lit "chat.json"; de_path := VUndef; de_isFile := true |} ]
       else Err (lit "ENOENT: no such file or directory, scandir '" ++ d ++ lit "'");
     path_basename := fun p => drop (S (Z.to_nat (lastIndexOf p (lit "/")))) p;
     path_extname := fun p =>
       let i := lastIndexOf p (lit ".") in
       if 0 <? i then drop (Z.to_nat i) p else [];
     path_join := fun a b => a ++ lit "/" ++ b;
     String_toLowerCase := ascii_lower;
     JSON_parse := fun text =>
       if bool_decide (text = lit "{chat}")
       then Ok (JObj [ (lit "title", JStr (lit "t"));
                       (lit "messages",
                        JArr [ JObj [ (lit "role", JStr (lit "user"));
                                      (lit "content", JStr (lit "hello"));
                                      (lit "id", JNum 7) ];
                               JObj [ (lit "author", JStr (lit "bot"));
                                      (lit "text", JStr (lit "hi"));
                                      (lit "created_at", JStr (lit "2024")) ] ]) ])
       else Err (lit "Unexpected token in JSON");
     JSON_stringify := fun j => ToString_json j;
     JSON_stringify_pretty := fun j => ToString_json j;
     callMCP_error := fun w _ =>
       if Nat.even (length (calls w)) then None else Some (lit "Ingest failed") |}.

(** The requests of a log that succeeded, counted. *)
Definition succeeded (log : list (IngestRequest * bool)) : Z :=
  Z.of_nat (length (List.filter snd log)).

(** The process [w] after more requests and more error lines. *)
Definition after (w : CliWorld) (new : list (IngestRequest * bool))
    (errs : list jsstring) : CliWorld :=
  {| calls := calls w ++ new; stderr := stderr w ++ errs;
     env_UNIFIED_MIND_URL := env_UNIFIED_MIND_URL w |}.

(** What every request of a run for [filePath] carries. *)
Definition request_of (url entity platform type filePath : jsstring)
    (request : IngestRequest) : Prop :=
  rq_url request = url /\ rq_entity request = entity /\
  rq_platform request = platform /\ rq_type request = type /\
  rq_metadata request !! lit "source_file" = Some (VStr filePath).

Definition fresh_process : CliWorld :=
  {| calls := []; stderr := []; env_UNIFIED_MIND_URL := VUndef |}.

End IngestCli.
(* ===================================================================== *)
(** ** Facts about strings *)
(* ===================================================================== *)

Lemma js_length_nonneg (s : jsstring) : 0 <= js_length s.
Proof. unfold js_length. lia. Qed.

Lemma js_length_app (s t : jsstring) : js_length (s ++ t) = js_length s + js_length t.
Proof. unfold js_length. rewrite length_app. lia. Qed.

Lemma js_length_nil_iff (s : jsstring) : js_length s = 0 <-> s = [].
Proof.
  unfold js_length. destruct s as [|c s]; simpl; split; intros H; try done; lia.
Qed.

(** A slice is never longer than the distance between its two indices. *)
Lemma slice_length_le (s : jsstring) (a b : Z) :
  a <= b -> js_length (slice s a b) <= b - a.
Proof.
  intros Hab. unfold slice, js_length, rel_index.
  rewrite length_firstn, length_skipn.
  destruct (a <? 0) eqn:Ha, (b <? 0) eqn:Hb; lia.
Qed.

(** With indices inside the string, a slice has the expected length. *)
Lemma slice_length_inside (s : jsstring) (a b : Z) :
  0 <= a -> a <= b ->
  js_length (slice s a b) = Z.min b (js_length s) - Z.min a (js_length s).
Proof.
  intros Ha Hab. unfold slice, js_length, rel_index.
  rewrite length_firstn, length_skipn.
  destruct (a <? 0) eqn:Ea, (b <? 0) eqn:Eb; lia.
Qed.

(** Every code unit of a slice is one of the string. *)
Lemma slice_incl (s : jsstring) (a b : Z) (c : N) :
  c ∈ slice s a b -> c ∈ s.
Proof.
  unfold slice. intros H.
  eapply subseteq_drop, subseteq_take, H.
Qed.


Lemma lastIndexOf_from_bounds (pat s : jsstring) (i best : Z) :
  pat <> [] ->
  best < i ->
  lastIndexOf_from pat s i best = best \/
  i <= lastIndexOf_from pat s i best < i + js_length s.
Proof.
  intros Hpat. revert i best.
  induction s as [|c s IH]; intros i best Hlt; simpl.
  - destruct pat; [done | by left].
  - unfold js_length in *. simpl length.
    destruct (starts_with pat (c :: s)).
    + destruct (IH (i + 1) i) as [H | H]; [lia | right; lia | right; lia].
    + destruct (IH (i + 1) best) as [H | H]; [lia | by left | right; lia].
Qed.

(** [lastIndexOf] answers -1 or an index of the string. *)
Lemma lastIndexOf_bounds (s pat : jsstring) :
  pat <> [] -> -1 <= lastIndexOf s pat < Z.max (js_length s) 0.
Proof.
  intros Hpat. unfold lastIndexOf.
  destruct (lastIndexOf_from_bounds pat s 0 (-1) Hpat) as [H | H]; [lia | |].
  - rewrite H. pose proof (js_length_nonneg s). lia.
  - lia.
Qed.

Lemma lastBreakOf_bounds (w : jsstring) :
  -1 <= lastBreakOf w < Z.max (js_length w) 0.
Proof.
  unfold lastBreakOf.
  pose proof (lastIndexOf_bounds w (LF ++ LF) ltac:(done)).
  pose proof (lastIndexOf_bounds w (lit ". ") ltac:(done)).
  pose proof (lastIndexOf_bounds w (lit "? ") ltac:(done)).
  pose proof (lastIndexOf_bounds w (lit "! ") ltac:(done)).
  lia.
Qed.





(** A text without white space has content in every non-empty slice. *)
Lemma slice_has_content (text : jsstring) (a b : Z) :
  forallb (fun c => negb (is_white_space c)) text = true ->
  slice text a b <> [] -> has_content (slice text a b) = true.
Proof.
  intros Hall Hne. destruct (slice text a b) as [|c r] eqn:E; [done|].
  simpl. rewrite forallb_forall in Hall.
  rewrite (Hall c); [done|].
  apply list_elem_of_In, (slice_incl text a b). rewrite E. left.
Qed.

(* ===================================================================== *)
(** ** The chunker *)
(* ===================================================================== *)

(** A window never ends beyond [start + maxChars]. *)
Lemma window_end_le (text : jsstring) (maxChars start : Z) :
  0 <= maxChars -> window_end text maxChars start <= start + maxChars.
Proof.
  intros Hmax. unfold window_end.
  destruct (start + maxChars <? js_length text); [|lia].
  pose proof (lastBreakOf_bounds (slice text start (start + maxChars))) as Hb.
  pose proof (slice_length_le text start (start + maxChars) ltac:(lia)) as Hl.
  destruct (maxChars <? 2 * _); lia.
Qed.

(** A window that was cut at a break ends more than half a width after
    its start; an uncut one ends a full width after it. *)
Lemma window_end_ge (text : jsstring) (maxChars start : Z) :
  window_end text maxChars start = start + maxChars \/
  maxChars < 2 * (window_end text maxChars start - start - 1).
Proof.
  unfold window_end.
  destruct (start + maxChars <? js_length text); [|by left].
  destruct (maxChars <? 2 * _) eqn:E; [right; lia | by left].
Qed.

Lemma window_end_gt (text : jsstring) (maxChars start : Z) :
  0 < maxChars -> start < window_end text maxChars start.
Proof.
  intros Hmax. destruct (window_end_ge text maxChars start) as [-> | H]; lia.
Qed.

Lemma window_nonempty (text : jsstring) (maxChars start : Z) :
  0 < maxChars -> 0 <= start < js_length text ->
  slice text start (window_end text maxChars start) <> [].
Proof.
  intros Hmax Hs Hnil.
  pose proof (window_end_gt text maxChars start Hmax).
  pose proof (slice_length_inside text start (window_end text maxChars start)
                ltac:(lia) ltac:(lia)) as Hl.
  rewrite Hnil in Hl. unfold js_length at 1 in Hl. simpl in Hl. lia.
Qed.

(** With [overlapChars >= maxChars] the window start never moves forward:
    the loop is still running after any number of iterations. *)
Lemma chunk_loop_stuck (text : jsstring) (maxChars overlapChars : Z) :
  0 <= maxChars -> maxChars <= overlapChars -> 0 < js_length text ->
  forall fuel start chunks,
    start <= 0 ->
    chunk_loop fuel text maxChars overlapChars start chunks = None.
Proof.
  intros Hmax Hov Hlen. induction fuel as [|fuel IH]; intros start chunks Hs.
  - reflexivity.
  - simpl. destruct (start <? js_length text) eqn:E; [|lia].
    apply IH. pose proof (window_end_le text maxChars start Hmax). lia.
Qed.

Lemma chunkChars_stuck (text : jsstring) (maxChars overlapChars : Z) :
  0 <= maxChars -> maxChars <= overlapChars -> maxChars < js_length text ->
  forall fuel, chunkChars fuel text maxChars overlapChars = None.
Proof.
  intros Hmax Hov Hlen fuel. unfold chunkChars.
  destruct (js_length text <=? maxChars) eqn:E; [lia|].
  apply chunk_loop_stuck; lia.
Qed.

(** C2. Neither copy of [chunkText] enforces a minimum advance. With
    [maxTokens = 1] and [overlap = 1] (a window of 4 characters and an
    overlap of 4) the worker's chunker is still looping on a text of five
    characters after any number of iterations, and so is the CLI's with
    [maxChars = 4] and [overlap = 4]. *)
Theorem chunkText_overlap_not_guarded (fuel : nat) :
  chunkText fuel (lit "aaaaa") 1 1 = None /\
  Cli.chunkText fuel (lit "aaaaa") 4 4 = None.
Proof.
  split.
  - unfold chunkText. by apply chunkChars_stuck.
  - unfold Cli.chunkText. by apply chunkChars_stuck.
Qed.

(** More fuel does not change a result. *)
Lemma chunk_loop_fuel_mono (text : jsstring) (maxChars overlapChars : Z) :
  forall fuel fuel' start chunks cs,
    (fuel <= fuel')%nat ->
    chunk_loop fuel text maxChars overlapChars start chunks = Some cs ->
    chunk_loop fuel' text maxChars overlapChars start chunks = Some cs.
Proof.
  induction fuel as [|fuel IH]; intros fuel' start chunks cs Hle H; [done|].
  destruct fuel' as [|fuel']; [lia|].
  simpl in *. destruct (start <? js_length text); [|done].
  apply IH; [lia | done].
Qed.

(** The result of the chunker does not depend on the fuel it was given. *)
Lemma chunkChars_deterministic (text : jsstring) (maxChars overlapChars : Z)
    (f1 f2 : nat) (cs1 cs2 : list jsstring) :
  chunkChars f1 text maxChars overlapChars = Some cs1 ->
  chunkChars f2 text maxChars overlapChars = Some cs2 ->
  cs1 = cs2.
Proof.
  unfold chunkChars. destruct (js_length text <=? maxChars); [congruence|].
  intros H1 H2.
  apply (chunk_loop_fuel_mono _ _ _ _ (Nat.max f1 f2)) in H1; [|lia].
  apply (chunk_loop_fuel_mono _ _ _ _ (Nat.max f1 f2)) in H2; [|lia].
  congruence.
Qed.

(** When the overlap is at most half the width, every iteration moves the
    window start forward by at least one character. *)
Lemma window_advances (text : jsstring) (maxChars overlapChars start : Z) :
  0 < maxChars -> 2 * overlapChars <= maxChars ->
  start + 1 <= window_end text maxChars start - overlapChars.
Proof.
  intros Hmax Hov.
  destruct (window_end_ge text maxChars start) as [-> | H]; lia.
Qed.

(** An invariant [P] of the emitted chunks, for a loop whose windows all
    start inside the text. *)
Lemma chunk_loop_total (text : jsstring) (maxChars overlapChars : Z)
    (P : jsstring -> Prop) :
  0 < maxChars -> 2 * overlapChars <= maxChars ->
  (forall start, 0 <= start < js_length text ->
     P (trim (slice text start (window_end text maxChars start)))) ->
  forall n start chunks,
    0 <= start -> js_length text - start <= Z.of_nat n -> Forall P chunks ->
    exists cs, chunk_loop (S n) text maxChars overlapChars start chunks = Some cs
               /\ Forall P cs.
Proof.
  intros Hmax Hov HP. induction n as [|n IH]; intros start chunks Hs Hn Hc.
  - simpl. destruct (start <? js_length text) eqn:E; [lia|]. eauto.
  - change (chunk_loop (S (S n)) text maxChars overlapChars start chunks)
      with (if start <? js_length text
            then chunk_loop (S n) text maxChars overlapChars
                   (window_end text maxChars start - overlapChars)
                   (chunks ++ [trim (slice text start (window_end text maxChars start))])
            else Some chunks).
    destruct (start <? js_length text) eqn:E; [|eauto].
    pose proof (window_advances text maxChars overlapChars start Hmax Hov).
    apply IH; [lia | lia |].
    apply Forall_app; split; [done|].
    constructor; [|constructor]. apply HP. lia.
Qed.









(** A text that fits the window is returned as it is, whatever the fuel. *)
Lemma chunkChars_short (fuel : nat) (text : jsstring) (maxChars overlapChars : Z) :
  js_length text <= maxChars ->
  chunkChars fuel text maxChars overlapChars = Some [text].
Proof.
  intros H. unfold chunkChars.
  destruct (js_length text <=? maxChars) eqn:E; [done | lia].
Qed.

(** C7 (as amended). A text no longer than the window comes back as the
    only chunk, unchanged: it is not trimmed. *)
Theorem chunkText_short_text_unchanged (fuel : nat) (text : jsstring)
    (maxChars overlapChars : Z) :
  js_length text <= maxChars ->
  Cli.chunkText fuel text maxChars overlapChars = Some [text] /\
  forall maxTokens overlap,
    maxChars = maxTokens * 4 ->
    chunkText fuel text maxTokens overlap = Some [text].
Proof.
  intros Hlen. split.
  - by apply chunkChars_short.
  - intros maxTokens overlap ->. by apply chunkChars_short.
Qed.

Lemma chunkText_short_text_unchanged_witness :
  Cli.chunkText 0 (lit " a ") 1600 200 = Some [lit " a "] /\
  forall maxTokens overlap,
    1600 = maxTokens * 4 ->
    chunkText 0 (lit " a ") maxTokens overlap = Some [lit " a "].
Proof.
  apply (chunkText_short_text_unchanged 0 (lit " a ") 1600 200).
  vm_compute. discriminate.
Defined.

(** C7, as stated, fails: the single chunk of a short text keeps its
    leading and trailing white space. *)
Lemma chunkText_short_text_not_trimmed :
  chunkText 0 (lit " a ") 400 50 = Some [lit " a "] /\
  Cli.chunkText 0 (lit " a ") Cli.CHUNK_SIZE Cli.CHUNK_OVERLAP = Some [lit " a "] /\
  trim (lit " a ") = lit "a" /\
  lit " a " <> lit "a".
Proof. repeat split; try reflexivity. discriminate. Qed.

(* ===================================================================== *)
(** ** The attribution formatter *)
(* ===================================================================== *)

Lemma js_or_ToString (v : JsVal) (fallback : jsstring) :
  ToString (js_or v (VStr fallback)) = field_or v fallback.
Proof. unfold js_or, field_or. by destruct (truthy v). Qed.

(** C5 (as amended). The block has the four bracketed fields in the fixed
    order type, entity, platform, timestamp, then the content line and the
    rule. A missing type renders as MEMORY (the fallback memory,
    upper-cased), a missing entity or platform as unknown, a missing
    timestamp as unknown date (not unknown); the content is the memory's
    text, else its text preview, else (content unavailable). Missing means
    absent or falsy. A type that is present and not a string makes the
    formatter throw. *)
Theorem formatAttribution_block (host : Host) (memory : Memory) :
  let md := memory_metadata memory in
  let type := get_prop_opt md (lit "memory_type") in
  formatAttribution host memory =
    if truthy type && negb (is_string type)
    then Err (lit "type.toUpperCase is not a function")
    else
      Ok (attribution_block
            (toUpperCase host (field_or type (lit "memory")))
            (field_or (get_prop_opt md (lit "entity_name")) (lit "unknown"))
            (field_or (get_prop_opt md (lit "source_platform")) (lit "unknown"))
            (field_or (get_prop_opt md (lit "timestamp")) (lit "unknown date"))
            (if truthy (memory_text memory) then ToString (memory_text memory)
             else field_or (get_prop_opt md (lit "text_preview"))
                    (lit "(content unavailable)"))).
Proof.
  intros md type. unfold formatAttribution. fold md. fold type.
  assert (call_toUpperCase host (js_or type (VStr (lit "memory")))
          = if truthy type && negb (is_string type)
            then Err (lit "type.toUpperCase is not a function")
            else Ok (toUpperCase host (field_or type (lit "memory")))) as ->.
  { unfold js_or, field_or. destruct type as [| |[]|n|s|r]; simpl; try done.
    - by destruct (n =? 0).
    - by destruct s. }
  destruct (truthy type && negb (is_string type)); [done|].
  unfold attribution_block. rewrite !js_or_ToString.
  do 3 f_equal. repeat (f_equal; []). f_equal.
  unfold js_or at 1. destruct (truthy (memory_text memory)); [done|].
  by rewrite js_or_ToString.
Qed.

(** C5, as stated, fails: a memory without a timestamp renders with
    [unknown date], not with [unknown]. *)
Lemma formatAttribution_unknown_date :
  formatAttribution sample_host undated_memory
    = Ok (lit "[NOTE from e1 | Source: p | unknown date]" ++ LF
          ++ lit "hi" ++ LF ++ lit "---") /\
  formatAttribution sample_host undated_memory
    <> Ok (lit "[NOTE from e1 | Source: p | unknown]" ++ LF
           ++ lit "hi" ++ LF ++ lit "---").
Proof. split; [reflexivity | vm_compute; discriminate]. Qed.

(* ===================================================================== *)
(** ** The retriever *)
(* ===================================================================== *)

Lemma search_filter_lookup (entity memory_type source_platform : JsVal) :
  let f := search_filter entity memory_type source_platform in
  f !! lit "entity_name"
    = (if truthy entity && strict_neq entity (VStr (lit "all"))
       then Some entity else None) /\
  f !! lit "memory_type" = (if truthy memory_type then Some memory_type else None) /\
  f !! lit "source_platform"
    = (if truthy source_platform then Some source_platform else None) /\
  (forall k : jsstring,
     k <> lit "entity_name" -> k <> lit "memory_type" ->
     k <> lit "source_platform" -> f !! k = None).
Proof.
  unfold search_filter.
  destruct (truthy entity && strict_neq entity (VStr (lit "all"))),
           (truthy memory_type), (truthy source_platform);
    repeat split; intros;
    by rewrite ?lookup_insert_eq, ?lookup_insert_ne, ?lookup_insert_eq,
               ?lookup_insert_ne, ?lookup_insert_eq, ?lookup_empty by done.
Qed.

Lemma search_filter_size (entity memory_type source_platform : JsVal) :
  (0 <? Z.of_nat (size (search_filter entity memory_type source_platform)))
  = (truthy entity && strict_neq entity (VStr (lit "all")))
    || truthy memory_type || truthy source_platform.
Proof.
  unfold search_filter.
  destruct (truthy entity && strict_neq entity (VStr (lit "all"))),
           (truthy memory_type), (truthy source_platform); simpl;
    rewrite ?map_size_insert, ?lookup_insert_ne, ?lookup_insert_ne, ?lookup_empty,
            ?map_size_empty by done; simpl;
    rewrite ?lookup_insert_ne, ?lookup_empty by done; done.
Qed.

(** C3 (as amended). The filter holds [entity_name] exactly when [entity]
    is supplied (truthy) and is not ["all"], [memory_type] exactly when
    [memory_type] is supplied, and [source_platform] exactly when
    [source_platform] is supplied: ["all"] is set apart for the entity
    only. It holds no other field. The one query the call makes, once
    the query text is embedded, carries that filter when it has a field
    and no filter at all otherwise. *)
Theorem toolSearch_filter (host : Host) (env : Env) (args : SearchArgs) (w : World) :
  let entity := sa_entity args in
  let memory_type := sa_memory_type args in
  let source_platform := sa_source_platform args in
  let f := search_filter entity memory_type source_platform in
  let qe := truthy entity && strict_neq entity (VStr (lit "all")) in
  f !! lit "entity_name" = (if qe then Some entity else None) /\
  f !! lit "memory_type" = (if truthy memory_type then Some memory_type else None) /\
  f !! lit "source_platform"
    = (if truthy source_platform then Some source_platform else None) /\
  (forall k : jsstring,
     k <> lit "entity_name" -> k <> lit "memory_type" ->
     k <> lit "source_platform" -> f !! k = None) /\
  queries (snd (toolSearch host env args w)) =
    match AI_run env w (sa_query args) with
    | Ok embedding =>
        queries w ++
        [(embedding,
          {| topK := Z.min (default 10 (sa_limit args)) 20;
             returnValues := false;
             returnMetadata := lit "all";
             qo_filter :=
               if qe || truthy memory_type || truthy source_platform
               then Some f else None |})]
    | Err _ => queries w
    end.
Proof.
  intros entity memory_type source_platform f qe.
  destruct (search_filter_lookup entity memory_type source_platform)
    as (He & Hm & Hp & Hk).
  split; [done|]. split; [done|]. split; [done|]. split; [done|].
  unfold toolSearch. unfold bind at 1. unfold generateEmbedding at 1.
  destruct (AI_run env w (sa_query args)) as [embedding | e]; [|reflexivity].
  unfold bind at 1. unfold env_VECTORIZE_query at 1.
  unfold search_queryOptions. rewrite search_filter_size.
  destruct (VECTORIZE_query env w embedding _) as [matches | e]; [|reflexivity].
  unfold bind, lift_result, ret.
  destruct (map_result _ _); reflexivity.
Qed.

(** C3, as stated, fails: ["all"] passed as the memory type is not left
    out, the query is restricted to the memory type ["all"]. *)
Lemma toolSearch_all_memory_type :
  map (fun q => qo_filter (snd q))
      (queries (snd (toolSearch sample_host (answering_env []) search_all_types
                       empty_world)))
  = [Some {[ lit "memory_type" := VStr (lit "all") ]}].
Proof. vm_compute. reflexivity. Qed.

(* ===================================================================== *)
(** ** The grounding assembler *)
(* ===================================================================== *)

Lemma estimateTokens_nonneg (s : jsstring) : 0 <= estimateTokens s.
Proof.
  unfold estimateTokens, ceil_div4. pose proof (js_length_nonneg s).
  apply Z.div_pos; lia.
Qed.

Lemma ceil_div4_add (a b : Z) : ceil_div4 (a + b) <= ceil_div4 a + ceil_div4 b.
Proof. unfold ceil_div4. Z.to_euclidean_division_equations. lia. Qed.

Lemma sum_tokens_nonneg (ms : list SearchMemory) : 0 <= sum_tokens ms.
Proof.
  induction ms as [|m ms IH]; simpl; [lia|].
  pose proof (estimateTokens_nonneg (sm_formatted m)). lia.
Qed.

(** The newline after each block is not counted by the loop: the estimate
    of the assembled text can exceed the running total, by at most a
    quarter of the number of blocks, rounded up. *)
Lemma blocks_text_estimate (ms : list SearchMemory) :
  forall a b,
    ceil_div4 (a + b + js_length (blocks_text ms))
    <= ceil_div4 a + sum_tokens ms + ceil_div4 (b + Z.of_nat (length ms)).
Proof.
  induction ms as [|m ms IH]; intros a b.
  - simpl. unfold js_length. simpl. rewrite !Z.add_0_r. apply ceil_div4_add.
  - unfold blocks_text in *. simpl concat. simpl sum_tokens.
    rewrite !js_length_app.
    replace (a + b + (js_length (sm_formatted m) + js_length LF
                      + js_length (concat (map (fun m0 => sm_formatted m0 ++ LF) ms))))
      with ((a + js_length (sm_formatted m)) + (b + 1)
            + js_length (concat (map (fun m0 => sm_formatted m0 ++ LF) ms)))
      by (unfold LF, js_length; simpl; lia).
    etransitivity; [apply IH|].
    pose proof (ceil_div4_add a (js_length (sm_formatted m))).
    unfold estimateTokens.
    replace (b + 1 + Z.of_nat (length ms)) with (b + Z.of_nat (length (m :: ms)))
      by (simpl length; lia).
    lia.
Qed.

(** The packing loop takes a prefix of the memories: the longest one
    whose running total stays within the budget. *)
Lemma pack_loop_prefix (max_tokens : Z) :
  forall memories st,
    exists k,
      (k <= length memories)%nat /\
      context (pack_loop memories max_tokens st)
        = context st ++ blocks_text (take k memories) /\
      currentTokens (pack_loop memories max_tokens st)
        = currentTokens st + sum_tokens (take k memories) /\
      includedMemories (pack_loop memories max_tokens st)
        = includedMemories st ++ map sm_id (take k memories) /\
      ((0 < k)%nat -> currentTokens (pack_loop memories max_tokens st) <= max_tokens) /\
      match memories !! k with
      | Some m =>
          max_tokens < currentTokens (pack_loop memories max_tokens st)
                       + estimateTokens (sm_formatted m)
      | None => True
      end.
Proof.
  induction memories as [|m memories IH]; intros st.
  - exists 0%nat. simpl. rewrite !app_nil_r. repeat split; try done; lia.
  - simpl pack_loop.
    destruct (currentTokens st + estimateTokens (sm_formatted m) <=? max_tokens) eqn:E.
    + destruct (IH {| context := context st ++ sm_formatted m ++ LF;
                      currentTokens := currentTokens st + estimateTokens (sm_formatted m);
                      includedMemories := includedMemories st ++ [sm_id m] |})
        as (k & Hk & Hc & Ht & Hi & Hle & Hstop).
      exists (S k). simpl in *. split; [lia|]. split; [|split; [|split; [|split]]].
      * rewrite Hc. unfold blocks_text. simpl. by rewrite <- !app_assoc.
      * rewrite Ht. lia.
      * rewrite Hi. by rewrite <- app_assoc.
      * intros _. rewrite Ht.
        destruct k as [|k]; [simpl; lia|].
        rewrite <- Ht. apply Hle. lia.
      * done.
    + exists 0%nat. simpl. rewrite !app_nil_r. split; [lia|].
      repeat split; try done; lia.
Qed.

(** C4 (as amended). The context is the header followed by the formatted
    blocks of a prefix of the search results, in the order received, each
    followed by a newline; packing stops at the first block whose
    estimate would take the running total over [max_tokens]. The total
    [token_estimate] returned is the estimate of the header plus the
    estimates of the included blocks, and it is within [max_tokens]
    whenever the header alone is, or a block was included. The header is
    always emitted, and the newline after a block is not counted, so the
    estimate of the returned text itself is only bounded by
    [token_estimate] plus a quarter of the number of included blocks,
    rounded up. *)
Theorem grounding_context_budget (host : Host) (env : Env) (args : GroundingArgs)
    (w w' : World) (r : GroundingResult) :
  toolGetGroundingContext host env args w = (Ok r, w') ->
  let entity := match ga_entity args with VUndef => VStr (lit "all") | v => v end in
  let max_tokens := default 2000 (ga_max_tokens args) in
  let header := grounding_header (ga_topic args) entity in
  exists sr k,
    toolSearch host env (grounding_search_args host args) w = (Ok sr, w') /\
    (k <= length (sr_memories sr))%nat /\
    gr_context r = header ++ blocks_text (take k (sr_memories sr)) /\
    gr_token_estimate r
      = estimateTokens header + sum_tokens (take k (sr_memories sr)) /\
    gr_memories_included r = Z.of_nat k /\
    gr_total_available r = sr_count sr /\
    (estimateTokens header <= max_tokens \/ (0 < k)%nat ->
     gr_token_estimate r <= max_tokens) /\
    match sr_memories sr !! k with
    | Some m => max_tokens < gr_token_estimate r + estimateTokens (sm_formatted m)
    | None => True
    end /\
    estimateTokens (gr_context r) <= gr_token_estimate r + ceil_div4 (Z.of_nat k).
Proof.
  intros Hrun entity max_tokens header.
  unfold toolGetGroundingContext in Hrun. unfold bind at 1, lift_result in Hrun.
  destruct args as [topic0 entity0 max_tokens0].
  cbn [ga_topic ga_entity ga_max_tokens] in *.
  destruct topic0 as [| | | |topic|]; cbn [call_toLowerCase] in Hrun;
    try discriminate Hrun.
  unfold bind at 1 in Hrun.
  set (args := {| ga_topic := VStr topic; ga_entity := entity0;
                  ga_max_tokens := max_tokens0 |}).
  change (toolSearch host env _ w)
    with (toolSearch host env (grounding_search_args host args) w) in Hrun.
  destruct (toolSearch host env (grounding_search_args host args) w)
    as [[sr | e] w1] eqn:Hsearch; [|done].
  unfold ret in Hrun. injection Hrun as <- <-.
  cbn [gr_context gr_token_estimate gr_memories_included gr_total_available].
  set (st0 := {| context := header; currentTokens := estimateTokens header;
                 includedMemories := [] |}).
  change (pack_loop _ _ _) with (pack_loop (sr_memories sr) max_tokens st0).
  destruct (pack_loop_prefix max_tokens (sr_memories sr) st0)
    as (k & Hk & Hc & Ht & Hi & Hle & Hstop).
  cbn [context currentTokens includedMemories st0 app] in Hc, Ht, Hi.
  exists sr, k.
  split; [done|]. split; [done|]. split; [done|]. split; [done|].
  split; [|split; [done|split; [|split; [done|]]]].
  - rewrite Hi. unfold js_length_of. rewrite length_map, length_take. lia.
  - intros [Hh | Hpos]; [|by apply Hle].
    destruct k as [|k]; [|apply Hle; lia].
    rewrite Ht. simpl. lia.
  - rewrite Hc, Ht. unfold estimateTokens at 1. rewrite js_length_app.
    pose proof (blocks_text_estimate (take k (sr_memories sr)) (js_length header) 0)
      as Hb.
    rewrite Z.add_0_r, Z.add_0_l in Hb. rewrite length_take in Hb.
    replace (Z.of_nat (k `min` length (sr_memories sr))) with (Z.of_nat k) in Hb
      by lia.
    exact Hb.
Qed.

(** A budget of 26 tokens and one match: the header takes 14, the block
    12, and the total reported is within the budget. *)
Lemma grounding_context_budget_witness :
  exists r w',
    toolGetGroundingContext sample_host (answering_env [sample_match (lit "hi")])
      (sample_grounding_args (lit "cat") 26) empty_world = (Ok r, w') /\
    gr_memories_included r = 1 /\
    gr_token_estimate r <= 26.
Proof.
  destruct (toolGetGroundingContext sample_host
              (answering_env [sample_match (lit "hi")])
              (sample_grounding_args (lit "cat") 26) empty_world)
    as [[r | e] w'] eqn:Hrun; [|vm_compute in Hrun; discriminate].
  destruct (grounding_context_budget sample_host
              (answering_env [sample_match (lit "hi")])
              (sample_grounding_args (lit "cat") 26) empty_world w' r Hrun)
    as (sr & k & _ & _ & _ & _ & _ & _ & Hle & _).
  exists r, w'. split; [reflexivity|]. split.
  - vm_compute in Hrun. injection Hrun as <- _. reflexivity.
  - apply Hle. left. vm_compute. discriminate.
Defined.

(** C4, as stated, fails twice over. With a budget of 5 tokens and no
    match the context is the header alone, estimated at 14 tokens. With a
    budget of 26 tokens and one match the loop counts 14 + 12 = 26 tokens
    and includes the block, but the text it returns has 105 characters,
    estimated at 27 tokens. *)
Lemma grounding_context_over_budget :
  let estimates (run : result GroundingResult * World) :=
    match fst run with
    | Ok r => Some (js_length (gr_context r), estimateTokens (gr_context r),
                    gr_token_estimate r, gr_memories_included r)
    | Err _ => None
    end in
  estimates (toolGetGroundingContext sample_host (answering_env [])
               (sample_grounding_args (lit "cat") 5) empty_world)
    = Some (56, 14, 14, 0) /\
  estimates (toolGetGroundingContext sample_host
               (answering_env [sample_match (lit "hi")])
               (sample_grounding_args (lit "cat") 26) empty_world)
    = Some (105, 27, 26, 1).
Proof. split; vm_compute; reflexivity. Qed.

(* ===================================================================== *)
(** ** The memory writer *)
(* ===================================================================== *)

(** The caller's properties win the spread. *)
Lemma spread_lookup_caller (o md : JsObj) (k : jsstring) (v : JsVal) :
  md !! k = Some v -> spread o md !! k = Some v.
Proof. intros H. unfold spread. by apply lookup_union_Some_l. Qed.

(** A property the caller did not give keeps the literal's value. *)
Lemma spread_lookup_system (o md : JsObj) (k : jsstring) :
  md !! k = None -> spread o md !! k = o !! k.
Proof. intros H. unfold spread. by apply lookup_union_r. Qed.

Lemma system_keys_not_r2_key (k : jsstring) :
  k ∈ system_keys -> k <> lit "r2_key".
Proof.
  intros Hk ->. apply list_elem_of_In in Hk. simpl in Hk.
  intuition discriminate.
Qed.

Section WriterMetadata.

Variables (host : Host) (args : IngestArgs) (metadata : JsObj)
          (timestamp : jsstring) (total i : Z) (chunk : jsstring).

Lemma ingest_unit_metadata_caller (k : jsstring) (v : JsVal) :
  metadata !! k = Some v -> k <> lit "r2_key" ->
  ingest_unit_metadata host args metadata timestamp total i chunk !! k = Some v.
Proof.
  intros Hk Hne. unfold ingest_unit_metadata, ingest_vectorMetadata.
  destruct (500 <? js_length chunk).
  - rewrite lookup_insert_ne by done. by apply spread_lookup_caller.
  - by apply spread_lookup_caller.
Qed.

(** The blob key is assigned after the merge. *)
Lemma ingest_unit_metadata_r2_key :
  ingest_unit_metadata host args metadata timestamp total i chunk !! lit "r2_key"
  = if 500 <? js_length chunk
    then Some (VStr (r2Key_of (hashContent host chunk)))
    else metadata !! lit "r2_key".
Proof.
  unfold ingest_unit_metadata, ingest_vectorMetadata.
  destruct (500 <? js_length chunk).
  - by rewrite lookup_insert_eq.
  - unfold spread. destruct (metadata !! lit "r2_key") as [v|] eqn:E.
    + by apply lookup_union_Some_l.
    + rewrite lookup_union_r by done.
      unfold obj_literal. simpl.
      by rewrite !lookup_insert_ne, lookup_empty by done.
Qed.

End WriterMetadata.

Lemma store_vectorMetadata_caller (host : Host) (args : StoreArgs)
    (source_platform : JsVal) (metadata : JsObj) (timestamp : jsstring)
    (k : jsstring) (v : JsVal) :
  metadata !! k = Some v ->
  store_vectorMetadata host args source_platform metadata timestamp !! k = Some v.
Proof. intros Hk. by apply spread_lookup_caller. Qed.

Section WriterRuns.

Variables (host : Host) (env : Env).

(** [generateId] only draws a UUID. *)
Lemma generateId_run (w : World) :
  exists id w1,
    generateId host w = (Ok id, w1) /\
    upserts w1 = upserts w /\ blobs w1 = blobs w /\ queries w1 = queries w.
Proof. unfold generateId, bind, crypto_randomUUID, ret. simpl. eauto 10. Qed.

(** What one run of the ingest loop leaves in the index: the units of a
    prefix of the chunks, all of them exactly when the loop returns; when
    it throws, the error is the one a collaborator threw for the first
    chunk that was not written. *)
Lemma ingest_loop_upserts (args : IngestArgs) (metadata : JsObj)
    (timestamp : jsstring) (total : Z) :
  forall rest i results w res w',
    ingest_loop host env args metadata timestamp total rest i results w = (res, w') ->
    exists recs,
      upserts w' = upserts w ++ recs /\
      (forall j rec, recs !! j = Some rec ->
         exists chunk, rest !! j = Some chunk /\
           vec_namespace rec = ia_entity_name args /\
           vec_metadata rec =
             ingest_unit_metadata host args metadata timestamp total
               (i + Z.of_nat j) chunk) /\
      match res with
      | Ok entries =>
          length recs = length rest /\
          map ie_id entries = map ie_id results ++ map vec_id recs
      | Err e =>
          exists chunk,
            rest !! length recs = Some chunk /\
            chunk_write_fails host env args metadata timestamp total
              (i + Z.of_nat (length recs)) chunk e
      end.
Proof.
  induction rest as [|chunk rest IH]; intros i results w res w' Hrun.
  - simpl in Hrun. unfold ret in Hrun. injection Hrun as <- <-.
    exists []. rewrite app_nil_r. split; [done|]. split; [|by rewrite app_nil_r].
    intros j rec Hj. by rewrite lookup_nil in Hj.
  - assert (forall e, chunk_write_fails host env args metadata timestamp total
                        i chunk e ->
              exists recs : list VectorRecord,
                upserts w = upserts w ++ recs /\
                (forall j rec, recs !! j = Some rec ->
                   exists c, (chunk :: rest) !! j = Some c /\
                     vec_namespace rec = ia_entity_name args /\
                     vec_metadata rec =
                       ingest_unit_metadata host args metadata timestamp total
                         (i + Z.of_nat j) c) /\
                exists c, (chunk :: rest) !! length recs = Some c /\
                  chunk_write_fails host env args metadata timestamp total
                    (i + Z.of_nat (length recs)) c e) as Hfail.
    { intros e He. exists []. rewrite app_nil_r. split; [done|]. split.
      - intros j rec Hj. by rewrite lookup_nil in Hj.
      - exists chunk. simpl. by rewrite Z.add_0_r. }
    cbn [ingest_loop] in Hrun. unfold bind at 1 in Hrun.
    destruct (generateId_run w) as (id & w1 & Hid & Hu1 & _).
    rewrite Hid in Hrun.
    unfold bind at 1 in Hrun. unfold generateEmbedding at 1 in Hrun.
    destruct (AI_run env w1 chunk) as [embedding | e] eqn:Hemb.
    2:{ injection Hrun as <- <-. rewrite Hu1. apply Hfail. exists w1. by left. }
    unfold bind at 1 in Hrun.
    set (vm := ingest_vectorMetadata host args metadata timestamp total i chunk) in *.
    assert (exists r w2,
      (if 500 <? js_length chunk
       then bind (env_R2_put env (r2Key_of (hashContent host chunk))
               {| blob_hash := hashContent host chunk; blob_text := chunk;
                  blob_metadata := vm |})
              (fun _ => ret (<[lit "r2_key" := VStr (r2Key_of (hashContent host chunk))]> vm))
       else ret vm) w1 = (r, w2) /\ upserts w2 = upserts w1 /\
      match r with
      | Ok um => um = ingest_unit_metadata host args metadata timestamp total i chunk
      | Err e => chunk_write_fails host env args metadata timestamp total i chunk e
      end) as (r & w2 & Hput & Hu2 & Hr).
    { unfold ingest_unit_metadata. fold vm.
      destruct (500 <? js_length chunk) eqn:Hlong.
      - unfold bind, env_R2_put, ret.
        destruct (R2_put env w1 _ _) as [e|] eqn:Hp; simpl; [|eauto 10].
        eexists _, _. split; [done|]. split; [done|].
        exists w1. right. left. split; [lia | done].
      - unfold ret. eauto 10. }
    rewrite Hput in Hrun. destruct r as [um | e].
    2:{ injection Hrun as <- <-. rewrite Hu2, Hu1. by apply Hfail. }
    subst um. unfold bind at 1 in Hrun. unfold env_VECTORIZE_upsert at 1 in Hrun.
    match type of Hrun with context [VECTORIZE_upsert env w2 ?r] => set (rec0 := r) in * end.
    destruct (VECTORIZE_upsert env w2 rec0) as [e|] eqn:Hup.
    { injection Hrun as <- <-. rewrite Hu2, Hu1. apply Hfail.
      exists w2. right. right. by exists id, embedding. }
    apply IH in Hrun as (recs & Hu & Hrecs & Hres). simpl in Hu.
    exists (rec0 :: recs). split; [|split].
    + rewrite Hu, Hu2, Hu1, <- app_assoc. done.
    + intros [|j] rec Hj; simpl in Hj.
      * injection Hj as <-. exists chunk. split; [done|]. split; [done|].
        simpl. by rewrite Z.add_0_r.
      * destruct (Hrecs j rec Hj) as (c & Hc & Hns & Hmd).
        exists c. split; [done|]. split; [done|].
        rewrite Hmd. f_equal. lia.
    + destruct res as [entries | e].
      * destruct Hres as [Hlen Hids]. split; [simpl; lia|].
        rewrite Hids, map_app, <- app_assoc. done.
      * destruct Hres as (c & Hc & Hf). exists c. split; [done|].
        replace (i + Z.of_nat (length (rec0 :: recs)))
          with (i + 1 + Z.of_nat (length recs)) by (simpl length; lia).
        done.
Qed.

(** What a finished [toolIngest] call has done: [recs] are the units it
    added to the index, one per chunk of a prefix of the chunks. *)
Lemma toolIngest_run (fuel : nat) (args : IngestArgs) (w w' : World)
    (res : result IngestResult) :
  toolIngest fuel host env args w = Some (res, w') ->
  exists chunks recs,
    chunkText fuel (ia_content args) (parsed_or (MAX_CHUNK_TOKENS env) 400)
      (parsed_or (CHUNK_OVERLAP env) 50) = Some chunks /\
    upserts w' = upserts w ++ recs /\
    (forall j rec, recs !! j = Some rec ->
       exists chunk, chunks !! j = Some chunk /\
         vec_namespace rec = ia_entity_name args /\
         vec_metadata rec =
           ingest_unit_metadata host args (default ∅ (ia_metadata args))
             (toISOString_now host (clock_reads w)) (js_length_of chunks)
             (Z.of_nat j) chunk) /\
    match res with
    | Ok r =>
        length recs = length chunks /\
        ir_chunks_created r = js_length_of chunks /\
        ir_memory_ids r = map vec_id recs
    | Err e =>
        exists chunk,
          chunks !! length recs = Some chunk /\
          chunk_write_fails host env args (default ∅ (ia_metadata args))
            (toISOString_now host (clock_reads w)) (js_length_of chunks)
            (Z.of_nat (length recs)) chunk e
    end.
Proof.
  unfold toolIngest. intros Hrun.
  destruct (chunkText fuel _ _ _) as [chunks|] eqn:Hchunks; [|done].
  injection Hrun as Hrun. exists chunks.
  unfold bind at 1 in Hrun. unfold Date_now_toISOString at 1 in Hrun.
  unfold bind at 1 in Hrun.
  match type of Hrun with context [ingest_loop _ _ _ _ _ _ _ _ _ ?w1] =>
    destruct (ingest_loop host env args (default ∅ (ia_metadata args))
                (toISOString_now host (clock_reads w)) (js_length_of chunks)
                chunks 0 [] w1) as [r0 w2] eqn:Hloop
  end.
  apply ingest_loop_upserts in Hloop as (recs & Hu & Hrecs & Hres).
  simpl in Hu. exists recs. split; [done|].
  destruct r0 as [entries | e].
  - unfold ret in Hrun. injection Hrun as <- <-.
    destruct Hres as [Hlen Hids]. simpl in Hids.
    split; [done|]. split; [done|]. split; [done|]. simpl. split; [|done].
    unfold js_length_of.
    rewrite <- (length_map ie_id entries), Hids, length_map. lia.
  - injection Hrun as <- <-. split; [done|]. split; [done|]. done.
Qed.

(** With collaborators that do not fail, a call whose chunker returns
    writes one unit per chunk and returns. *)
Lemma toolIngest_reliable (fuel : nat) (args : IngestArgs) (w : World)
    (chunks : list jsstring) :
  chunkText fuel (ia_content args) (parsed_or (MAX_CHUNK_TOKENS env) 400)
    (parsed_or (CHUNK_OVERLAP env) 50) = Some chunks ->
  (forall w1 text, exists v, AI_run env w1 text = Ok v) ->
  (forall w1 key blob, R2_put env w1 key blob = None) ->
  (forall w1 rec, VECTORIZE_upsert env w1 rec = None) ->
  exists r w' recs,
    toolIngest fuel host env args w = Some (Ok r, w') /\
    upserts w' = upserts w ++ recs /\ length recs = length chunks.
Proof.
  intros Hchunks Hai Hput Hup.
  destruct (toolIngest fuel host env args w) as [[res w']|] eqn:Hrun.
  2:{ unfold toolIngest in Hrun. by rewrite Hchunks in Hrun. }
  destruct (toolIngest_run fuel args w w' res Hrun)
    as (chunks' & recs & Hc & Hu & _ & Hres).
  assert (chunks' = chunks) as -> by congruence.
  destruct res as [r|e].
  - exists r, w', recs. by destruct Hres as (? & _).
  - destruct Hres as (chunk & _ & w1 & [Hf | [(_ & Hf) | (id & emb & Hf)]]).
    + destruct (Hai w1 chunk) as [v Hv]. congruence.
    + by rewrite Hput in Hf.
    + by rewrite Hup in Hf.
Qed.

(** What a [toolStore] call has done: nothing, or one upsert. *)
Lemma toolStore_run (args : StoreArgs) (w w' : World) (res : result StoreResult) :
  toolStore host env args w = (res, w') ->
  exists recs,
    upserts w' = upserts w ++ recs /\
    (forall rec, rec ∈ recs ->
       exists source_platform timestamp,
         vec_metadata rec =
           store_vectorMetadata host args source_platform
             (default ∅ (st_metadata args)) timestamp) /\
    match res with
    | Ok _ => length recs = 1%nat
    | Err _ => recs = []
    end.
Proof.
  unfold toolStore. intros Hrun.
  unfold bind at 1 in Hrun.
  destruct (generateId_run w) as (id & w1 & Hid & Hu1 & _).
  rewrite Hid in Hrun.
  unfold bind at 1 in Hrun. unfold Date_now_toISOString at 1 in Hrun.
  unfold bind at 1 in Hrun. unfold generateEmbedding at 1 in Hrun.
  cbn [upserts blobs queries uuids_drawn clock_reads] in Hrun.
  match type of Hrun with context [AI_run env ?w2 ?t] =>
    destruct (AI_run env w2 t) as [embedding | e] eqn:Hemb
  end.
  2:{ injection Hrun as <- <-. exists []. simpl. rewrite app_nil_r.
      split; [done|]. split; [|done]. intros rec Hin. by apply elem_of_nil in Hin. }
  unfold bind at 1 in Hrun. unfold env_VECTORIZE_upsert at 1 in Hrun.
  match type of Hrun with context [VECTORIZE_upsert env ?w2 ?r] =>
    destruct (VECTORIZE_upsert env w2 r) as [e|] eqn:Hup; set (rec0 := r) in *
  end.
  { injection Hrun as <- <-. exists []. simpl. rewrite app_nil_r.
    split; [done|]. split; [|done]. intros rec Hin. by apply elem_of_nil in Hin. }
  unfold ret in Hrun. injection Hrun as <- <-.
  exists [rec0]. simpl. split; [by rewrite Hu1|]. split; [|done].
  intros rec Hin. apply list_elem_of_singleton in Hin as ->.
  simpl. eauto.
Qed.

End WriterRuns.




(** C8. The caller's metadata is spread last: for a system key [k] that
    the caller's metadata maps to [v], every unit an ingest or a store
    call upserts carries [v] under [k]. The units are the ones the call
    added to the index: as many as [chunks_created] for an ingest that
    returns, exactly one for a store that returns. *)
Theorem caller_metadata_overrides_system_keys (host : Host) (env : Env)
    (md : JsObj) (k : jsstring) (v : JsVal) :
  k ∈ system_keys ->
  md !! k = Some v ->
  (forall fuel args w res w',
     ia_metadata args = Some md ->
     toolIngest fuel host env args w = Some (res, w') ->
     exists recs,
       upserts w' = upserts w ++ recs /\
       (forall rec, rec ∈ recs -> vec_metadata rec !! k = Some v) /\
       match res with
       | Ok r => ir_chunks_created r = js_length_of recs
       | Err _ => True
       end) /\
  (forall args w res w',
     st_metadata args = Some md ->
     toolStore host env args w = (res, w') ->
     exists recs,
       upserts w' = upserts w ++ recs /\
       (forall rec, rec ∈ recs -> vec_metadata rec !! k = Some v) /\
       match res with
       | Ok _ => length recs = 1%nat
       | Err _ => recs = []
       end).
Proof.
  intros Hk Hmd. pose proof (system_keys_not_r2_key k Hk) as Hne. split.
  - intros fuel args w res w' Hargs Hrun.
    destruct (toolIngest_run host env fuel args w w' res Hrun)
      as (chunks & recs & _ & Hu & Hrecs & Hres).
    exists recs. split; [done|]. split.
    + intros rec Hin. apply list_elem_of_lookup in Hin as [j Hj].
      destruct (Hrecs j rec Hj) as (chunk & _ & _ & ->).
      apply ingest_unit_metadata_caller; [|done]. by rewrite Hargs.
    + destruct res as [r|e]; [|done].
      destruct Hres as (Hlen & -> & _). unfold js_length_of. by rewrite Hlen.
  - intros args w res w' Hargs Hrun.
    destruct (toolStore_run host env args w w' res Hrun) as (recs & Hu & Hrecs & Hres).
    exists recs. split; [done|]. split; [|done].
    intros rec Hin. destruct (Hrecs rec Hin) as (sp & ts & ->).
    apply store_vectorMetadata_caller. by rewrite Hargs.
Qed.

(** A caller who sends its own [chunk_hash]: both tools store it. *)
Lemma caller_metadata_overrides_system_keys_witness :
  let md : JsObj := {[ lit "chunk_hash" := VStr (lit "mine") ]} in
  let env := reliable_env None None in
  (exists res w' rec,
     toolIngest 0 sample_host env (sample_ingest_args (lit "hello") (Some md))
       empty_world = Some (res, w') /\
     upserts w' = [rec] /\
     vec_metadata rec !! lit "chunk_hash" = Some (VStr (lit "mine"))) /\
  (exists res w' rec,
     toolStore sample_host env (sample_store_args (lit "hi") (Some md))
       empty_world = (res, w') /\
     upserts w' = [rec] /\
     vec_metadata rec !! lit "chunk_hash" = Some (VStr (lit "mine"))).
Proof.
  intros md env.
  assert (lit "chunk_hash" ∈ system_keys) as Hk by (apply list_elem_of_In; simpl; tauto).
  assert (md !! lit "chunk_hash" = Some (VStr (lit "mine"))) as Hmd
    by (vm_compute; reflexivity).
  destruct (caller_metadata_overrides_system_keys sample_host env md
              (lit "chunk_hash") (VStr (lit "mine")) Hk Hmd) as [Hingest Hstore].
  split.
  - destruct (toolIngest_reliable sample_host env 0
                (sample_ingest_args (lit "hello") (Some md)) empty_world
                [lit "hello"])
      as (r & w' & recs0 & Hrun & Hu0 & Hlen);
      [reflexivity | intros; by eexists | reflexivity | reflexivity |].
    destruct (Hingest 0%nat (sample_ingest_args (lit "hello") (Some md))
                empty_world (Ok r) w' eq_refl Hrun) as (recs & Hu & Hall & _).
    assert (recs = recs0) as ->
      by (rewrite Hu0 in Hu; by apply app_inv_head in Hu).
    destruct recs0 as [|rec [|rec' rest]]; try discriminate Hlen.
    exists (Ok r), w', rec. split; [exact Hrun|]. split; [exact Hu0|].
    apply Hall, list_elem_of_In. by left.
  - destruct (toolStore sample_host env
                (sample_store_args (lit "hi") (Some md)) empty_world)
      as [res w'] eqn:Hrun.
    destruct (Hstore (sample_store_args (lit "hi") (Some md))
                empty_world res w' eq_refl Hrun) as (recs & Hu & Hall & _).
    destruct (upserts w') as [|rec [|rec' rest]] eqn:Hw';
      [vm_compute in Hrun; injection Hrun as _ <-; discriminate Hw' | |
       vm_compute in Hrun; injection Hrun as _ <-; discriminate Hw'].
    exists res, w', rec. split; [reflexivity|]. split; [done|].
    apply Hall. simpl in Hu. subst recs. apply list_elem_of_In. by left.
Defined.

(** C9. Ingesting a content of 600 characters under the default profile
    (a window of 400 * 4 = 1600 characters), without caller metadata and
    with collaborators that succeed, returns, reports one chunk and
    leaves exactly one new unit in the index: its [chunk_index] is 0, its
    [total_chunks] is 1, its [r2_key] is [chunks/], the hash of the
    content and [.json], and its [text_preview] is the first 500
    characters of the content, 500 characters long. The blob store has
    gained, under that key, an object with the hash and the full content,
    written before the key was recorded in the metadata. *)
Theorem ingest_600_chars (fuel : nat) (host : Host) (env : Env)
    (args : IngestArgs) (w : World) :
  js_length (ia_content args) = 600 ->
  parsed_or (MAX_CHUNK_TOKENS env) 400 = 400 ->
  default ∅ (ia_metadata args) = ∅ ->
  (forall w1 text, exists v, AI_run env w1 text = Ok v) ->
  (forall w1 key blob, R2_put env w1 key blob = None) ->
  (forall w1 rec, VECTORIZE_upsert env w1 rec = None) ->
  let content := ia_content args in
  let r2Key := lit "chunks/" ++ hashContent host content ++ lit ".json" in
  exists r w' rec blob,
    toolIngest fuel host env args w = Some (Ok r, w') /\
    ir_chunks_created r = 1 /\
    ir_memory_ids r = [vec_id rec] /\
    upserts w' = upserts w ++ [rec] /\
    vec_metadata rec !! lit "chunk_index" = Some (VNum 0) /\
    vec_metadata rec !! lit "total_chunks" = Some (VNum 1) /\
    vec_metadata rec !! lit "r2_key" = Some (VStr r2Key) /\
    js_length r2Key = 12 + js_length (hashContent host content) /\
    (exists preview,
       vec_metadata rec !! lit "text_preview" = Some (VStr preview) /\
       preview = slice content 0 500 /\ js_length preview = 500) /\
    blobs w' = <[r2Key := blob]> (blobs w) /\
    blob_hash blob = hashContent host content /\
    blob_text blob = content /\
    blob_metadata blob !! lit "r2_key" = None.
Proof.
  intros Hlen Hmax Hmd Hai Hput Hup content r2Key.
  unfold toolIngest. rewrite Hmax, Hmd.
  unfold chunkText. rewrite chunkChars_short by lia.
  fold content.
  unfold bind at 1. unfold Date_now_toISOString at 1.
  unfold bind at 1. cbn [ingest_loop].
  unfold bind at 1.
  match goal with |- context [generateId host ?w1] =>
    destruct (generateId_run host w1) as (id & w2 & Hid & Hu2 & Hb2 & _);
    rewrite Hid
  end.
  unfold bind at 1. unfold generateEmbedding at 1.
  destruct (Hai w2 content) as [embedding Hemb]. rewrite Hemb.
  unfold bind at 1.
  assert ((500 <? js_length content) = true) as -> by (apply Z.ltb_lt; unfold content; lia).
  unfold bind at 1. unfold env_R2_put at 1. rewrite Hput.
  unfold ret at 1.
  unfold bind at 1. unfold env_VECTORIZE_upsert at 1. rewrite Hup.
  unfold ret.
  set (vm := ingest_vectorMetadata host args ∅
               (toISOString_now host (clock_reads w)) (js_length_of [content])
               0 content).
  eexists _, _,
    {| vec_id := id; vec_values := embedding;
       vec_namespace := ia_entity_name args;
       vec_metadata := <[lit "r2_key" := VStr r2Key]> vm |},
    {| blob_hash := hashContent host content; blob_text := content;
       blob_metadata := vm |}.
  split; [reflexivity|].
  cbn [ir_chunks_created ir_memory_ids upserts blobs vec_metadata vec_id
       blob_hash blob_text blob_metadata app map ie_id].
  change (r2Key_of (hashContent host content)) with r2Key.
  split; [done|]. split; [done|]. split; [by rewrite Hu2|].
  assert (forall (k : jsstring) v, vm !! k = v -> k <> lit "r2_key" ->
          <[lit "r2_key" := VStr r2Key]> vm !! k = v) as Hother.
  { intros k v <- Hne. by rewrite lookup_insert_ne. }
  assert (forall k : jsstring, vm !! k
          = obj_literal
              [ (lit "entity_name", ia_entity_name args);
                (lit "source_platform", ia_source_platform args);
                (lit "memory_type", ia_memory_type args);
                (lit "timestamp",
                 js_or (get_prop ∅ (lit "timestamp")) (VStr (toISOString_now host (clock_reads w))));
                (lit "text_preview", VStr (slice content 0 500));
                (lit "chunk_hash", VStr (hashContent host content));
                (lit "chunk_index", VNum 0);
                (lit "total_chunks", VNum (js_length_of [content]));
                (lit "ingested_at", VStr (toISOString_now host (clock_reads w))) ]
            !! k) as Hlit.
  { intros k. unfold vm, ingest_vectorMetadata.
    apply spread_lookup_system, lookup_empty. }
  split; [apply Hother; [|done]; rewrite Hlit; unfold obj_literal; simpl;
          by rewrite !lookup_insert_ne, lookup_insert_eq by done|].
  split; [apply Hother; [|done]; rewrite Hlit; unfold obj_literal; simpl;
          by rewrite !lookup_insert_ne, lookup_insert_eq by done|].
  split; [by rewrite lookup_insert_eq|].
  split.
  { unfold r2Key. rewrite !js_length_app.
    change (js_length (lit "chunks/")) with 7.
    change (js_length (lit ".json")) with 5. lia. }
  split.
  { exists (slice content 0 500). split; [|split; [done|]].
    - apply Hother; [|done]. rewrite Hlit. unfold obj_literal. simpl.
      by rewrite !lookup_insert_ne, lookup_insert_eq by done.
    - unfold content. rewrite slice_length_inside by lia. lia. }
  split; [by rewrite Hb2|]. split; [done|]. split; [done|].
  rewrite Hlit. unfold obj_literal. simpl.
  by rewrite !lookup_insert_ne, lookup_empty by done.
Qed.

(** The sample ingest of six hundred letters a. *)
Lemma ingest_600_chars_witness :
  exists r w' rec,
    toolIngest 0 sample_host (reliable_env None None)
      (sample_ingest_args a600 None) empty_world = Some (Ok r, w') /\
    ir_chunks_created r = 1 /\
    upserts w' = [rec] /\
    vec_metadata rec !! lit "chunk_index" = Some (VNum 0) /\
    vec_metadata rec !! lit "total_chunks" = Some (VNum 1) /\
    vec_metadata rec !! lit "r2_key" = Some (VStr (lit "chunks/58200.json")) /\
    vec_metadata rec !! lit "text_preview" = Some (VStr (repeat 97%N 500)) /\
    (exists blob,
       blobs w' !! lit "chunks/58200.json" = Some blob /\
       blob_hash blob = lit "58200" /\ blob_text blob = a600).
Proof.
  destruct (ingest_600_chars 0 sample_host (reliable_env None None)
              (sample_ingest_args a600 None) empty_world)
    as (r & w' & rec & blob & Hrun & Hn & _ & Hu & Hi & Ht & Hk & _ & Hp
        & Hb & Hh & Hx & _).
  - reflexivity.
  - reflexivity.
  - reflexivity.
  - intros w1 text. eexists. reflexivity.
  - reflexivity.
  - reflexivity.
  - exists r, w', rec. split; [exact Hrun|]. split; [exact Hn|].
    split; [exact Hu|]. split; [exact Hi|]. split; [exact Ht|].
    split; [exact Hk|].
    split; [destruct Hp as (preview & Hp & -> & _); exact Hp|].
    exists blob. split; [|split; [exact Hh | exact Hx]].
    rewrite Hb. apply lookup_insert_eq.
Defined.

(** C10. The blob key is written into the metadata after the caller's
    metadata was merged. The units a [toolIngest] call adds to the index
    are those of the first chunks, in order; the unit of a chunk longer
    than 500 characters has [r2_key] equal to [chunks/], the hash of that
    chunk and [.json], whatever the caller sent under [r2_key], and
    the unit of a shorter chunk has under [r2_key] only what the caller
    sent, if anything. *)
Theorem r2_key_not_shadowed (fuel : nat) (host : Host) (env : Env)
    (args : IngestArgs) (w w' : World) (res : result IngestResult) :
  toolIngest fuel host env args w = Some (res, w') ->
  exists chunks recs,
    chunkText fuel (ia_content args) (parsed_or (MAX_CHUNK_TOKENS env) 400)
      (parsed_or (CHUNK_OVERLAP env) 50) = Some chunks /\
    upserts w' = upserts w ++ recs /\
    (length recs <= length chunks)%nat /\
    (forall r, res = Ok r -> length recs = length chunks) /\
    forall j rec, recs !! j = Some rec ->
      exists chunk,
        chunks !! j = Some chunk /\
        vec_metadata rec !! lit "r2_key" =
          if 500 <? js_length chunk
          then Some (VStr (lit "chunks/" ++ hashContent host chunk ++ lit ".json"))
          else default ∅ (ia_metadata args) !! lit "r2_key".
Proof.
  intros Hrun.
  destruct (toolIngest_run host env fuel args w w' res Hrun)
    as (chunks & recs & Hchunks & Hu & Hrecs & Hres).
  exists chunks, recs. split; [done|]. split; [done|].
  split; [|split].
  - destruct res as [r|e].
    + destruct Hres as [-> _]. lia.
    + destruct Hres as (chunk & Hc & _). apply lookup_lt_Some in Hc. lia.
  - intros r ->. by destruct Hres.
  - intros j rec Hj. destruct (Hrecs j rec Hj) as (chunk & Hc & _ & ->).
    exists chunk. split; [done|]. rewrite ingest_unit_metadata_r2_key.
    reflexivity.
Qed.

(** A caller who sends its own [r2_key] with a 600-character content: the
    unit carries the key of the blob, not the caller's value. *)
Lemma r2_key_not_shadowed_witness :
  exists res w' rec,
    toolIngest 0 sample_host (reliable_env None None)
      (sample_ingest_args a600 (Some {[ lit "r2_key" := VStr (lit "mine") ]}))
      empty_world = Some (res, w') /\
    upserts w' = [rec] /\
    vec_metadata rec !! lit "r2_key" = Some (VStr (lit "chunks/58200.json")).
Proof.
  destruct (toolIngest_reliable sample_host (reliable_env None None) 0
              (sample_ingest_args a600 (Some {[ lit "r2_key" := VStr (lit "mine") ]}))
              empty_world [a600])
    as (r & w' & recs0 & Hrun & Hu0 & Hlen);
    [vm_compute; reflexivity | intros; by eexists | reflexivity | reflexivity |].
  destruct (r2_key_not_shadowed 0 sample_host (reliable_env None None)
              (sample_ingest_args a600 (Some {[ lit "r2_key" := VStr (lit "mine") ]}))
              empty_world w' (Ok r) Hrun)
    as (chunks & recs & Hchunks & Hu & _ & _ & Hkey).
  assert (recs = recs0) as -> by (rewrite Hu0 in Hu; by apply app_inv_head in Hu).
  assert (chunks = [a600]) as ->.
  { assert (Some chunks = Some [a600]) as [= ->]; [|done].
    rewrite <- Hchunks. vm_compute. reflexivity. }
  destruct recs0 as [|rec [|rec' rest]]; try discriminate Hlen.
  exists (Ok r), w', rec. split; [exact Hrun|]. split; [exact Hu0|].
  destruct (Hkey 0%nat rec eq_refl) as (chunk & Hc & ->).
  injection Hc as <-. vm_compute. reflexivity.
Defined.


(* ===================================================================== *)
(** ** More about the chunker *)
(* ===================================================================== *)

(** [trimStart] drops a prefix of white space. *)
Lemma trimStart_split (s : jsstring) :
  exists ws, s = ws ++ trimStart s /\ forallb is_white_space ws = true.
Proof.
  induction s as [|c s (ws & Hs & Hws)]; [by exists []|].
  simpl. destruct (is_white_space c) eqn:E.
  - exists (c :: ws). simpl. rewrite E, Hws. split; [by f_equal | done].
  - by exists [].
Qed.

(** [trimEnd] drops a suffix of white space. *)
Lemma trimEnd_split (s : jsstring) :
  exists ws, s = trimEnd s ++ ws /\ forallb is_white_space ws = true.
Proof.
  destruct (trimStart_split (rev s)) as (ws & Hs & Hws).
  exists (rev ws). split.
  - unfold trimEnd. rewrite <- rev_app_distr, <- Hs. by rewrite rev_involutive.
  - rewrite forallb_forall in *. intros c Hc. apply Hws. by apply in_rev.
Qed.

(** What [trimStart] returns does not start with white space. *)
Lemma trimStart_head (s : jsstring) (c : N) (r : jsstring) :
  trimStart s = c :: r -> is_white_space c = false.
Proof.
  induction s as [|d s IH]; simpl; [done|].
  destruct (is_white_space d) eqn:E; [done|]. by intros [= -> _].
Qed.

(** A string that does not start with white space is left alone. *)
Lemma trimStart_clean (s : jsstring) :
  match s with [] => True | c :: _ => is_white_space c = false end ->
  trimStart s = s.
Proof. destruct s as [|c s]; simpl; [done|]. by intros ->. Qed.

Lemma trimStart_idem (s : jsstring) : trimStart (trimStart s) = trimStart s.
Proof.
  apply trimStart_clean. destruct (trimStart s) as [|c r] eqn:E; [done|].
  by apply (trimStart_head s c r).
Qed.

Lemma trimEnd_idem (s : jsstring) : trimEnd (trimEnd s) = trimEnd s.
Proof. unfold trimEnd. by rewrite rev_involutive, trimStart_idem. Qed.

(** Dropping white space at the end leaves a clean start clean. *)
Lemma trimStart_trimEnd (s : jsstring) :
  trimStart (trimEnd (trimStart s)) = trimEnd (trimStart s).
Proof.
  apply trimStart_clean.
  destruct (trimEnd (trimStart s)) as [|c r] eqn:E; [done|].
  destruct (trimEnd_split (trimStart s)) as (ws & Hs & _).
  rewrite E in Hs. simpl in Hs. by apply (trimStart_head s c (r ++ ws)).
Qed.

(** Trimming twice is trimming once. *)
Lemma trim_idem (s : jsstring) : trim (trim s) = trim s.
Proof. unfold trim. by rewrite trimStart_trimEnd, trimEnd_idem. Qed.

(** A trimmed string is a contiguous part of the string. *)
Lemma trim_infix (s : jsstring) : exists pre post, s = pre ++ trim s ++ post.
Proof.
  destruct (trimStart_split s) as (pre & Hs & _).
  destruct (trimEnd_split (trimStart s)) as (post & Ht & _).
  exists pre, post. unfold trim. by rewrite <- Ht.
Qed.

Lemma trim_length_le (s : jsstring) : js_length (trim s) <= js_length s.
Proof.
  destruct (trim_infix s) as (pre & post & Hs). rewrite Hs at 2.
  rewrite !js_length_app.
  pose proof (js_length_nonneg pre). pose proof (js_length_nonneg post). lia.
Qed.

(** A slice is a contiguous part of the string. *)
Lemma slice_infix (s : jsstring) (a b : Z) :
  exists pre post, s = pre ++ slice s a b ++ post.
Proof.
  unfold slice.
  set (from := Z.to_nat (rel_index (js_length s) a)).
  set (n := Z.to_nat (rel_index (js_length s) b - rel_index (js_length s) a)).
  exists (take from s), (drop n (drop from s)).
  by rewrite (take_drop n), (take_drop from).
Qed.

(** An invariant of every string the loop emits. *)
Lemma chunk_loop_Forall (text : jsstring) (maxChars overlapChars : Z)
    (P : jsstring -> Prop) :
  (forall start, P (trim (slice text start (window_end text maxChars start)))) ->
  forall fuel start chunks cs,
    Forall P chunks ->
    chunk_loop fuel text maxChars overlapChars start chunks = Some cs ->
    Forall P cs.
Proof.
  intros HP. induction fuel as [|fuel IH]; intros start chunks cs Hc Hrun; [done|].
  simpl in Hrun. destruct (start <? js_length text).
  - eapply IH; [|exact Hrun]. apply Forall_app. split; [done|].
    constructor; [apply HP | constructor].
  - by injection Hrun as <-.
Qed.

(** A window never ends before it starts. *)
Lemma window_end_start (text : jsstring) (maxChars start : Z) :
  0 <= maxChars -> start <= window_end text maxChars start.
Proof.
  intros Hmax. destruct (window_end_ge text maxChars start) as [-> | H]; lia.
Qed.

(** X1. No chunk is longer than the window: for a window width that is
    not negative, every string [chunkText] returns has at most
    [maxChars] characters. *)
Theorem chunkChars_chunk_length (fuel : nat) (text : jsstring)
    (maxChars overlapChars : Z) (cs : list jsstring) :
  0 <= maxChars ->
  chunkChars fuel text maxChars overlapChars = Some cs ->
  Forall (fun c => js_length c <= maxChars) cs.
Proof.
  intros Hmax. unfold chunkChars.
  destruct (js_length text <=? maxChars) eqn:E.
  - intros [= <-]. constructor; [lia | constructor].
  - apply chunk_loop_Forall; [|constructor].
    intros start.
    pose proof (trim_length_le (slice text start (window_end text maxChars start))).
    pose proof (window_end_start text maxChars start Hmax).
    pose proof (window_end_le text maxChars start Hmax).
    pose proof (slice_length_le text start (window_end text maxChars start)
                  ltac:(lia)).
    lia.
Qed.

Lemma chunkChars_chunk_length_witness :
  Forall (fun c => js_length c <= 8)
    [lit "abcdefgh"; lit "efghij."; lit "hij. klm"; lit "klmnop"; lit "nop"].
Proof.
  apply (chunkChars_chunk_length 8 (lit "abcdefghij. klmnop") 8 4).
  - lia.
  - reflexivity.
Defined.

(** X2. Every chunk is a contiguous part of the text: the chunker copies,
    it never rewrites. *)
Theorem chunkChars_chunks_infix (fuel : nat) (text : jsstring)
    (maxChars overlapChars : Z) (cs : list jsstring) :
  chunkChars fuel text maxChars overlapChars = Some cs ->
  Forall (fun c => exists pre post, text = pre ++ c ++ post) cs.
Proof.
  unfold chunkChars. destruct (js_length text <=? maxChars).
  - intros [= <-]. constructor; [|constructor].
    exists [], []. by rewrite app_nil_r.
  - apply chunk_loop_Forall; [|constructor].
    intros start.
    destruct (slice_infix text start (window_end text maxChars start))
      as (p1 & q1 & H1).
    destruct (trim_infix (slice text start (window_end text maxChars start)))
      as (p2 & q2 & H2).
    exists (p1 ++ p2), (q2 ++ q1).
    rewrite H1 at 1. rewrite H2 at 1. by rewrite <- !app_assoc.
Qed.

Lemma chunkChars_chunks_infix_witness :
  Forall (fun c => exists pre post, lit "abcdefghij. klmnop" = pre ++ c ++ post)
    [lit "abcdefgh"; lit "efghij."; lit "hij. klm"; lit "klmnop"; lit "nop"].
Proof.
  apply (chunkChars_chunks_infix 8 (lit "abcdefghij. klmnop") 8 4).
  reflexivity.
Defined.

(** X3. The chunks of a text longer than the window carry no leading or
    trailing white space: trimming one again changes nothing. *)
Theorem chunkChars_chunks_trimmed (fuel : nat) (text : jsstring)
    (maxChars overlapChars : Z) (cs : list jsstring) :
  maxChars < js_length text ->
  chunkChars fuel text maxChars overlapChars = Some cs ->
  Forall (fun c => trim c = c) cs.
Proof.
  intros Hlong. unfold chunkChars.
  destruct (js_length text <=? maxChars) eqn:E; [lia|].
  apply chunk_loop_Forall; [|constructor].
  intros start. apply trim_idem.
Qed.

Lemma chunkChars_chunks_trimmed_witness :
  Forall (fun c => trim c = c)
    [lit "abcdefgh"; lit "efghij."; lit "hij. klm"; lit "klmnop"; lit "nop"].
Proof.
  apply (chunkChars_chunks_trimmed 8 (lit "abcdefghij. klmnop") 8 4).
  - vm_compute. reflexivity.
  - reflexivity.
Defined.

(** The loop only appends: it emits at least one chunk when it starts
    inside the text. *)
Lemma chunk_loop_grows (text : jsstring) (maxChars overlapChars : Z) :
  forall fuel start chunks cs,
    chunk_loop fuel text maxChars overlapChars start chunks = Some cs ->
    (length chunks <= length cs)%nat /\
    (start < js_length text -> (length chunks < length cs)%nat).
Proof.
  induction fuel as [|fuel IH]; intros start chunks cs Hrun; [done|].
  simpl in Hrun. destruct (start <? js_length text) eqn:E.
  - apply IH in Hrun as [Hle _]. rewrite length_app in Hle. simpl in Hle. lia.
  - injection Hrun as <-. lia.
Qed.

(** With an overlap of at most half the window, the loop emits at most
    one chunk per character that is left. *)
Lemma chunk_loop_count (text : jsstring) (maxChars overlapChars : Z) :
  0 < maxChars -> 2 * overlapChars <= maxChars ->
  forall fuel start chunks cs,
    0 <= start ->
    chunk_loop fuel text maxChars overlapChars start chunks = Some cs ->
    Z.of_nat (length cs)
    <= Z.of_nat (length chunks) + Z.max 0 (js_length text - start).
Proof.
  intros Hmax Hov. induction fuel as [|fuel IH]; intros start chunks cs Hs Hrun; [done|].
  simpl in Hrun. destruct (start <? js_length text) eqn:E.
  - pose proof (window_advances text maxChars overlapChars start Hmax Hov).
    apply IH in Hrun; [|lia]. rewrite length_app in Hrun. simpl in Hrun. lia.
  - injection Hrun as <-. lia.
Qed.

(** With a positive window and an overlap of at most half of it, the
    chunker returns within [text.length] iterations. *)
Lemma chunkChars_returns (text : jsstring) (maxChars overlapChars : Z) :
  0 < maxChars -> 2 * overlapChars <= maxChars ->
  exists cs,
    chunkChars (S (Z.to_nat (js_length text))) text maxChars overlapChars = Some cs.
Proof.
  intros Hmax Hov. unfold chunkChars.
  destruct (js_length text <=? maxChars) eqn:E; [by eexists|].
  destruct (chunk_loop_total text maxChars overlapChars (fun _ => True) Hmax Hov)
    with (n := Z.to_nat (js_length text)) (start := 0) (chunks := @nil jsstring)
    as (cs & Hcs & _); [done | lia | | constructor |].
  { pose proof (js_length_nonneg text). lia. }
  by exists cs.
Qed.

(** X4. With a positive window and an overlap of at most half of it (the
    defaults of both profiles are such), the chunker returns for every
    text, within [text.length] iterations, and what it returns is at
    least one chunk and at most one chunk per character. *)
Theorem chunkChars_terminates (text : jsstring) (maxChars overlapChars : Z) :
  0 < maxChars -> 2 * overlapChars <= maxChars ->
  exists cs,
    chunkChars (S (Z.to_nat (js_length text))) text maxChars overlapChars = Some cs /\
    cs <> [] /\
    Z.of_nat (length cs) <= Z.max 1 (js_length text).
Proof.
  intros Hmax Hov. unfold chunkChars.
  destruct (js_length text <=? maxChars) eqn:E.
  - exists [text]. split; [done|]. split; [done|]. simpl. lia.
  - destruct (chunk_loop_total text maxChars overlapChars (fun _ => True) Hmax Hov)
      with (n := Z.to_nat (js_length text)) (start := 0) (chunks := @nil jsstring)
      as (cs & Hcs & _); [done | lia | | constructor |].
    { pose proof (js_length_nonneg text). lia. }
    exists cs. split; [done|].
    pose proof (chunk_loop_grows _ _ _ _ _ _ _ Hcs) as [_ Hlt].
    pose proof (chunk_loop_count text maxChars overlapChars Hmax Hov _ 0 [] cs
                  ltac:(lia) Hcs) as Hle.
    simpl in Hlt, Hle. split.
    + intros ->. simpl in Hlt. lia.
    + lia.
Qed.

(** The default profile of the CLI on a text of twenty characters. *)
Lemma chunkChars_terminates_witness :
  exists cs,
    Cli.chunkText 21 (repeat 97%N 20) Cli.CHUNK_SIZE Cli.CHUNK_OVERLAP = Some cs /\
    cs <> [] /\
    Z.of_nat (length cs) <= 20.
Proof.
  apply (chunkChars_terminates (repeat 97%N 20) Cli.CHUNK_SIZE Cli.CHUNK_OVERLAP).
  - reflexivity.
  - vm_compute. discriminate.
Defined.



(* ===================================================================== *)
(** ** More about the memory writer *)
(* ===================================================================== *)

(** A generated id starts with [mem_], and generating it leaves the
    index, the bucket and the queries as they were. *)
Lemma generateId_prefix (host : Host) (w : World) :
  exists suffix w',
    generateId host w = (Ok (lit "mem_" ++ suffix), w') /\
    upserts w' = upserts w /\ blobs w' = blobs w /\ queries w' = queries w.
Proof.
  unfold generateId, bind, crypto_randomUUID, ret.
  eexists _, _. split; [reflexivity|]. done.
Qed.


Section MoreWriter.
Variables (host : Host) (env : Env).

(** A property the caller left alone keeps the value the writer gave it. *)
Lemma ingest_unit_metadata_system (args : IngestArgs) (metadata : JsObj)
    (timestamp : jsstring) (total i : Z) (chunk : jsstring) (k : jsstring) :
  metadata !! k = None -> k <> lit "r2_key" ->
  ingest_unit_metadata host args metadata timestamp total i chunk !! k
  = obj_literal
      [ (lit "entity_name", ia_entity_name args);
        (lit "source_platform", ia_source_platform args);
        (lit "memory_type", ia_memory_type args);
        (lit "timestamp", js_or (get_prop metadata (lit "timestamp")) (VStr timestamp));
        (lit "text_preview", VStr (slice chunk 0 500));
        (lit "chunk_hash", VStr (hashContent host chunk));
        (lit "chunk_index", VNum i);
        (lit "total_chunks", VNum total);
        (lit "ingested_at", VStr timestamp) ] !! k.
Proof.
  intros Hk Hne. unfold ingest_unit_metadata, ingest_vectorMetadata.
  destruct (500 <? js_length chunk).
  - rewrite lookup_insert_ne by done. by apply spread_lookup_system.
  - by apply spread_lookup_system.
Qed.

(** X7. When the caller's metadata names no system key, the unit written
    for the chunk at position [j] records that position as [chunk_index],
    the number of chunks as [total_chunks], the hash of the chunk as
    [chunk_hash], the first 500 characters of the chunk (never more) as
    [text_preview], and one clock reading, the same for every unit of the
    call, as [timestamp] and [ingested_at]; it goes to the namespace of
    the entity. *)
Theorem toolIngest_unit_fields (fuel : nat) (args : IngestArgs) (w w' : World)
    (res : result IngestResult) :
  (forall k, k ∈ system_keys -> default ∅ (ia_metadata args) !! k = None) ->
  toolIngest fuel host env args w = Some (res, w') ->
  exists chunks recs,
    chunkText fuel (ia_content args) (parsed_or (MAX_CHUNK_TOKENS env) 400)
      (parsed_or (CHUNK_OVERLAP env) 50) = Some chunks /\
    upserts w' = upserts w ++ recs /\
    forall j rec, recs !! j = Some rec ->
      exists chunk,
        chunks !! j = Some chunk /\
        vec_namespace rec = ia_entity_name args /\
        vec_metadata rec !! lit "entity_name" = Some (ia_entity_name args) /\
        vec_metadata rec !! lit "chunk_index" = Some (VNum (Z.of_nat j)) /\
        vec_metadata rec !! lit "total_chunks" = Some (VNum (js_length_of chunks)) /\
        vec_metadata rec !! lit "chunk_hash" = Some (VStr (hashContent host chunk)) /\
        vec_metadata rec !! lit "text_preview" = Some (VStr (slice chunk 0 500)) /\
        js_length (slice chunk 0 500) <= 500 /\
        vec_metadata rec !! lit "timestamp"
          = Some (VStr (toISOString_now host (clock_reads w))) /\
        vec_metadata rec !! lit "ingested_at"
          = Some (VStr (toISOString_now host (clock_reads w))).
Proof.
  intros Hmd Hrun.
  destruct (toolIngest_run host env fuel args w w' res Hrun)
    as (chunks & recs & Hchunks & Hu & Hrecs & _).
  exists chunks, recs. split; [done|]. split; [done|].
  intros j rec Hj. destruct (Hrecs j rec Hj) as (chunk & Hc & Hns & Hm).
  exists chunk. split; [done|]. split; [done|].
  assert (forall k, k ∈ system_keys ->
            vec_metadata rec !! k
            = obj_literal
                [ (lit "entity_name", ia_entity_name args);
                  (lit "source_platform", ia_source_platform args);
                  (lit "memory_type", ia_memory_type args);
                  (lit "timestamp", VStr (toISOString_now host (clock_reads w)));
                  (lit "text_preview", VStr (slice chunk 0 500));
                  (lit "chunk_hash", VStr (hashContent host chunk));
                  (lit "chunk_index", VNum (Z.of_nat j));
                  (lit "total_chunks", VNum (js_length_of chunks));
                  (lit "ingested_at", VStr (toISOString_now host (clock_reads w))) ]
              !! k) as Hsys.
  { intros k Hk. rewrite Hm.
    rewrite ingest_unit_metadata_system
      by (try apply Hmd; try apply system_keys_not_r2_key; done).
    unfold get_prop. rewrite (Hmd (lit "timestamp"))
      by (apply list_elem_of_In; simpl; tauto).
    reflexivity. }
  assert (forall k, In k system_keys -> k ∈ system_keys) as Hin
    by (intros k; apply list_elem_of_In).
  repeat split.
  - rewrite Hsys by (apply Hin; simpl; tauto). unfold obj_literal. simpl.
    by rewrite !lookup_insert_ne, lookup_insert_eq by done.
  - rewrite Hsys by (apply Hin; simpl; tauto). unfold obj_literal. simpl.
    by rewrite !lookup_insert_ne, lookup_insert_eq by done.
  - rewrite Hsys by (apply Hin; simpl; tauto). unfold obj_literal. simpl.
    by rewrite !lookup_insert_ne, lookup_insert_eq by done.
  - rewrite Hsys by (apply Hin; simpl; tauto). unfold obj_literal. simpl.
    by rewrite !lookup_insert_ne, lookup_insert_eq by done.
  - rewrite Hsys by (apply Hin; simpl; tauto). unfold obj_literal. simpl.
    by rewrite !lookup_insert_ne, lookup_insert_eq by done.
  - pose proof (slice_length_le chunk 0 500 ltac:(lia)). lia.
  - rewrite Hsys by (apply Hin; simpl; tauto). unfold obj_literal. simpl.
    by rewrite !lookup_insert_ne, lookup_insert_eq by done.
  - rewrite Hsys by (apply Hin; simpl; tauto). unfold obj_literal. simpl.
    by rewrite ?lookup_insert_ne, lookup_insert_eq by done.
Qed.
End MoreWriter.

(** The three chunks of a twelve-character content under a window of 8
    and an overlap of 4. *)
Lemma toolIngest_unit_fields_witness :
  exists res w',
    toolIngest 8 sample_host (reliable_env (Some 2) (Some 1))
      (sample_ingest_args (lit "abcdefghijkl") None) empty_world = Some (res, w') /\
    map (fun rec => vec_metadata rec !! lit "chunk_index") (upserts w')
    = [Some (VNum 0); Some (VNum 1); Some (VNum 2)] /\
    map (fun rec => vec_metadata rec !! lit "total_chunks") (upserts w')
    = [Some (VNum 3); Some (VNum 3); Some (VNum 3)].
Proof.
  destruct (toolIngest_reliable sample_host (reliable_env (Some 2) (Some 1)) 8
              (sample_ingest_args (lit "abcdefghijkl") None) empty_world
              [lit "abcdefgh"; lit "efghijkl"; lit "ijkl"])
    as (r & w' & recs0 & Hrun & Hu0 & Hlen);
    [reflexivity | intros; by eexists | reflexivity | reflexivity |].
  destruct (toolIngest_unit_fields sample_host (reliable_env (Some 2) (Some 1)) 8
              (sample_ingest_args (lit "abcdefghijkl") None) empty_world w' (Ok r))
    as (chunks & recs & Hchunks & Hu & Hrecs); [intros k _; reflexivity | exact Hrun |].
  assert (recs = recs0) as -> by (rewrite Hu0 in Hu; by apply app_inv_head in Hu).
  destruct recs0 as [|r0 [|r1 [|r2 [|r3 rest]]]]; try discriminate Hlen.
  exists (Ok r), w'. split; [exact Hrun|]. rewrite Hu0.
  destruct (Hrecs 0%nat r0 eq_refl) as (c0 & _ & _ & _ & Hi0 & Ht0 & _).
  destruct (Hrecs 1%nat r1 eq_refl) as (c1 & _ & _ & _ & Hi1 & Ht1 & _).
  destruct (Hrecs 2%nat r2 eq_refl) as (c2 & _ & _ & _ & Hi2 & Ht2 & _).
  assert (chunks = [lit "abcdefgh"; lit "efghijkl"; lit "ijkl"]) as Hcs.
  { assert (Some chunks = Some [lit "abcdefgh"; lit "efghijkl"; lit "ijkl"])
      as [= ->]; [|done].
    rewrite <- Hchunks. reflexivity. }
  rewrite Hcs in Ht0, Ht1, Ht2.
  cbn [upserts empty_world app map]. rewrite Hi0, Hi1, Hi2, Ht0, Ht1, Ht2.
  split; reflexivity.
Defined.


Section Blobs.
Variables (host : Host) (env : Env).



(** X9. A store call never writes to the blob store, whatever the
    length of its text. When it returns, the index has gained exactly
    one unit, under the id it returns and in the namespace of the
    entity; with no caller metadata in the way, the unit has no
    [chunk_index], no [total_chunks] and no [r2_key], its [text_preview]
    is the first 500 characters of the text, and its [source_platform]
    is [direct] when none was given. When it throws, the index is as it
    was. *)
Theorem toolStore_unit (args : StoreArgs) (w w' : World) (res : result StoreResult) :
  toolStore host env args w = (res, w') ->
  blobs w' = blobs w /\
  match res with
  | Err _ => upserts w' = upserts w
  | Ok r =>
      exists rec,
        upserts w' = upserts w ++ [rec] /\
        vec_id rec = so_memory_id r /\
        vec_namespace rec = st_entity_name args /\
        (forall k, default ∅ (st_metadata args) !! k = None ->
           vec_metadata rec !! k
           = obj_literal
               [ (lit "entity_name", st_entity_name args);
                 (lit "source_platform",
                  match st_source_platform args with
                  | VUndef => VStr (lit "direct")
                  | v => v
                  end);
                 (lit "memory_type", st_memory_type args);
                 (lit "timestamp", VStr (toISOString_now host (clock_reads w)));
                 (lit "text_preview", VStr (slice (st_text args) 0 500));
                 (lit "chunk_hash", VStr (hashContent host (st_text args)));
                 (lit "ingested_at", VStr (toISOString_now host (clock_reads w))) ]
             !! k) /\
        (forall k, k ∈ [lit "chunk_index"; lit "total_chunks"; lit "r2_key"] ->
           vec_metadata rec !! k = default ∅ (st_metadata args) !! k)
  end.
Proof.
  unfold toolStore. intros Hrun.
  unfold bind at 1 in Hrun.
  destruct (generateId_prefix host w)
    as (suffix & w1 & Hid & Hu1 & Hb1 & _).
  rewrite Hid in Hrun.
  assert (clock_reads w1 = clock_reads w) as Hc1.
  { unfold generateId, bind, crypto_randomUUID, ret in Hid.
    by injection Hid as _ <-. }
  unfold bind at 1 in Hrun. unfold Date_now_toISOString at 1 in Hrun.
  unfold bind at 1 in Hrun. unfold generateEmbedding at 1 in Hrun.
  match type of Hrun with context [AI_run env ?w2 ?t] =>
    destruct (AI_run env w2 t) as [embedding | e]
  end.
  2:{ injection Hrun as <- <-. simpl. by rewrite Hu1, Hb1. }
  unfold bind at 1 in Hrun. unfold env_VECTORIZE_upsert at 1 in Hrun.
  match type of Hrun with context [VECTORIZE_upsert env ?w2 ?r] =>
    destruct (VECTORIZE_upsert env w2 r) as [e|]; set (rec0 := r) in *
  end.
  { injection Hrun as <- <-. simpl. by rewrite Hu1, Hb1. }
  unfold ret in Hrun. injection Hrun as <- <-. simpl.
  split; [done|]. exists rec0. split; [by rewrite Hu1|].
  split; [done|]. split; [done|]. split.
  - intros k Hk. unfold rec0. cbn [vec_metadata]. unfold store_vectorMetadata.
    rewrite spread_lookup_system by done. rewrite Hc1.
    destruct (decide (k = lit "timestamp")) as [->|Hne].
    + unfold get_prop. rewrite Hk. reflexivity.
    + unfold obj_literal. simpl.
      destruct (decide (k = lit "ingested_at")) as [->|?];
        [by rewrite !lookup_insert_eq
        |rewrite !(lookup_insert_ne _ (lit "ingested_at")) by done].
      destruct (decide (k = lit "chunk_hash")) as [->|?];
        [by rewrite !lookup_insert_eq
        |rewrite !(lookup_insert_ne _ (lit "chunk_hash")) by done].
      destruct (decide (k = lit "text_preview")) as [->|?];
        [by rewrite !lookup_insert_eq
        |rewrite !(lookup_insert_ne _ (lit "text_preview")) by done].
      by rewrite !(lookup_insert_ne _ (lit "timestamp")) by done.
  - intros k Hk. unfold rec0. cbn [vec_metadata]. unfold store_vectorMetadata.
    destruct (default ∅ (st_metadata args) !! k) as [v|] eqn:E.
    + by apply spread_lookup_caller.
    + rewrite spread_lookup_system by done.
      apply list_elem_of_In in Hk. simpl in Hk.
      unfold obj_literal. simpl.
      destruct Hk as [<- | [<- | [<- | []]]];
        by rewrite !lookup_insert_ne, lookup_empty by done.
Qed.
End Blobs.


(** Storing a two-letter note. *)
Lemma toolStore_unit_witness :
  exists r w' rec,
    toolStore sample_host (reliable_env None None)
      (sample_store_args (lit "hi") None) empty_world = (Ok r, w') /\
    blobs w' = ∅ /\
    upserts w' = [rec] /\
    vec_metadata rec !! lit "chunk_index" = None /\
    vec_metadata rec !! lit "r2_key" = None /\
    vec_metadata rec !! lit "source_platform" = Some (VStr (lit "direct")) /\
    vec_metadata rec !! lit "text_preview" = Some (VStr (lit "hi")).
Proof.
  destruct (toolStore sample_host (reliable_env None None)
              (sample_store_args (lit "hi") None) empty_world)
    as [[r | e] w'] eqn:Hrun; [|vm_compute in Hrun; discriminate].
  destruct (toolStore_unit sample_host (reliable_env None None)
              (sample_store_args (lit "hi") None) empty_world w' (Ok r) Hrun)
    as (Hb & rec & Hu & _ & _ & Hsys & Habsent).
  exists r, w', rec. split; [reflexivity|]. split; [exact Hb|].
  split; [exact Hu|].
  split; [rewrite Habsent; [reflexivity | apply list_elem_of_In; simpl; tauto]|].
  split; [rewrite Habsent; [reflexivity | apply list_elem_of_In; simpl; tauto]|].
  split; rewrite Hsys by reflexivity; vm_compute; reflexivity.
Defined.

(* ===================================================================== *)
(** ** More about the retriever and the grounding assembler *)
(* ===================================================================== *)

Lemma map_result_Ok {A B} (f : A -> result B) (l : list A) (bs : list B) :
  map_result f l = Ok bs -> Forall2 (fun a b => f a = Ok b) l bs.
Proof.
  revert bs. induction l as [|a l IH]; simpl; intros bs H.
  - injection H as <-. constructor.
  - destruct (f a) as [b|e] eqn:Ha; [|done].
    destruct (map_result f l) as [bs'|e]; [|done].
    injection H as <-. constructor; [done | by apply IH].
Qed.

Lemma map_result_Err {A B} (f : A -> result B) (l : list A) (e : jsstring) :
  map_result f l = Err e -> exists a, In a l /\ f a = Err e.
Proof.
  induction l as [|a l IH]; simpl; intros H; [done|].
  destruct (f a) as [b|e'] eqn:Ha.
  - destruct (map_result f l) as [bs'|e'']; [done|].
    injection H as ->. destruct (IH eq_refl) as (a' & Hin & Ha').
    exists a'. split; [by right | done].
  - injection H as ->. exists a. split; [by left | done].
Qed.

Lemma to_memory_Ok (host : Host) (m : Match) (sm : SearchMemory) :
  to_memory host m = Ok sm ->
  sm_id sm = match_id m /\ sm_score sm = match_score m /\
  sm_metadata sm = match_metadata m /\
  sm_text sm = get_prop_opt (match_metadata m) (lit "text_preview") /\
  formatAttribution host
    {| memory_metadata := match_metadata m;
       memory_text := get_prop_opt (match_metadata m) (lit "text_preview") |}
  = Ok (sm_formatted sm).
Proof.
  unfold to_memory. destruct (formatAttribution host _) as [s|e]; [|done].
  by intros [= <-].
Qed.

(** What a run of [toolSearch] amounts to, collaborator by collaborator. *)
Lemma toolSearch_run (host : Host) (env : Env) (args : SearchArgs) (w : World) :
  let queryOptions :=
    search_queryOptions (default 10 (sa_limit args))
      (search_filter (sa_entity args) (sa_memory_type args) (sa_source_platform args)) in
  let asked :=
    {| upserts := upserts w; blobs := blobs w;
       queries := queries w ++ [(default [] (match AI_run env w (sa_query args) with
                                             | Ok v => Some v | Err _ => None end),
                                 queryOptions)];
       uuids_drawn := uuids_drawn w; clock_reads := clock_reads w |} in
  toolSearch host env args w =
    match AI_run env w (sa_query args) with
    | Err e => (Err e, w)
    | Ok embedding =>
        match VECTORIZE_query env w embedding queryOptions with
        | Err e => (Err e, asked)
        | Ok matches =>
            match map_result (to_memory host)
                    (kept_matches (default (7 # 10)%Q (sa_min_score args)) matches) with
            | Err e => (Err e, asked)
            | Ok memories =>
                (Ok {| sr_query := sa_query args;
                       sr_count := js_length_of memories;
                       sr_memories := memories |}, asked)
            end
        end
    end.
Proof.
  intros queryOptions asked.
  unfold toolSearch. unfold bind at 1. unfold generateEmbedding at 1.
  destruct (AI_run env w (sa_query args)) as [embedding | e]; [|done].
  unfold bind at 1. unfold env_VECTORIZE_query at 1. fold queryOptions.
  destruct (VECTORIZE_query env w embedding queryOptions) as [matches | e]; [|done].
  unfold bind, lift_result, ret, kept_matches.
  by destruct (map_result _ _).
Qed.

(** X10. What a search returns: the matches of the index whose score
    reaches [min_score] (0.7 when none is given), all of them and in the
    order of the index, each with its id, score, metadata, preview and
    formatted block; [count] is their number. No result scores below
    [min_score]. *)
Theorem toolSearch_results (host : Host) (env : Env) (args : SearchArgs)
    (w w' : World) (sr : SearchResult) :
  toolSearch host env args w = (Ok sr, w') ->
  let min_score := default (7 # 10)%Q (sa_min_score args) in
  exists embedding matches,
    AI_run env w (sa_query args) = Ok embedding /\
    VECTORIZE_query env w embedding
      (search_queryOptions (default 10 (sa_limit args))
         (search_filter (sa_entity args) (sa_memory_type args)
            (sa_source_platform args))) = Ok matches /\
    Forall2 (fun m sm =>
               sm_id sm = match_id m /\ sm_score sm = match_score m /\
               sm_metadata sm = match_metadata m /\
               sm_text sm = get_prop_opt (match_metadata m) (lit "text_preview") /\
               formatAttribution host
                 {| memory_metadata := match_metadata m;
                    memory_text := get_prop_opt (match_metadata m) (lit "text_preview") |}
               = Ok (sm_formatted sm))
      (kept_matches min_score matches) (sr_memories sr) /\
    Forall (fun sm => (min_score <= sm_score sm)%Q) (sr_memories sr) /\
    sr_count sr = js_length_of (sr_memories sr) /\
    sr_count sr <= js_length_of matches /\
    sr_query sr = sa_query args.
Proof.
  intros Hrun min_score. rewrite toolSearch_run in Hrun.
  destruct (AI_run env w (sa_query args)) as [embedding | e]; [|done].
  destruct (VECTORIZE_query env w embedding _) as [matches | e] eqn:Hq; [|done].
  fold min_score in Hrun.
  destruct (map_result _ _) as [memories | e] eqn:Hmap; [|done].
  injection Hrun as <- _. cbn [sr_memories sr_count sr_query].
  exists embedding, matches. split; [done|]. split; [done|].
  apply map_result_Ok in Hmap.
  assert (Forall2 (fun m sm =>
               sm_id sm = match_id m /\ sm_score sm = match_score m /\
               sm_metadata sm = match_metadata m /\
               sm_text sm = get_prop_opt (match_metadata m) (lit "text_preview") /\
               formatAttribution host
                 {| memory_metadata := match_metadata m;
                    memory_text := get_prop_opt (match_metadata m) (lit "text_preview") |}
               = Ok (sm_formatted sm))
            (kept_matches min_score matches) memories) as Hall.
  { eapply Forall2_impl; [exact Hmap|]. intros m sm. apply to_memory_Ok. }
  split; [done|]. split; [|split; [done|split; [|done]]].
  - apply Forall_forall. intros sm Hin.
    destruct (proj1 (list_elem_of_lookup _ _) Hin) as [i Hi].
    destruct (Forall2_lookup_r _ _ _ _ _ Hall Hi) as (m & Hm & _ & -> & _).
    apply list_elem_of_lookup_2, list_elem_of_In in Hm.
    unfold kept_matches in Hm. apply filter_In in Hm as [_ Hm].
    by apply Qle_bool_iff.
  - unfold js_length_of. rewrite <- (Forall2_length _ _ _ Hall).
    unfold kept_matches. pose proof (filter_length_le
      (fun m => Qle_bool min_score (match_score m)) matches). lia.
Qed.

(** An index with two matches, one of them below the threshold. *)
Lemma toolSearch_results_witness :
  exists sr w',
    toolSearch sample_host
      (answering_env [ sample_match (lit "hi");
                       {| match_id := lit "mem_2"; match_score := (6 # 10)%Q;
                          match_metadata := None |} ])
      search_all_types empty_world = (Ok sr, w') /\
    map sm_id (sr_memories sr) = [lit "mem_1"] /\
    sr_count sr = 1.
Proof.
  destruct (toolSearch sample_host
      (answering_env [ sample_match (lit "hi");
                       {| match_id := lit "mem_2"; match_score := (6 # 10)%Q;
                          match_metadata := None |} ])
      search_all_types empty_world) as [[sr | e] w'] eqn:Hrun;
    [|vm_compute in Hrun; discriminate].
  destruct (toolSearch_results _ _ _ _ _ _ Hrun)
    as (embedding & matches & _ & Hq & Hall & _ & Hcount & _).
  injection Hq as <-.
  exists sr, w'. split; [reflexivity|].
  apply Forall2_cons_inv_l in Hall as (sm & rest & (Hid & _) & Hrest & Hsr).
  apply Forall2_nil_inv_l in Hrest as ->.
  rewrite Hcount, Hsr. simpl. rewrite Hid. split; reflexivity.
Defined.

(** X11. Retrieval only reads: whatever [search] and
    [get_grounding_context] return or throw, they upsert nothing and put
    no blob, draw no id and read no clock, and they query the index at
    most once (not at all when the query cannot be embedded). *)
Theorem retrieval_is_read_only (host : Host) (env : Env) (w : World) :
  (forall args,
     let w' := snd (toolSearch host env args w) in
     upserts w' = upserts w /\ blobs w' = blobs w /\
     uuids_drawn w' = uuids_drawn w /\ clock_reads w' = clock_reads w /\
     (length (queries w') <= S (length (queries w)))%nat /\
     (forall e, AI_run env w (sa_query args) = Err e -> w' = w)) /\
  (forall args,
     let w' := snd (toolGetGroundingContext host env args w) in
     upserts w' = upserts w /\ blobs w' = blobs w /\
     uuids_drawn w' = uuids_drawn w /\ clock_reads w' = clock_reads w /\
     (length (queries w') <= S (length (queries w)))%nat).
Proof.
  assert (forall args,
     let w' := snd (toolSearch host env args w) in
     upserts w' = upserts w /\ blobs w' = blobs w /\
     uuids_drawn w' = uuids_drawn w /\ clock_reads w' = clock_reads w /\
     (length (queries w') <= S (length (queries w)))%nat /\
     (forall e, AI_run env w (sa_query args) = Err e -> w' = w)) as Hsearch.
  { intros args w'. subst w'. rewrite toolSearch_run.
    destruct (AI_run env w (sa_query args)) as [embedding | e].
    - destruct (VECTORIZE_query env w embedding _) as [matches | e];
        [destruct (map_result _ _)|];
        cbn [snd upserts blobs uuids_drawn clock_reads queries];
        rewrite length_app; simpl; repeat split; try done; lia.
    - simpl. repeat split; try done; lia. }
  split; [exact Hsearch|].
  intros args w'. subst w'. unfold toolGetGroundingContext.
  unfold bind at 1, lift_result.
  destruct (call_toLowerCase host (ga_topic args)) as [lowered|e];
    [|simpl; repeat split; try done; lia].
  unfold bind.
  match goal with |- context [toolSearch host env ?a w] =>
    destruct (Hsearch a) as (Hu & Hb & Hi & Hc & Hq & _);
    destruct (toolSearch host env a w) as [[sr | e] w1]
  end; simpl in *; by repeat split.
Qed.

(** [formatAttribution] throws exactly on a memory type that is present
    and not a string. *)
Lemma formatAttribution_cases (host : Host) (memory : Memory) :
  let type := get_prop_opt (memory_metadata memory) (lit "memory_type") in
  if truthy type && negb (is_string type)
  then formatAttribution host memory = Err (lit "type.toUpperCase is not a function")
  else exists s, formatAttribution host memory = Ok s.
Proof.
  intros type. unfold formatAttribution. fold type.
  assert (call_toUpperCase host (js_or type (VStr (lit "memory")))
          = if truthy type && negb (is_string type)
            then Err (lit "type.toUpperCase is not a function")
            else Ok (toUpperCase host (field_or type (lit "memory")))) as ->.
  { unfold js_or, field_or. destruct type as [| |[]|n|s|r]; simpl; try done.
    - by destruct (n =? 0).
    - by destruct s. }
  destruct (truthy type && negb (is_string type)); eauto.
Qed.

(** X12. One unit with a memory type that is present and not a string
    breaks every search that matches it: given the embedding and the
    matches of the index, the search returns exactly when every match
    that reaches [min_score] has a memory type that is missing or a
    string, and otherwise throws the TypeError of [toUpperCase]. *)
Theorem toolSearch_throws_on_type (host : Host) (env : Env) (args : SearchArgs)
    (w : World) (embedding : Vector) (matches : list Match) :
  AI_run env w (sa_query args) = Ok embedding ->
  VECTORIZE_query env w embedding
    (search_queryOptions (default 10 (sa_limit args))
       (search_filter (sa_entity args) (sa_memory_type args)
          (sa_source_platform args))) = Ok matches ->
  match fst (toolSearch host env args w) with
  | Ok sr =>
      forallb formattable
        (kept_matches (default (7 # 10)%Q (sa_min_score args)) matches) = true
  | Err e =>
      e = lit "type.toUpperCase is not a function" /\
      forallb formattable
        (kept_matches (default (7 # 10)%Q (sa_min_score args)) matches) = false
  end.
Proof.
  intros Hai Hq. rewrite toolSearch_run, Hai, Hq.
  assert (forall m,
            if formattable m
            then exists sm, to_memory host m = Ok sm
            else to_memory host m = Err (lit "type.toUpperCase is not a function"))
    as Hfmt.
  { intros m. unfold formattable, to_memory.
    pose proof (formatAttribution_cases host
                  {| memory_metadata := match_metadata m;
                     memory_text := get_prop_opt (match_metadata m) (lit "text_preview") |})
      as Hc.
    cbn [memory_metadata] in Hc.
    destruct (truthy _ && negb (is_string _)); cbn [negb].
    - by rewrite Hc.
    - destruct Hc as [s ->]. eauto. }
  generalize (kept_matches (default (7 # 10)%Q (sa_min_score args)) matches).
  intros l. destruct (map_result (to_memory host) l) as [memories | e] eqn:Hmap;
    cbn [fst].
  - apply map_result_Ok in Hmap. apply forallb_forall. intros m Hin.
    apply list_elem_of_In, list_elem_of_lookup in Hin as [i Hi].
    destruct (Forall2_lookup_l _ _ _ _ _ Hmap Hi) as (sm & _ & Hsm).
    specialize (Hfmt m). destruct (formattable m); [done | congruence].
  - apply map_result_Err in Hmap as (m & Hin & Hm).
    pose proof (Hfmt m) as Hf. destruct (formattable m) eqn:Hfm.
    + destruct Hf as [sm Hsm]. congruence.
    + split; [congruence|].
      apply not_true_is_false. intros Hall.
      rewrite forallb_forall in Hall. rewrite (Hall m Hin) in Hfm. done.
Qed.

(** A unit whose memory type is the number 5. *)
Lemma toolSearch_throws_on_type_witness :
  fst (toolSearch sample_host
         (answering_env [ {| match_id := lit "mem_3"; match_score := (9 # 10)%Q;
                             match_metadata :=
                               Some {[ lit "memory_type" := VNum 5 ]} |} ])
         search_all_types empty_world)
  = Err (lit "type.toUpperCase is not a function").
Proof.
  pose proof (toolSearch_throws_on_type sample_host
    (answering_env [ {| match_id := lit "mem_3"; match_score := (9 # 10)%Q;
                        match_metadata :=
                          Some {[ lit "memory_type" := VNum 5 ]} |} ])
    search_all_types empty_world _ _ eq_refl eq_refl) as H.
  destruct (fst (toolSearch _ _ _ _)) as [sr | e].
  - vm_compute in H. discriminate.
  - destruct H as [-> _]. reflexivity.
Defined.

Lemma toolSearch_count (host : Host) (env : Env) (args : SearchArgs)
    (w w' : World) (sr : SearchResult) :
  toolSearch host env args w = (Ok sr, w') ->
  sr_count sr = js_length_of (sr_memories sr).
Proof.
  rewrite toolSearch_run.
  destruct (AI_run env w _); [|done].
  destruct (VECTORIZE_query env w _ _); [|done].
  destruct (map_result _ _); [|done]. by intros [= <- _].
Qed.

(** X13. The grounding assembler fails in two ways only. A topic that
    is not a string makes it throw the TypeError of [topic.toLowerCase()],
    before any search and whatever the search would have given: nothing
    is queried. For a topic that is a string it fails exactly when its
    search fails, with the same error; when it returns, it has included
    no more memories than the search found, and it reports at least the
    tokens of its own header. *)
Theorem toolGetGroundingContext_counts (host : Host) (env : Env)
    (args : GroundingArgs) (w : World) :
  match ga_topic args with
  | VStr _ =>
      match toolGetGroundingContext host env args w,
            toolSearch host env (grounding_search_args host args) w with
      | (Ok r, w1), (Ok sr, w2) =>
          w1 = w2 /\
          gr_total_available r = js_length_of (sr_memories sr) /\
          0 <= gr_memories_included r <= gr_total_available r /\
          estimateTokens (grounding_header (ga_topic args)
                            (match ga_entity args with
                             | VUndef => VStr (lit "all")
                             | v => v
                             end))
          <= gr_token_estimate r
      | (Err e1, w1), (Err e2, w2) => e1 = e2 /\ w1 = w2
      | _, _ => False
      end
  | topic =>
      toolGetGroundingContext host env args w
      = (Err (match topic with
              | VUndef =>
                  lit "Cannot read properties of undefined (reading 'toLowerCase')"
              | VNull =>
                  lit "Cannot read properties of null (reading 'toLowerCase')"
              | _ => lit "topic.toLowerCase is not a function"
              end), w)
  end.
Proof.
  destruct args as [topic0 entity0 max_tokens0].
  cbn [ga_topic ga_entity ga_max_tokens].
  destruct topic0 as [| | | |topic|]; try reflexivity.
  set (args := {| ga_topic := VStr topic; ga_entity := entity0;
                  ga_max_tokens := max_tokens0 |}).
  unfold toolGetGroundingContext. unfold bind at 1, lift_result.
  cbn [ga_topic ga_entity ga_max_tokens args call_toLowerCase]. unfold bind.
  change (toolSearch host env _ w)
    with (toolSearch host env (grounding_search_args host args) w).
  destruct (toolSearch host env (grounding_search_args host args) w)
    as [[sr | e] w1] eqn:Hs; [|done].
  unfold ret. split; [done|].
  cbn [gr_total_available gr_memories_included gr_token_estimate].
  pose proof (toolSearch_count _ _ _ _ _ _ Hs) as Hcount.
  split; [done|].
  match goal with |- context [pack_loop ?ms ?mt ?st] =>
    destruct (pack_loop_prefix mt ms st) as (k & Hk & _ & Ht & Hi & _)
  end.
  rewrite Hi, Ht, Hcount. cbn [includedMemories currentTokens app].
  unfold js_length_of. rewrite length_map, length_take.
  pose proof (sum_tokens_nonneg (take k (sr_memories sr))).
  split; lia.
Qed.

(* ===================================================================== *)
(** ** The protocol *)
(* ===================================================================== *)

(** X14. [stats] never fails and changes nothing: a cache that throws or
    has no entry gives the placeholder [unknown] for both figures, and so
    does a cached figure that is falsy, such as a vector count of 0; any
    other cached figure is reported as it is. *)
Theorem toolStats_never_fails (cache : Cache) (w : World) :
  exists r,
    toolStats cache w = (Ok r, w) /\
    stats_index r = lit "unified-mind-index" /\
    match CACHE_get cache w (lit "unified-mind:stats") with
    | Ok (Some cached) =>
        stats_last_updated r
          = (if truthy (get_prop cached (lit "last_updated"))
             then get_prop cached (lit "last_updated") else VStr (lit "unknown")) /\
        stats_vector_count_estimate r
          = (if truthy (get_prop cached (lit "vector_count"))
             then get_prop cached (lit "vector_count") else VStr (lit "unknown")) /\
        (cached !! lit "vector_count" = Some (VNum 0) ->
         stats_vector_count_estimate r = VStr (lit "unknown"))
    | _ =>
        stats_last_updated r = VStr (lit "unknown") /\
        stats_vector_count_estimate r = VStr (lit "unknown")
    end.
Proof.
  unfold toolStats. eexists. split; [reflexivity|]. split; [reflexivity|].
  cbn [stats_last_updated stats_vector_count_estimate].
  destruct (CACHE_get cache w _) as [[cached|]|e]; [|done|done].
  split; [done|]. split; [done|].
  intros H. unfold js_or, get_prop. by rewrite H.
Qed.

Lemma tool_of_name_listed (name : JsVal) :
  is_Some (tool_of_name name) <-> exists n, n ∈ MCP_TOOLS /\ name = VStr n.
Proof.
  unfold tool_of_name. split.
  - repeat (case_bool_decide;
            [intros _; subst name; eexists; split; [|reflexivity];
             apply list_elem_of_In; simpl; tauto|]).
    by intros [t Ht].
  - intros (n & Hin & ->). apply list_elem_of_In in Hin. simpl in Hin.
    destruct Hin as [<- | [<- | [<- | [<- | [<- | []]]]]];
      repeat (case_bool_decide; [by eexists|]); done.
Qed.

(** X15. The tools that [tools/list] advertises are exactly the names
    [executeTool] dispatches: a name outside the list is answered with
    the error [Unknown tool: <name>], and nothing is read or written for
    it. *)
Theorem executeTool_dispatches_listed (fuel : nat) (host : Host) (env : Env)
    (cache : Cache) (name : JsVal) (args : ToolArgs) (w : World) :
  (is_Some (tool_of_name name) <-> exists n, n ∈ MCP_TOOLS /\ name = VStr n) /\
  ((forall n, n ∈ MCP_TOOLS -> name <> VStr n) ->
   executeTool fuel host env cache name args w
   = Some (Err (lit "Unknown tool: " ++ ToString name), w)).
Proof.
  split; [apply tool_of_name_listed|].
  intros Hout. unfold executeTool.
  destruct (tool_of_name name) as [t|] eqn:Ht; [|done].
  destruct (proj1 (tool_of_name_listed name)) as (n & Hin & ->); [by rewrite Ht|].
  by destruct (Hout n Hin).
Qed.

(** What [handleMCPRequest] does with a [tools/call] that has its
    parameters. *)
(** X16. What the handler answers, case by case. A body that is not
    JSON, a [null] body, and a [tools/call] whose [params] is missing or
    [null] make the handler itself throw, with nothing done. Otherwise it
    answers with a JSON-RPC object that carries the id of the body:
    [initialize] and [tools/list] with their results, a [tools/call] with
    the result of the tool, or with error -32000 and the thrown message
    when the tool throws, and every other method with error -32601. Only
    [tools/call] touches the world. *)
Theorem handleMCPRequest_replies (fuel : nat) (host : Host) (env : Env)
    (cache : Cache) (request : Request) (w w' : World) (out : result RpcReply) :
  handleMCPRequest fuel host env cache request w = Some (out, w') ->
  match req_json request with
  | Err message => out = Err message /\ w' = w
  | Ok None =>
      out = Err (lit "Cannot destructure property 'method' of 'body' as it is null.")
      /\ w' = w
  | Ok (Some body) =>
      (forall reply, out = Ok reply -> reply_id reply = rpc_id body) /\
      if bool_decide (rpc_method body = VStr (lit "tools/call")) then
        match rpc_params body with
        | IsUndefined =>
            out = Err (lit "Cannot destructure property 'name' of 'params' as it is undefined.")
            /\ w' = w
        | IsNull =>
            out = Err (lit "Cannot destructure property 'name' of 'params' as it is null.")
            /\ w' = w
        | Is params =>
            exists res,
              executeTool fuel host env cache (cp_name params)
                (cp_arguments params) w = Some (res, w') /\
              out = Ok match res with
                       | Ok result_ => RpcOk (rpc_id body) (ToolCallResult result_)
                       | Err message => RpcError (rpc_id body) (-32000) message
                       end
        end
      else
        w' = w /\
        out = Ok (if bool_decide (rpc_method body = VStr (lit "initialize"))
                  then RpcOk (rpc_id body) InitializeResult
                  else if bool_decide (rpc_method body = VStr (lit "tools/list"))
                  then RpcOk (rpc_id body) (ToolsListResult MCP_TOOLS)
                  else RpcError (rpc_id body) (-32601)
                         (lit "Unknown method: " ++ ToString (rpc_method body)))
  end.
Proof.
  unfold handleMCPRequest.
  destruct (req_json request) as [[body|]|message];
    [|by intros [= <- <-] | by intros [= <- <-]].
  case_bool_decide as Hi.
  { intros [= <- <-]. split; [by intros reply [= <-]|].
    rewrite Hi. rewrite bool_decide_eq_false_2 by done. done. }
  case_bool_decide as Hl.
  { intros [= <- <-]. split; [by intros reply [= <-]|].
    rewrite Hl. rewrite bool_decide_eq_false_2 by done. done. }
  case_bool_decide as Hc.
  - destruct (rpc_params body) as [| |params];
      [by intros [= <- <-] | by intros [= <- <-] |].
    destruct (executeTool _ _ _ _ _ _ _) as [[[r|e] w1]|]; [| |done].
    + intros [= <- <-]. split; [by intros reply [= <-]|]. by eexists.
    + intros [= <- <-]. split; [by intros reply [= <-]|]. by eexists.
  - intros [= <- <-]. split; [by intros reply [= <-]|]. done.
Qed.

(** A store whose embedding fails, called through the protocol: the
    answer is error -32000 with the message of the embedding model. *)
Lemma handleMCPRequest_replies_witness :
  exists w',
    handleMCPRequest 0 sample_host (flaky_env None None (lit "hi"))
      {| CACHE_get := fun _ _ => Ok None |}
      {| req_method := lit "POST"; req_pathname := lit "/mcp";
         req_json :=
           Ok (Some
             {| rpc_method := VStr (lit "tools/call");
                rpc_params :=
                  Is {| cp_name := VStr (lit "store");
                        cp_arguments :=
                          {| as_search := search_all_types;
                             as_grounding := sample_grounding_args (lit "cat") 26;
                             as_ingest := sample_ingest_args (lit "hi") None;
                             as_store := sample_store_args (lit "hi") None |} |};
                rpc_id := VNum 7 |}) |} empty_world
    = Some (Ok (RpcError (VNum 7) (-32000) (lit "embedding failed")), w').
Proof.
  destruct (handleMCPRequest 0 sample_host (flaky_env None None (lit "hi"))
      {| CACHE_get := fun _ _ => Ok None |}
      {| req_method := lit "POST"; req_pathname := lit "/mcp";
         req_json :=
           Ok (Some
             {| rpc_method := VStr (lit "tools/call");
                rpc_params :=
                  Is {| cp_name := VStr (lit "store");
                        cp_arguments :=
                          {| as_search := search_all_types;
                             as_grounding := sample_grounding_args (lit "cat") 26;
                             as_ingest := sample_ingest_args (lit "hi") None;
                             as_store := sample_store_args (lit "hi") None |} |};
                rpc_id := VNum 7 |}) |} empty_world) as [[out w']|] eqn:Hrun;
    [|vm_compute in Hrun; discriminate].
  pose proof (handleMCPRequest_replies _ _ _ _ _ _ _ _ Hrun) as Hr.
  cbn [req_json rpc_method rpc_params rpc_id cp_name cp_arguments] in Hr.
  rewrite bool_decide_eq_true_2 in Hr by done.
  destruct Hr as (_ & res & Htool & ->).
  exists w'. do 2 f_equal.
  vm_compute in Htool. injection Htool as <- _. reflexivity.
Defined.

Lemma corsHeaders_lookup (cors_origin : JsVal) :
  corsHeaders cors_origin !! lit "Access-Control-Allow-Origin"
    = Some (ToString (js_or cors_origin (VStr (lit "*")))) /\
  corsHeaders cors_origin !! lit "Access-Control-Allow-Methods"
    = Some (lit "GET, POST, OPTIONS") /\
  corsHeaders cors_origin !! lit "Access-Control-Allow-Headers"
    = Some (lit "Content-Type").
Proof.
  unfold corsHeaders. repeat split;
    by rewrite ?lookup_insert_ne, lookup_insert_eq by done.
Qed.

(** X17. Every response of the worker carries the three CORS headers,
    with the configured origin or [*]; its status is 200, 404 or 500; a
    preflight ([OPTIONS]) is answered 200 with an empty body on any path
    and before anything else is looked at. *)
Theorem fetch_cors (fuel : nat) (host : Host) (env : Env) (cache : Cache)
    (cors_origin : JsVal) (request : Request) (w w' : World) (resp : Response) :
  fetch fuel host env cache cors_origin request w = Some (resp, w') ->
  resp_headers resp !! lit "Access-Control-Allow-Origin"
    = Some (ToString (js_or cors_origin (VStr (lit "*")))) /\
  resp_headers resp !! lit "Access-Control-Allow-Methods"
    = Some (lit "GET, POST, OPTIONS") /\
  resp_headers resp !! lit "Access-Control-Allow-Headers"
    = Some (lit "Content-Type") /\
  (resp_status resp = 200 \/ resp_status resp = 404 \/ resp_status resp = 500) /\
  (req_method request = lit "OPTIONS" ->
   resp_status resp = 200 /\ resp_body resp = BodyNull /\ w' = w).
Proof.
  intros Hrun.
  destruct (corsHeaders_lookup cors_origin) as (Ho & Hm & Hh).
  assert (forall k, k <> lit "Content-Type" ->
            jsonHeaders cors_origin !! k = corsHeaders cors_origin !! k) as Hjson.
  { intros k Hk. unfold jsonHeaders. by rewrite lookup_insert_ne. }
  unfold fetch in Hrun.
  case_bool_decide as Hopt.
  { injection Hrun as <- <-. simpl. repeat split; auto. }
  assert (resp_headers resp = jsonHeaders cors_origin /\
          (resp_status resp = 200 \/ resp_status resp = 404 \/ resp_status resp = 500))
    as [-> Hs].
  { destruct (_ || _); [injection Hrun as <- <-; simpl; auto|].
    destruct (_ && _); [|injection Hrun as <- <-; simpl; auto].
    destruct (handleMCPRequest _ _ _ _ _ _) as [[[reply|e] w1]|]; [| |done];
      injection Hrun as <- <-; simpl; auto. }
  rewrite !Hjson by done. repeat split; auto; done.
Qed.

(** A preflight for a path the worker does not serve. *)
Lemma fetch_cors_witness :
  exists resp,
    fetch 0 sample_host (reliable_env None None)
      {| CACHE_get := fun _ _ => Ok None |} VUndef
      {| req_method := lit "OPTIONS"; req_pathname := lit "/nowhere";
         req_json := Err (lit "Unexpected end of JSON input") |} empty_world
    = Some (resp, empty_world) /\
    resp_status resp = 200 /\
    resp_headers resp !! lit "Access-Control-Allow-Origin" = Some (lit "*").
Proof.
  destruct (fetch 0 sample_host (reliable_env None None)
      {| CACHE_get := fun _ _ => Ok None |} VUndef
      {| req_method := lit "OPTIONS"; req_pathname := lit "/nowhere";
         req_json := Err (lit "Unexpected end of JSON input") |} empty_world)
    as [[resp w']|] eqn:Hrun; [|vm_compute in Hrun; discriminate].
  destruct (fetch_cors _ _ _ _ _ _ _ _ _ Hrun) as (Ho & _ & _ & _ & Hopt).
  destruct (Hopt eq_refl) as (Hs & _ & ->).
  exists resp. split; [reflexivity|]. split; [exact Hs | exact Ho].
Defined.

(** X18. How failures surface over HTTP. Status 500 is answered exactly
    when the request is [POST /mcp] and the handler itself throws, and
    then the body is the JSON-RPC error -32603 with a null id and the
    thrown message. Whenever the handler answers, the status is 200 and
    the body is its answer: a tool that throws gives 200 with the error
    -32000, not 500. Status 404 is answered exactly when the request is
    neither a preflight, nor for a health path, nor [POST /mcp], and it
    leaves the world alone. *)
Theorem fetch_status (fuel : nat) (host : Host) (env : Env) (cache : Cache)
    (cors_origin : JsVal) (request : Request) (w w' : World) (resp : Response) :
  fetch fuel host env cache cors_origin request w = Some (resp, w') ->
  let is_mcp_post :=
    req_method request = lit "POST" /\ req_pathname request = lit "/mcp" in
  let is_health :=
    req_pathname request = lit "/" \/ req_pathname request = lit "/health" in
  (resp_status resp = 500 <->
   is_mcp_post /\
   exists message,
     handleMCPRequest fuel host env cache request w = Some (Err message, w')) /\
  (forall message,
     is_mcp_post ->
     handleMCPRequest fuel host env cache request w = Some (Err message, w') ->
     resp_body resp = BodyRpc (RpcError VNull (-32603) message)) /\
  (forall reply,
     is_mcp_post ->
     handleMCPRequest fuel host env cache request w = Some (Ok reply, w') ->
     resp_status resp = 200 /\ resp_body resp = BodyRpc reply) /\
  (forall id message,
     resp_body resp = BodyRpc (RpcError id (-32000) message) ->
     resp_status resp = 200 /\ is_mcp_post) /\
  (resp_status resp = 404 <->
   req_method request <> lit "OPTIONS" /\ ~ is_health /\ ~ is_mcp_post) /\
  (resp_status resp = 404 -> resp_body resp = BodyNotFound /\ w' = w).
Proof.
  intros Hrun is_mcp_post is_health. unfold fetch in Hrun.
  assert (lit "POST" <> lit "OPTIONS") as Hpo by discriminate.
  assert (lit "/mcp" <> lit "/") as Hm1 by discriminate.
  assert (lit "/mcp" <> lit "/health") as Hm2 by discriminate.
  case_bool_decide as Hopt.
  { injection Hrun as <- <-. simpl.
    split; [split; [done | intros [[Hp _] _]; congruence]|].
    split; [intros message [Hp _]; congruence|].
    split; [intros reply [Hp _]; congruence|].
    split; [done|]. split; [|done]. split; [done | by intros [? _]]. }
  destruct (bool_decide (req_pathname request = lit "/")
            || bool_decide (req_pathname request = lit "/health")) eqn:Hhealth.
  { assert is_health as Hh.
    { apply orb_true_iff in Hhealth as [H|H]; apply bool_decide_eq_true in H;
        [by left | by right]. }
    assert (~ is_mcp_post) as Hn.
    { intros [_ Hp]. destruct Hh as [Hh|Hh]; congruence. }
    injection Hrun as <- <-. simpl.
    split; [split; [done | by intros [? _]]|].
    split; [by intros message ?|]. split; [by intros reply ?|].
    split; [done|]. split; [|done]. split; [done | by intros (_ & ? & _)]. }
  assert (~ is_health) as Hh.
  { apply orb_false_iff in Hhealth as [H1 H2].
    apply bool_decide_eq_false in H1, H2. by intros [?|?]. }
  destruct (bool_decide (req_pathname request = lit "/mcp")
            && bool_decide (req_method request = lit "POST")) eqn:Hmcp.
  2:{ assert (~ is_mcp_post) as Hn.
      { intros [Hp Hq]. rewrite Hp, Hq in Hmcp.
        by rewrite !bool_decide_eq_true_2 in Hmcp. }
      injection Hrun as <- <-. simpl.
      split; [split; [done | by intros [? _]]|].
      split; [by intros message ?|]. split; [by intros reply ?|].
      split; [done|]. split; [|done]. by split. }
  assert is_mcp_post as Hp.
  { apply andb_true_iff in Hmcp as [H1 H2].
    apply bool_decide_eq_true in H1, H2. by split. }
  destruct (handleMCPRequest _ _ _ _ _ _) as [[[reply|e] w1]|] eqn:Hh'; [| |done];
    injection Hrun as <- <-; simpl.
  - split; [split; [done | by intros (_ & message & [=])]|].
    split; [by intros message _ [=]|].
    split; [by intros reply' _ [= <-]|].
    split; [by intros id message _|].
    split; [|done]. split; [done | by intros (_ & _ & ?)].
  - split; [split; [intros _; split; [done | by exists e] | done]|].
    split; [by intros message _ [= <-]|].
    split; [by intros reply' _ [=]|].
    split; [by intros id message [=]|].
    split; [|done]. split; [done | by intros (_ & _ & ?)].
Qed.

(** A body that is not JSON, posted to [/mcp]: the handler throws, and
    the answer is 500 with the error -32603. *)
Lemma fetch_status_witness :
  exists resp w',
    fetch 0 sample_host (reliable_env None None)
      {| CACHE_get := fun _ _ => Ok None |} VUndef
      {| req_method := lit "POST"; req_pathname := lit "/mcp";
         req_json := Err (lit "Unexpected end of JSON input") |} empty_world
    = Some (resp, w') /\
    resp_status resp = 500 /\
    resp_body resp
    = BodyRpc (RpcError VNull (-32603) (lit "Unexpected end of JSON input")).
Proof.
  destruct (fetch 0 sample_host (reliable_env None None)
      {| CACHE_get := fun _ _ => Ok None |} VUndef
      {| req_method := lit "POST"; req_pathname := lit "/mcp";
         req_json := Err (lit "Unexpected end of JSON input") |} empty_world)
    as [[resp w']|] eqn:Hrun; [|vm_compute in Hrun; discriminate].
  destruct (fetch_status _ _ _ _ _ _ _ _ _ Hrun) as (H500 & Hbody & _).
  assert (w' = empty_world) as ->.
  { unfold fetch in Hrun. rewrite !bool_decide_eq_false_2 in Hrun by discriminate.
    rewrite !bool_decide_eq_true_2 in Hrun by reflexivity.
    cbn in Hrun. by injection Hrun as _ <-. }
  exists resp, empty_world. split; [reflexivity|]. split.
  - apply H500. split; [by split|]. by eexists.
  - by apply Hbody.
Defined.

(* ===================================================================== *)
(** ** The ingest CLI *)
(* ===================================================================== *)

Import IngestCli.
Local Open Scope cli_scope.

Lemma succeeded_nil : succeeded [] = 0.
Proof. reflexivity. Qed.

Lemma succeeded_cons (request : IngestRequest) (ok : bool)
    (log : list (IngestRequest * bool)) :
  succeeded ((request, ok) :: log) = (if ok then 1 else 0) + succeeded log.
Proof. unfold succeeded. destruct ok; simpl; lia. Qed.

Lemma succeeded_app (log log' : list (IngestRequest * bool)) :
  succeeded (log ++ log') = succeeded log + succeeded log'.
Proof. unfold succeeded. rewrite List.filter_app, length_app. lia. Qed.

Lemma succeeded_bounds (log : list (IngestRequest * bool)) :
  0 <= succeeded log <= Z.of_nat (length log).
Proof.
  unfold succeeded. pose proof (List.filter_length_le snd log). lia.
Qed.

Lemma after_nil (w : CliWorld) : after w [] [] = w.
Proof. destruct w. unfold after. simpl. by rewrite !app_nil_r. Qed.

Lemma after_after (w : CliWorld) (new new' : list (IngestRequest * bool))
    (errs errs' : list jsstring) :
  after (after w new errs) new' errs' = after w (new ++ new') (errs ++ errs').
Proof. unfold after. simpl. by rewrite !app_assoc. Qed.

(** The loop over chunks sends every chunk, in order, whatever fails; it
    counts the requests that succeeded and writes one line for each of
    the others. *)
Lemma ingest_each_run (host : CliHost) (url entity platform type : jsstring)
    (metadata_of : Z -> JsObj) (prefix_of : Z -> jsstring) :
  forall rest i successCount w,
  exists new errs,
    ingest_each host url entity platform type metadata_of prefix_of rest i
      successCount w
    = Some (Ok (successCount + succeeded new), after w new errs) /\
    map fst new
    = imap (fun k chunk =>
              {| rq_url := url; rq_content := chunk; rq_entity := entity;
                 rq_platform := platform; rq_type := type;
                 rq_metadata := metadata_of (i + Z.of_nat k) |}) rest /\
    Z.of_nat (length errs) + succeeded new = Z.of_nat (length rest).
Proof.
  induction rest as [|chunk rest IH]; intros i n w.
  - exists [], []. rewrite after_nil, succeeded_nil, Z.add_0_r. done.
  - cbn [ingest_each]. unfold cbind at 1. unfold try_catch, cbind at 1.
    unfold ingestChunk.
    set (request := {| rq_url := url; rq_content := chunk; rq_entity := entity;
                       rq_platform := platform; rq_type := type;
                       rq_metadata := metadata_of i |}).
    destruct (callMCP_error host w request) as [message|].
    + unfold cbind, console_error, cret. cbn [calls stderr env_UNIFIED_MIND_URL].
      change {| calls := calls w ++ [(request, false)];
                stderr := stderr w ++ [prefix_of i ++ message];
                env_UNIFIED_MIND_URL := env_UNIFIED_MIND_URL w |}
        with (after w [(request, false)] [prefix_of i ++ message]).
      destruct (IH (i + 1) n (after w [(request, false)] [prefix_of i ++ message]))
        as (new & errs & -> & Hreq & Hlen).
      exists ((request, false) :: new), ((prefix_of i ++ message) :: errs).
      rewrite after_after, succeeded_cons. split; [done|]. split.
      * cbn [map fst]. rewrite Hreq. cbn [imap]. rewrite Z.add_0_r. f_equal.
        apply imap_ext. intros k c _. simpl. do 2 f_equal. lia.
      * simpl length. lia.
    + unfold cret.
      replace {| calls := calls w ++ [(request, true)]; stderr := stderr w;
                 env_UNIFIED_MIND_URL := env_UNIFIED_MIND_URL w |}
        with (after w [(request, true)] []) by (unfold after; by rewrite app_nil_r).
      destruct (IH (i + 1) (n + 1) (after w [(request, true)] []))
        as (new & errs & -> & Hreq & Hlen).
      exists ((request, true) :: new), errs.
      rewrite after_after, succeeded_cons. split; [do 3 f_equal; lia|]. split.
      * cbn [map fst]. rewrite Hreq. cbn [imap]. rewrite Z.add_0_r. f_equal.
        apply imap_ext. intros k c _. simpl. do 2 f_equal. lia.
      * simpl length. lia.
Qed.

(** The requests of the loop over chunks all satisfy what the requests it
    builds satisfy. *)
Lemma ingest_each_frame (host : CliHost) (url entity platform type : jsstring)
    (metadata_of : Z -> JsObj) (prefix_of : Z -> jsstring)
    (Q : IngestRequest -> Prop) :
  (forall chunk i,
     Q {| rq_url := url; rq_content := chunk; rq_entity := entity;
          rq_platform := platform; rq_type := type;
          rq_metadata := metadata_of i |}) ->
  forall rest i successCount w,
  exists new errs,
    ingest_each host url entity platform type metadata_of prefix_of rest i
      successCount w
    = Some (Ok (successCount + succeeded new), after w new errs) /\
    Forall (fun call => Q (fst call)) new.
Proof.
  intros HQ rest i n w.
  destruct (ingest_each_run host url entity platform type metadata_of prefix_of
              rest i n w) as (new & errs & Hrun & Hreq & _).
  exists new, errs. split; [done|].
  apply Forall_fmap. change (Forall Q (map fst new)). rewrite Hreq.
  apply Forall_lookup. intros k request Hk.
  rewrite list_lookup_imap in Hk.
  destruct (rest !! k) as [chunk|]; [|done]. injection Hk as <-. apply HQ.
Qed.

Lemma source_file_1 (filePath : jsstring) :
  obj_literal [ (lit "source_file", VStr filePath) ] !! lit "source_file"
  = Some (VStr filePath).
Proof. unfold obj_literal. simpl. by rewrite lookup_insert_eq. Qed.

Lemma source_file_3 (filePath k1 k2 : jsstring) (v1 v2 : JsVal) :
  k1 <> lit "source_file" -> k2 <> lit "source_file" ->
  obj_literal [ (lit "source_file", VStr filePath); (k1, v1); (k2, v2) ]
    !! lit "source_file"
  = Some (VStr filePath).
Proof.
  intros H1 H2. unfold obj_literal. cbn [fold_left fst snd].
  rewrite lookup_insert_ne by done. rewrite lookup_insert_ne by done.
  by rewrite lookup_insert_eq.
Qed.

(** What a run leaves behind: the process [w] became [w'] by sending
    requests that all satisfy [Q] and writing error lines, and the count
    [r], if the run returned one, is [n0] plus the requests that
    succeeded. *)
Lemma each_message_frame (fuel : nat) (host : CliHost)
    (url filePath entity platform type : jsstring) :
  forall messages n0 w r w',
    each_message fuel host url filePath entity platform type messages n0 w
    = Some (r, w') ->
    exists new errs,
      w' = after w new errs /\
      Forall (fun call => request_of url entity platform type filePath (fst call)) new /\
      forall n, r = Ok n -> n = n0 + succeeded new.
Proof.
  induction messages as [|msg rest IH]; intros n0 w r w' Hrun.
  - injection Hrun as <- <-. exists [], []. rewrite after_nil.
    split; [done|]. split; [constructor|]. intros n [= <-]. rewrite succeeded_nil. lia.
  - cbn [each_message] in Hrun. unfold cbind at 1, lift in Hrun.
    destruct (message_line msg) as [content|e].
    2:{ injection Hrun as <- <-. exists [], []. rewrite after_nil.
        split; [done|]. split; [constructor|]. by intros n. }
    unfold cbind at 1, chunks_of in Hrun.
    destruct (Cli.chunkText fuel content Cli.CHUNK_SIZE Cli.CHUNK_OVERLAP)
      as [chunks|]; [|done].
    unfold cbind at 1 in Hrun.
    match type of Hrun with
    | context [ingest_each ?h ?u ?e ?p ?t ?md ?pf ?cs ?k ?n ?w] =>
        assert (forall chunk i,
                  request_of url entity platform type filePath
                    {| rq_url := u; rq_content := chunk; rq_entity := e;
                       rq_platform := p; rq_type := t; rq_metadata := md i |})
          as Hbuilt
          by (intros chunk i; repeat split; cbn [rq_metadata];
              apply source_file_3; by intros [=]);
        destruct (ingest_each_frame h u e p t md pf _ Hbuilt cs k n w)
          as (new & errs & Heach & HQ)
    end.
    rewrite Heach in Hrun. apply IH in Hrun as (new' & errs' & -> & HQ' & Hcount).
    exists (new ++ new'), (errs ++ errs'). rewrite after_after. split; [done|].
    split; [by apply Forall_app|].
    intros n Hn. rewrite (Hcount n Hn), succeeded_app. lia.
Qed.

Lemma each_conversation_frame (fuel : nat) (host : CliHost)
    (url filePath entity platform type : jsstring) :
  forall conversations n0 w r w',
    each_conversation fuel host url filePath entity platform type conversations n0 w
    = Some (r, w') ->
    exists new errs,
      w' = after w new errs /\
      Forall (fun call => request_of url entity platform type filePath (fst call)) new /\
      forall n, r = Ok n -> n = n0 + succeeded new.
Proof.
  induction conversations as [|conv rest IH]; intros n0 w r w' Hrun.
  - injection Hrun as <- <-. exists [], []. rewrite after_nil.
    split; [done|]. split; [constructor|]. intros n [= <-]. rewrite succeeded_nil. lia.
  - cbn [each_conversation] in Hrun. unfold cbind at 1, lift in Hrun.
    destruct (conversation_text conv) as [content|e].
    2:{ injection Hrun as <- <-. exists [], []. rewrite after_nil.
        split; [done|]. split; [constructor|]. by intros n. }
    unfold cbind at 1, chunks_of in Hrun.
    destruct (Cli.chunkText fuel content Cli.CHUNK_SIZE Cli.CHUNK_OVERLAP)
      as [chunks|]; [|done].
    unfold cbind at 1 in Hrun.
    match type of Hrun with
    | context [ingest_each ?h ?u ?e ?p ?t ?md ?pf ?cs ?k ?n ?w] =>
        assert (forall chunk i,
                  request_of url entity platform type filePath
                    {| rq_url := u; rq_content := chunk; rq_entity := e;
                       rq_platform := p; rq_type := t; rq_metadata := md i |})
          as Hbuilt
          by (intros chunk i; repeat split; cbn [rq_metadata];
              apply source_file_3; by intros [=]);
        destruct (ingest_each_frame h u e p t md pf _ Hbuilt cs k n w)
          as (new & errs & Heach & HQ)
    end.
    rewrite Heach in Hrun. apply IH in Hrun as (new' & errs' & -> & HQ' & Hcount).
    exists (new ++ new'), (errs ++ errs'). rewrite after_after. split; [done|].
    split; [by apply Forall_app|].
    intros n Hn. rewrite (Hcount n Hn), succeeded_app. lia.
Qed.

Lemma processJSONFile_frame (fuel : nat) (host : CliHost)
    (url filePath entity platform type : jsstring) (w : CliWorld)
    (r : result Z) (w' : CliWorld) :
  processJSONFile fuel host url filePath entity platform type w = Some (r, w') ->
  exists new errs,
    w' = after w new errs /\
    Forall (fun call => request_of url entity platform type filePath (fst call)) new /\
    forall n, r = Ok n -> n = succeeded new.
Proof.
  intros Hrun. unfold processJSONFile in Hrun. unfold cbind at 1, lift in Hrun.
  assert (forall n text,
            (chunks <~ chunks_of fuel text ;;
             ingest_each host url entity platform type
               (fun _ => obj_literal [ (lit "source_file", VStr filePath) ])
               (fun _ => lit "  Error: ") chunks 0 n) w = Some (r, w') ->
            exists new errs,
              w' = after w new errs /\
              Forall (fun call => request_of url entity platform type filePath (fst call))
                     new /\
              forall m, r = Ok m -> m = n + succeeded new) as Hplain.
  { intros n text H. unfold cbind, chunks_of in H.
    destruct (Cli.chunkText fuel text Cli.CHUNK_SIZE Cli.CHUNK_OVERLAP)
      as [chunks|]; [|done].
    match type of H with
    | context [ingest_each ?h ?u ?e ?p ?t ?md ?pf ?cs ?k ?n ?w] =>
        assert (forall chunk i,
                  request_of url entity platform type filePath
                    {| rq_url := u; rq_content := chunk; rq_entity := e;
                       rq_platform := p; rq_type := t; rq_metadata := md i |})
          as Hbuilt
          by (intros chunk i; repeat split; cbn [rq_metadata];
              apply source_file_1);
        destruct (ingest_each_frame h u e p t md pf _ Hbuilt cs k n w)
          as (new & errs & Heach & HQ)
    end.
    rewrite Heach in H. injection H as <- <-. exists new, errs.
    split; [done|]. split; [done|]. by intros m [= <-]. }
  destruct (parseJSON host filePath) as [[entries|messages|conversations|content]|e].
  - apply Hplain in Hrun as (new & errs & ? & ? & Hn). exists new, errs.
    split; [done|]. split; [done|]. intros n Hr. rewrite (Hn n Hr). lia.
  - unfold cbind at 1, lift in Hrun.
    destruct (iterate (lit "parsed.messages") messages) as [items|e].
    + apply each_message_frame in Hrun as (new & errs & ? & ? & Hn).
      exists new, errs. split; [done|]. split; [done|].
      intros n Hr. rewrite (Hn n Hr). lia.
    + injection Hrun as <- <-. exists [], []. rewrite after_nil.
      split; [done|]. split; [constructor|]. by intros n.
  - unfold cbind at 1, lift in Hrun.
    destruct (iterate (lit "parsed.conversations") conversations) as [items|e].
    + apply each_conversation_frame in Hrun as (new & errs & ? & ? & Hn).
      exists new, errs. split; [done|]. split; [done|].
      intros n Hr. rewrite (Hn n Hr). lia.
    + injection Hrun as <- <-. exists [], []. rewrite after_nil.
      split; [done|]. split; [constructor|]. by intros n.
  - apply Hplain in Hrun as (new & errs & ? & ? & Hn). exists new, errs.
    split; [done|]. split; [done|]. intros n Hr. rewrite (Hn n Hr). lia.
  - injection Hrun as <- <-. exists [], []. rewrite after_nil.
    split; [done|]. split; [constructor|]. by intros n.
Qed.

Lemma processMarkdownFile_frame (fuel : nat) (host : CliHost)
    (url filePath entity platform type : jsstring) (w : CliWorld)
    (r : result Z) (w' : CliWorld) :
  processMarkdownFile fuel host url filePath entity platform type w = Some (r, w') ->
  exists new errs,
    w' = after w new errs /\
    Forall (fun call => request_of url entity platform type filePath (fst call)) new /\
    forall n, r = Ok n -> n = succeeded new.
Proof.
  intros Hrun. unfold processMarkdownFile in Hrun. unfold cbind at 1, lift in Hrun.
  destruct (readFile host filePath) as [content|e].
  2:{ injection Hrun as <- <-. exists [], []. rewrite after_nil.
      split; [done|]. split; [constructor|]. by intros n. }
  unfold cbind, chunks_of in Hrun.
  destruct (Cli.chunkText fuel content Cli.CHUNK_SIZE Cli.CHUNK_OVERLAP)
    as [chunks|]; [|done].
  match type of Hrun with
  | context [ingest_each ?h ?u ?e ?p ?t ?md ?pf ?cs ?k ?n ?w] =>
      assert (forall chunk i,
                request_of url entity platform type filePath
                  {| rq_url := u; rq_content := chunk; rq_entity := e;
                     rq_platform := p; rq_type := t; rq_metadata := md i |})
        as Hbuilt
        by (intros chunk i; repeat split; cbn [rq_metadata];
            apply source_file_3; by intros [=]);
      destruct (ingest_each_frame h u e p t md pf _ Hbuilt cs k n w)
        as (new & errs & Heach & HQ)
  end.
  rewrite Heach in Hrun. injection Hrun as <- <-. exists new, errs.
  split; [done|]. split; [done|]. by intros m [= <-].
Qed.

(** The CLI's chunker returns once the fuel exceeds the length of the
    text. *)
Lemma Cli_chunkText_returns (fuel : nat) (text : jsstring) :
  (length text < fuel)%nat ->
  exists chunks,
    Cli.chunkText fuel text Cli.CHUNK_SIZE Cli.CHUNK_OVERLAP = Some chunks.
Proof.
  intros Hfuel.
  destruct (chunkChars_returns text Cli.CHUNK_SIZE Cli.CHUNK_OVERLAP)
    as (chunks & Hcs); [reflexivity | by vm_compute |].
  exists chunks. unfold Cli.chunkText, chunkChars in *.
  destruct (js_length text <=? Cli.CHUNK_SIZE); [done|].
  eapply chunk_loop_fuel_mono; [|exact Hcs]. unfold js_length. lia.
Qed.

(** X19. [processMarkdownFile] throws only when the file cannot be read,
    and then sends nothing. Otherwise, with fuel beyond the length of the
    file, it returns: it has sent one request per chunk, in order, each
    with the path of the file, the position of the chunk and the number
    of chunks as metadata, whatever requests failed; it returns the
    number of requests that succeeded and has written one error line for
    each of the others. *)
Theorem processMarkdownFile_sends_every_chunk (fuel : nat) (host : CliHost)
    (url filePath entity platform type : jsstring) (w : CliWorld) :
  (forall content, readFile host filePath = Ok content ->
     (length content < fuel)%nat) ->
  match readFile host filePath with
  | Err e =>
      processMarkdownFile fuel host url filePath entity platform type w
      = Some (Err e, w)
  | Ok content =>
      exists chunks new errs,
        Cli.chunkText fuel content Cli.CHUNK_SIZE Cli.CHUNK_OVERLAP = Some chunks /\
        processMarkdownFile fuel host url filePath entity platform type w
        = Some (Ok (succeeded new), after w new errs) /\
        map fst new
        = imap (fun k chunk =>
                  {| rq_url := url; rq_content := chunk; rq_entity := entity;
                     rq_platform := platform; rq_type := type;
                     rq_metadata :=
                       obj_literal [ (lit "source_file", VStr filePath);
                                     (lit "chunk_index", VNum (Z.of_nat k));
                                     (lit "total_chunks",
                                      VNum (Z.of_nat (length chunks))) ] |})
               chunks /\
        Z.of_nat (length errs) + succeeded new = Z.of_nat (length chunks)
  end.
Proof.
  intros Hfuel. unfold processMarkdownFile. unfold cbind at 1, lift.
  destruct (readFile host filePath) as [content|e]; [|done].
  destruct (Cli_chunkText_returns fuel content (Hfuel content eq_refl))
    as (chunks & Hchunks).
  unfold cbind, chunks_of. rewrite Hchunks.
  match goal with
  | |- context [ingest_each ?h ?u ?e ?p ?t ?md ?pf ?cs ?k ?n ?w] =>
      destruct (ingest_each_run h u e p t md pf cs k n w)
        as (new & errs & Heach & Hreq & Hcount)
  end.
  exists chunks, new, errs. rewrite Heach. split; [done|]. split; [done|].
  split; [|done]. rewrite Hreq. apply imap_ext. intros k chunk _. done.
Qed.

Lemma processMarkdownFile_sends_every_chunk_witness :
  exists chunks new errs,
    Cli.chunkText 20 (lit "First note.") Cli.CHUNK_SIZE Cli.CHUNK_OVERLAP
    = Some chunks /\
    processMarkdownFile 20 sample_cli_host (lit "http://localhost:8787/mcp")
      (lit "notes/a.md") (lit "mind-1") (lit "file") (lit "note") fresh_process
    = Some (Ok (succeeded new), after fresh_process new errs) /\
    map fst new
    = imap (fun k chunk =>
              {| rq_url := lit "http://localhost:8787/mcp"; rq_content := chunk;
                 rq_entity := lit "mind-1"; rq_platform := lit "file";
                 rq_type := lit "note";
                 rq_metadata :=
                   obj_literal [ (lit "source_file", VStr (lit "notes/a.md"));
                                 (lit "chunk_index", VNum (Z.of_nat k));
                                 (lit "total_chunks",
                                  VNum (Z.of_nat (length chunks))) ] |})
           chunks /\
    Z.of_nat (length errs) + succeeded new = Z.of_nat (length chunks).
Proof.
  apply (processMarkdownFile_sends_every_chunk 20 sample_cli_host
           (lit "http://localhost:8787/mcp") (lit "notes/a.md") (lit "mind-1")
           (lit "file") (lit "note") fresh_process).
  intros content [= <-]. vm_compute. lia.
Defined.

(** X20. Whatever [processJSONFile] does, the requests it sends all go
    to the URL of the module and carry the entity, the platform, the type
    and the path of the file; the count it returns, when it returns, is
    the number of those requests that succeeded; and when the file cannot
    be read or parsed it throws the error without sending anything. *)
Theorem processJSONFile_requests (fuel : nat) (host : CliHost)
    (url filePath entity platform type : jsstring) (w : CliWorld)
    (r : result Z) (w' : CliWorld) :
  processJSONFile fuel host url filePath entity platform type w = Some (r, w') ->
  exists new errs,
    w' = after w new errs /\
    Forall (fun call => request_of url entity platform type filePath (fst call)) new /\
    (forall n, r = Ok n -> n = succeeded new) /\
    (forall e, parseJSON host filePath = Err e -> r = Err e /\ new = [] /\ w' = w).
Proof.
  intros Hrun.
  destruct (processJSONFile_frame _ _ _ _ _ _ _ _ _ _ Hrun)
    as (new & errs & Hw & HQ & Hn).
  destruct (parseJSON host filePath) as [parsed|e] eqn:Hparse.
  - exists new, errs. by repeat split.
  - unfold processJSONFile, cbind, lift in Hrun. rewrite Hparse in Hrun.
    injection Hrun as <- <-. exists [], []. rewrite after_nil.
    split; [done|]. split; [constructor|]. split; [done|].
    by intros e' [= <-].
Qed.

Lemma processJSONFile_requests_witness :
  exists r w' new errs,
    processJSONFile 20 sample_cli_host (lit "http://localhost:8787/mcp")
      (lit "notes/chat.json") (lit "mind-1") (lit "file") (lit "note") fresh_process
    = Some (r, w') /\
    w' = after fresh_process new errs /\
    Forall (fun call =>
              request_of (lit "http://localhost:8787/mcp") (lit "mind-1") (lit "file")
                (lit "note") (lit "notes/chat.json") (fst call)) new /\
    (forall n, r = Ok n -> n = succeeded new) /\
    (forall e, parseJSON sample_cli_host (lit "notes/chat.json") = Err e ->
       r = Err e /\ new = [] /\ w' = fresh_process).
Proof.
  destruct (processJSONFile 20 sample_cli_host (lit "http://localhost:8787/mcp")
      (lit "notes/chat.json") (lit "mind-1") (lit "file") (lit "note") fresh_process)
    as [[r w']|] eqn:Hrun; [|vm_compute in Hrun; discriminate].
  destruct (processJSONFile_requests _ _ _ _ _ _ _ _ _ _ Hrun)
    as (new & errs & H).
  by exists r, w', new, errs.
Defined.

Lemma message_line_Ok (m : Json) :
  m <> JNull -> exists line, message_line m = Ok line.
Proof. intros Hm. destruct m; try done; unfold message_line, read; by eexists. Qed.

Lemma message_line_null :
  message_line JNull = Err (lit "Cannot read properties of null (reading 'role')").
Proof. reflexivity. Qed.

(** The metadata of the requests for a message of a chat export. *)
Lemma each_message_run (fuel : nat) (host : CliHost)
    (url filePath entity platform type : jsstring) :
  forall messages,
    Forall (fun m => m <> JNull) messages ->
    (forall m line, m ∈ messages -> message_line m = Ok line ->
       (length line < fuel)%nat) ->
    forall n0 w,
    exists new errs chunkss,
      each_message fuel host url filePath entity platform type messages n0 w
      = Some (Ok (n0 + succeeded new), after w new errs) /\
      Forall2 (fun m chunks =>
                 exists line, message_line m = Ok line /\
                   Cli.chunkText fuel line Cli.CHUNK_SIZE Cli.CHUNK_OVERLAP
                   = Some chunks) messages chunkss /\
      map fst new
      = concat (zip_with
                  (fun m chunks =>
                     map (fun chunk =>
                            {| rq_url := url; rq_content := chunk;
                               rq_entity := entity; rq_platform := platform;
                               rq_type := type;
                               rq_metadata :=
                                 obj_literal
                                   [ (lit "source_file", VStr filePath);
                                     (lit "message_id", read_val m (lit "id"));
                                     (lit "timestamp",
                                      js_or (read_val m (lit "timestamp"))
                                            (read_val m (lit "created_at"))) ] |})
                         chunks) messages chunkss).
Proof.
  induction messages as [|msg rest IH]; intros Hnn Hfuel n0 w.
  - exists [], [], []. rewrite after_nil, succeeded_nil, Z.add_0_r.
    split; [done|]. split; [constructor|done].
  - apply Forall_cons in Hnn as [Hmsg Hrest].
    destruct (message_line_Ok msg Hmsg) as (line & Hline).
    destruct (Cli_chunkText_returns fuel line) as (chunks & Hchunks).
    { apply (Hfuel msg); [left | done]. }
    cbn [each_message]. unfold cbind at 1, lift. rewrite Hline.
    unfold cbind at 1, chunks_of. rewrite Hchunks. unfold cbind at 1.
    match goal with
    | |- context [ingest_each ?h ?u ?e ?p ?t ?md ?pf ?cs ?k ?n ?w] =>
        destruct (ingest_each_run h u e p t md pf cs k n w)
          as (new & errs & Heach & Hreq & _)
    end.
    rewrite Heach.
    destruct (IH Hrest (fun m l Hin => Hfuel m l (list_elem_of_further _ _ _ Hin))
                (n0 + succeeded new) (after w new errs))
      as (new' & errs' & chunkss & -> & Hall & Hreq').
    exists (new ++ new'), (errs ++ errs'), (chunks :: chunkss).
    rewrite after_after, succeeded_app. split; [do 3 f_equal; lia|].
    split; [constructor; [by exists line | done]|].
    rewrite map_app, Hreq, Hreq'. cbn [zip_with concat]. f_equal.
    clear. generalize 0%nat. induction chunks as [|c cs IHc]; intros k; [done|].
    cbn [imap map]. f_equal. apply (IHc (S k)).
Qed.

(** Once the messages before it are sent, the loop goes on with the
    rest. *)
Lemma each_message_app (fuel : nat) (host : CliHost)
    (url filePath entity platform type : jsstring) (rest : list Json) :
  forall pre n0 w n1 w1,
    each_message fuel host url filePath entity platform type pre n0 w
    = Some (Ok n1, w1) ->
    each_message fuel host url filePath entity platform type (pre ++ rest) n0 w
    = each_message fuel host url filePath entity platform type rest n1 w1.
Proof.
  induction pre as [|msg pre IH]; intros n0 w n1 w1 Hpre.
  - by injection Hpre as <- <-.
  - cbn [each_message app] in *. unfold cbind at 1, lift in Hpre.
    unfold cbind at 1, lift.
    destruct (message_line msg) as [line|e]; [|done].
    unfold cbind at 1, chunks_of in Hpre. unfold cbind at 1, chunks_of.
    destruct (Cli.chunkText fuel line Cli.CHUNK_SIZE Cli.CHUNK_OVERLAP)
      as [chunks|]; [|done].
    unfold cbind at 1 in Hpre. unfold cbind at 1.
    match goal with
    | |- context [ingest_each ?h ?u ?e ?p ?t ?md ?pf ?cs ?k ?n ?w] =>
        destruct (ingest_each_run h u e p t md pf cs k n w)
          as (new & errs & Heach & _)
    end.
    rewrite Heach in *. by apply IH.
Qed.

(** X21. A chat export whose [messages] is an array is sent message by
    message: each message that is not [null] gives the line
    [[role]: content], chunked, and one request per chunk with the id and
    the timestamp of the message as metadata. The first [null] message
    makes the run throw a TypeError, after the messages before it have
    been sent and with nothing sent for the ones after it; without one
    the run returns the number of requests that succeeded. *)
Theorem processJSONFile_chat_export (fuel : nat) (host : CliHost)
    (url filePath entity platform type : jsstring) (messages : list Json)
    (w : CliWorld) :
  parseJSON host filePath = Ok (ParsedChat (JArr messages)) ->
  (forall m line, m ∈ messages -> message_line m = Ok line ->
     (length line < fuel)%nat) ->
  exists r new errs sent chunkss,
    processJSONFile fuel host url filePath entity platform type w
    = Some (r, after w new errs) /\
    Forall2 (fun m chunks =>
               exists line, message_line m = Ok line /\
                 Cli.chunkText fuel line Cli.CHUNK_SIZE Cli.CHUNK_OVERLAP
                 = Some chunks) sent chunkss /\
    map fst new
    = concat (zip_with
                (fun m chunks =>
                   map (fun chunk =>
                          {| rq_url := url; rq_content := chunk;
                             rq_entity := entity; rq_platform := platform;
                             rq_type := type;
                             rq_metadata :=
                               obj_literal
                                 [ (lit "source_file", VStr filePath);
                                   (lit "message_id", read_val m (lit "id"));
                                   (lit "timestamp",
                                    js_or (read_val m (lit "timestamp"))
                                          (read_val m (lit "created_at"))) ] |})
                       chunks) sent chunkss) /\
    (JNull ∉ sent) /\
    ((sent = messages /\ r = Ok (succeeded new)) \/
     (exists rest, messages = sent ++ JNull :: rest /\
        r = Err (lit "Cannot read properties of null (reading 'role')"))).
Proof.
  intros Hparse Hfuel. unfold processJSONFile. unfold cbind at 1, lift.
  rewrite Hparse. unfold cbind at 1, lift. cbn [iterate].
  assert (exists sent, (JNull ∉ sent) /\
            (sent = messages \/ exists rest, messages = sent ++ JNull :: rest))
    as (sent & Hsent & Hcase).
  { clear. induction messages as [|m rest (sent & Hs & Hc)].
    - exists []. split; [by intros ?%elem_of_nil | by left].
    - assert (m = JNull \/ m <> JNull) as [->|Hm]
        by (destruct m; (by left) || (by right)).
      + exists []. split; [by intros ?%elem_of_nil | right; by exists rest].
      + exists (m :: sent). split.
        * intros [?|?]%elem_of_cons; [congruence | done].
        * destruct Hc as [->|(rest' & ->)]; [by left | right; by exists rest']. }
  assert (Forall (fun m => m <> JNull) sent) as Hnn.
  { apply Forall_forall. intros m Hin ->. done. }
  assert (forall m line, m ∈ sent -> message_line m = Ok line ->
            (length line < fuel)%nat) as Hfuel'.
  { intros m line Hin. apply Hfuel.
    destruct Hcase as [->|(rest & ->)]; [done|]. apply elem_of_app. by left. }
  destruct (each_message_run fuel host url filePath entity platform type sent
              Hnn Hfuel' 0 w) as (new & errs & chunkss & Hrun & Hall & Hreq).
  destruct Hcase as [->|(rest & ->)].
  - exists (Ok (succeeded new)), new, errs, messages, chunkss.
    rewrite Hrun. split; [done|]. split; [done|]. split; [done|].
    split; [done|]. by left.
  - exists (Err (lit "Cannot read properties of null (reading 'role')")),
      new, errs, sent, chunkss.
    rewrite (each_message_app _ _ _ _ _ _ _ _ _ _ _ _ _ Hrun).
    split; [done|]. split; [done|]. split; [done|]. split; [done|].
    right. by exists rest.
Qed.

Lemma processJSONFile_chat_export_witness :
  exists r new errs sent chunkss,
    processJSONFile 20 sample_cli_host (lit "http://localhost:8787/mcp")
      (lit "notes/chat.json") (lit "mind-1") (lit "file") (lit "note") fresh_process
    = Some (r, after fresh_process new errs) /\
    Forall2 (fun m chunks =>
               exists line, message_line m = Ok line /\
                 Cli.chunkText 20 line Cli.CHUNK_SIZE Cli.CHUNK_OVERLAP
                 = Some chunks) sent chunkss /\
    map fst new
    = concat (zip_with
                (fun m chunks =>
                   map (fun chunk =>
                          {| rq_url := lit "http://localhost:8787/mcp";
                             rq_content := chunk;
                             rq_entity := lit "mind-1"; rq_platform := lit "file";
                             rq_type := lit "note";
                             rq_metadata :=
                               obj_literal
                                 [ (lit "source_file", VStr (lit "notes/chat.json"));
                                   (lit "message_id", read_val m (lit "id"));
                                   (lit "timestamp",
                                    js_or (read_val m (lit "timestamp"))
                                          (read_val m (lit "created_at"))) ] |})
                       chunks) sent chunkss) /\
    (JNull ∉ sent) /\
    ((sent = [ JObj [ (lit "role", JStr (lit "user"));
                      (lit "content", JStr (lit "hello"));
                      (lit "id", JNum 7) ];
               JObj [ (lit "author", JStr (lit "bot"));
                      (lit "text", JStr (lit "hi"));
                      (lit "created_at", JStr (lit "2024")) ] ] /\
      r = Ok (succeeded new)) \/
     (exists rest,
        [ JObj [ (lit "role", JStr (lit "user"));
                 (lit "content", JStr (lit "hello"));
                 (lit "id", JNum 7) ];
          JObj [ (lit "author", JStr (lit "bot"));
                 (lit "text", JStr (lit "hi"));
                 (lit "created_at", JStr (lit "2024")) ] ]
        = sent ++ JNull :: rest /\
        r = Err (lit "Cannot read properties of null (reading 'role')"))).
Proof.
  apply (processJSONFile_chat_export 20 sample_cli_host
           (lit "http://localhost:8787/mcp") (lit "notes/chat.json") (lit "mind-1")
           (lit "file") (lit "note")).
  - reflexivity.
  - intros m line Hin Hline.
    apply list_elem_of_In in Hin. simpl in Hin.
    destruct Hin as [<-|[<-|[]]]; injection Hline as <-; vm_compute; lia.
Defined.

(** What [processDirectory] needs of a file to get past it. *)
Lemma processMarkdownFile_Ok (fuel : nat) (host : CliHost)
    (url filePath entity platform type : jsstring) (w : CliWorld) (n : Z)
    (w' : CliWorld) :
  processMarkdownFile fuel host url filePath entity platform type w
  = Some (Ok n, w') ->
  exists content, readFile host filePath = Ok content.
Proof.
  unfold processMarkdownFile, cbind, lift.
  destruct (readFile host filePath) as [content|e]; [by eexists | done].
Qed.

Lemma processJSONFile_Ok (fuel : nat) (host : CliHost)
    (url filePath entity platform type : jsstring) (w : CliWorld) (n : Z)
    (w' : CliWorld) :
  processJSONFile fuel host url filePath entity platform type w
  = Some (Ok n, w') ->
  exists parsed, parseJSON host filePath = Ok parsed.
Proof.
  unfold processJSONFile. unfold cbind at 1, lift.
  destruct (parseJSON host filePath) as [parsed|e]; [by eexists | done].
Qed.

Lemma each_file_frame (fuel : nat) (host : CliHost)
    (url entity platform type : jsstring) :
  forall files n0 w r w',
    each_file fuel host url entity platform type files n0 w = Some (r, w') ->
    exists new errs,
      w' = after w new errs /\
      Forall (fun call =>
                exists filePath, filePath ∈ files /\
                  request_of url entity platform type filePath (fst call)) new /\
      forall n, r = Ok n ->
        n = n0 + succeeded new /\
        Forall (fun filePath =>
                  match kind_of (extname_lower host filePath) with
                  | Markdown => exists content, readFile host filePath = Ok content
                  | JsonFile => exists parsed, parseJSON host filePath = Ok parsed
                  | Unsupported => True
                  end) files.
Proof.
  induction files as [|filePath rest IH]; intros n0 w r w' Hrun.
  - injection Hrun as <- <-. exists [], []. rewrite after_nil.
    split; [done|]. split; [constructor|]. intros n [= <-].
    rewrite succeeded_nil. split; [lia | constructor].
  - cbn [each_file] in Hrun.
    assert (forall (step : C Z),
              (forall r1 w1, step w = Some (r1, w1) ->
                 exists new errs,
                   w1 = after w new errs /\
                   Forall (fun call =>
                             request_of url entity platform type filePath (fst call))
                          new /\
                   forall n, r1 = Ok n -> n = succeeded new) ->
              (forall n w1, step w = Some (Ok n, w1) ->
                 match kind_of (extname_lower host filePath) with
                 | Markdown => exists content, readFile host filePath = Ok content
                 | JsonFile => exists parsed, parseJSON host filePath = Ok parsed
                 | Unsupported => True
                 end) ->
              (n <~ step ;;
               each_file fuel host url entity platform type rest (n0 + n)) w
              = Some (r, w') ->
              exists new errs,
                w' = after w new errs /\
                Forall (fun call =>
                          exists f, f ∈ filePath :: rest /\
                            request_of url entity platform type f (fst call)) new /\
                forall n, r = Ok n ->
                  n = n0 + succeeded new /\
                  Forall (fun f =>
                            match kind_of (extname_lower host f) with
                            | Markdown => exists content, readFile host f = Ok content
                            | JsonFile => exists parsed, parseJSON host f = Ok parsed
                            | Unsupported => True
                            end) (filePath :: rest)) as Hstep.
    { intros step Hframe Hok H. unfold cbind in H.
      destruct (step w) as [[[n1|e] w1]|] eqn:Hs; [| |done].
      - destruct (Hframe _ _ eq_refl) as (new & errs & -> & HQ & Hn).
        apply IH in H as (new' & errs' & -> & HQ' & Hn').
        exists (new ++ new'), (errs ++ errs'). rewrite after_after.
        split; [done|]. split.
        + apply Forall_app. split.
          * eapply Forall_impl; [exact HQ|]. intros call Hc.
            exists filePath. split; [left | done].
          * eapply Forall_impl; [exact HQ'|]. intros call (f & Hin & Hc).
            exists f. split; [by right | done].
        + intros n Hr. destruct (Hn' n Hr) as [-> Hall].
          rewrite succeeded_app, (Hn n1 eq_refl). split; [lia|].
          constructor; [|done]. by eapply Hok.
      - destruct (Hframe _ _ eq_refl) as (new & errs & -> & HQ & _).
        injection H as <- <-. exists new, errs. split; [done|]. split.
        + eapply Forall_impl; [exact HQ|]. intros call Hc.
          exists filePath. split; [left | done].
        + by intros n. }
    destruct (kind_of (extname_lower host filePath)) eqn:Hkind.
    + apply (Hstep _ (processMarkdownFile_frame _ _ _ _ _ _ _ _)
                     (processMarkdownFile_Ok _ _ _ _ _ _ _ _) Hrun).
    + apply (Hstep _ (processJSONFile_frame _ _ _ _ _ _ _ _)
                     (processJSONFile_Ok _ _ _ _ _ _ _ _) Hrun).
    + apply IH in Hrun as (new & errs & -> & HQ & Hn). exists new, errs.
      split; [done|]. split.
      * eapply Forall_impl; [exact HQ|]. intros call (f & Hin & Hc).
        exists f. split; [by right | done].
      * intros n Hr. destruct (Hn n Hr) as [-> Hall]. split; [done|].
        constructor; [by rewrite Hkind | done].
Qed.

Lemma processDirectory_frame (fuel : nat) (host : CliHost)
    (url dirPath entity platform type : jsstring) (w : CliWorld)
    (r : result Z) (w' : CliWorld) :
  processDirectory fuel host url dirPath entity platform type w = Some (r, w') ->
  exists new errs,
    w' = after w new errs /\
    Forall (fun call =>
              exists filePath,
                request_of url entity platform type filePath (fst call)) new.
Proof.
  unfold processDirectory. unfold cbind at 1, lift.
  destruct (readdir host dirPath) as [listing|e].
  - intros (new & errs & -> & HQ & _)%each_file_frame. exists new, errs.
    split; [done|]. eapply Forall_impl; [exact HQ|].
    intros call (f & _ & Hc). by exists f.
  - intros [= <- <-]. exists [], []. rewrite after_nil. split; [done | constructor].
Qed.

(** X22. [processDirectory] does not isolate files: it returns a total
    only if the directory could be listed and every matching file could
    be read and, for a JSON file, parsed, so that one file that cannot
    makes the whole run throw. A total it returns is the number of
    requests that succeeded, and every request carries the path of a
    matching file of the listing. *)
Theorem processDirectory_fails_fast (fuel : nat) (host : CliHost)
    (url dirPath entity platform type : jsstring) (w : CliWorld)
    (total : Z) (w' : CliWorld) :
  processDirectory fuel host url dirPath entity platform type w
  = Some (Ok total, w') ->
  exists listing new errs,
    readdir host dirPath = Ok listing /\
    w' = after w new errs /\
    total = succeeded new /\
    Forall (fun call =>
              exists filePath,
                filePath ∈ matchingFiles host dirPath listing /\
                request_of url entity platform type filePath (fst call)) new /\
    Forall (fun filePath =>
              match kind_of (extname_lower host filePath) with
              | Markdown => exists content, readFile host filePath = Ok content
              | JsonFile => exists parsed, parseJSON host filePath = Ok parsed
              | Unsupported => True
              end) (matchingFiles host dirPath listing).
Proof.
  unfold processDirectory. unfold cbind at 1, lift.
  destruct (readdir host dirPath) as [listing|e]; [|done].
  intros (new & errs & -> & HQ & Hn)%each_file_frame.
  destruct (Hn total eq_refl) as [-> Hall].
  exists listing, new, errs. split; [done|]. split; [done|].
  split; [lia|]. by split.
Qed.

Lemma processDirectory_fails_fast_witness :
  exists total w' listing new errs,
    processDirectory 20 sample_cli_host (lit "http://localhost:8787/mcp")
      (lit "notes") (lit "mind-1") (lit "file") (lit "note") fresh_process
    = Some (Ok total, w') /\
    readdir sample_cli_host (lit "notes") = Ok listing /\
    w' = after fresh_process new errs /\
    total = succeeded new /\
    Forall (fun call =>
              exists filePath,
                filePath ∈ matchingFiles sample_cli_host (lit "notes") listing /\
                request_of (lit "http://localhost:8787/mcp") (lit "mind-1")
                  (lit "file") (lit "note") filePath (fst call)) new /\
    Forall (fun filePath =>
              match kind_of (extname_lower sample_cli_host filePath) with
              | Markdown =>
                  exists content, readFile sample_cli_host filePath = Ok content
              | JsonFile =>
                  exists parsed, parseJSON sample_cli_host filePath = Ok parsed
              | Unsupported => True
              end) (matchingFiles sample_cli_host (lit "notes") listing).
Proof.
  destruct (processDirectory 20 sample_cli_host (lit "http://localhost:8787/mcp")
      (lit "notes") (lit "mind-1") (lit "file") (lit "note") fresh_process)
    as [[[total|e] w']|] eqn:Hrun;
    [| vm_compute in Hrun; discriminate | vm_compute in Hrun; discriminate].
  destruct (processDirectory_fails_fast _ _ _ _ _ _ _ _ _ _ Hrun)
    as (listing & new & errs & H).
  by exists total, w', listing, new, errs.
Defined.

Lemma indexOf_bounds (args : list jsstring) (flag : jsstring) :
  -1 <= indexOf args flag < Z.of_nat (length args).
Proof.
  induction args as [|a rest IH]; simpl; [lia|].
  case_bool_decide; [lia|].
  destruct (indexOf rest flag <? 0) eqn:E; lia.
Qed.

Lemma indexOf_absent (args : list jsstring) (flag : jsstring) :
  flag ∉ args -> indexOf args flag = -1.
Proof.
  induction args as [|a rest IH]; intros Hnot; simpl; [done|].
  apply not_elem_of_cons in Hnot as [Hne Hrest].
  case_bool_decide; [congruence|]. rewrite (IH Hrest). done.
Qed.

Lemma indexOf_first (pre rest : list jsstring) (flag : jsstring) :
  flag ∉ pre -> indexOf (pre ++ flag :: rest) flag = Z.of_nat (length pre).
Proof.
  induction pre as [|a pre IH]; intros Hnot; simpl.
  - by case_bool_decide.
  - apply not_elem_of_cons in Hnot as [Hne Hpre].
    case_bool_decide; [congruence|]. rewrite (IH Hpre).
    destruct (Z.of_nat (length pre) <? 0) eqn:E; lia.
Qed.

(** X23. [getArg] looks only at the first occurrence of the flag and
    takes whatever follows it, be it another flag: it is [null] when the
    flag is absent, when its first occurrence is the last argument, and
    when the argument after it is the empty string, even if the flag
    occurs again later with a value. *)
Theorem getArg_first_occurrence (args : list jsstring) (flag : jsstring) :
  (flag ∉ args -> getArg args flag = VNull) /\
  (forall pre rest,
     args = pre ++ flag :: rest -> flag ∉ pre ->
     getArg args flag
     = match rest with
       | [] => VNull
       | [] :: _ => VNull
       | value :: _ => VStr value
       end).
Proof.
  split.
  - intros Hnot. unfold getArg. by rewrite (indexOf_absent _ _ Hnot).
  - intros pre rest -> Hnot. unfold getArg. rewrite (indexOf_first _ _ _ Hnot).
    destruct (0 <=? Z.of_nat (length pre)) eqn:E; [|apply Z.leb_gt in E; lia].
    replace (Z.to_nat (Z.of_nat (length pre) + 1)) with (length pre + 1)%nat by lia.
    rewrite lookup_app_r by lia.
    replace (length pre + 1 - length pre)%nat with 1%nat by lia.
    destruct rest as [|[|c value] rest]; done.
Qed.

Lemma getArg_cases (args : list jsstring) (flag : jsstring) :
  getArg args flag = VNull \/
  exists value, value <> [] /\ getArg args flag = VStr value.
Proof.
  unfold getArg. destruct (0 <=? indexOf args flag); [|by left].
  destruct (args !! Z.to_nat (indexOf args flag + 1)) as [[|c v]|]; [by left | | by left].
  right. by exists (c :: v).
Qed.

(** X24. Past the help test, [main] ends the process with code 1,
    having written one line and sent nothing, when [--entity] has no
    value, or when neither [--file] nor [--dir] has one; the missing
    entity is reported first. *)
Theorem main_refuses (fuel : nat) (host : CliHost) (url : jsstring)
    (args : list jsstring) (w : CliWorld) :
  args <> [] -> lit "--help" ∉ args ->
  getArg args (lit "--entity") = VNull \/
  (getArg args (lit "--file") = VNull /\ getArg args (lit "--dir") = VNull) ->
  exists w',
    main fuel host url args w = Some (Ok (Exited 1), w') /\
    calls w' = calls w /\
    stderr w'
    = stderr w ++
      [ if truthy (getArg args (lit "--entity"))
        then lit "Error: --file or --dir is required"
        else lit "Error: --entity is required" ].
Proof.
  intros Hne Hhelp Hcase. unfold main.
  rewrite (bool_decide_eq_false_2 _ Hhelp), (bool_decide_eq_false_2 _ Hne).
  cbn [orb]. unfold cbind at 1.
  assert (exists w1,
            (if truthy (getArg args (lit "--url"))
             then set_env_UNIFIED_MIND_URL (getArg args (lit "--url"))
             else cret tt) w = Some (Ok tt, w1) /\
            calls w1 = calls w /\ stderr w1 = stderr w) as (w1 & -> & Hc & He).
  { destruct (truthy (getArg args (lit "--url"))); by eexists. }
  destruct (truthy (getArg args (lit "--entity"))) eqn:Hentity; cbn [negb].
  - destruct Hcase as [Hnull|[Hfile Hdir]]; [by rewrite Hnull in Hentity|].
    rewrite Hfile, Hdir. cbn [truthy]. unfold cbind, console_error, cret.
    eexists. split; [reflexivity|]. simpl. by rewrite Hc, He.
  - unfold cbind, console_error, cret.
    eexists. split; [reflexivity|]. simpl. by rewrite Hc, He.
Qed.

Lemma main_refuses_witness :
  exists w',
    main 0 sample_cli_host (lit "http://localhost:8787/mcp")
      [lit "--file"; lit "notes/a.md"; lit "--entity"] fresh_process
    = Some (Ok (Exited 1), w') /\
    calls w' = [] /\
    stderr w' = [lit "Error: --entity is required"].
Proof.
  apply (main_refuses 0 sample_cli_host (lit "http://localhost:8787/mcp")
           [lit "--file"; lit "notes/a.md"; lit "--entity"] fresh_process).
  - done.
  - intros Hin. apply list_elem_of_In in Hin. simpl in Hin.
    destruct Hin as [H|[H|[H|[]]]]; discriminate H.
  - left. reflexivity.
Defined.

(** X25. A file whose extension, lower-cased, is none of [.md], [.txt]
    and [.json] is not an error for [main]: it writes a line naming the
    extension, sends nothing and returns, so that the process ends with
    code 0; [--dir] is not looked at when [--file] has a value. *)
Theorem main_unsupported_file_type (fuel : nat) (host : CliHost) (url : jsstring)
    (args : list jsstring) (file : jsstring) (w : CliWorld) :
  args <> [] -> lit "--help" ∉ args ->
  truthy (getArg args (lit "--entity")) = true ->
  getArg args (lit "--file") = VStr file ->
  kind_of (extname_lower host file) = Unsupported ->
  exists w',
    main fuel host url args w = Some (Ok Returned, w') /\
    calls w' = calls w /\
    stderr w' = stderr w ++ [lit "Unsupported file type: " ++ extname_lower host file].
Proof.
  intros Hne Hhelp Hentity Hfile Hkind. unfold main.
  rewrite (bool_decide_eq_false_2 _ Hhelp), (bool_decide_eq_false_2 _ Hne).
  cbn [orb]. unfold cbind at 1.
  assert (exists w1,
            (if truthy (getArg args (lit "--url"))
             then set_env_UNIFIED_MIND_URL (getArg args (lit "--url"))
             else cret tt) w = Some (Ok tt, w1) /\
            calls w1 = calls w /\ stderr w1 = stderr w) as (w1 & -> & Hc & He).
  { destruct (truthy (getArg args (lit "--url"))); by eexists. }
  rewrite Hentity. cbn [negb].
  destruct (getArg_cases args (lit "--file")) as [Hnull|(v & Hv & Hval)];
    [congruence|].
  rewrite Hfile in Hval. injection Hval as ->.
  rewrite Hfile. destruct v as [|c v]; [done|]. cbn [truthy ToString].
  rewrite Hkind. unfold cbind, console_error, cret.
  eexists. split; [reflexivity|]. simpl. by rewrite Hc, He.
Qed.

Lemma main_unsupported_file_type_witness :
  exists w',
    main 0 sample_cli_host (lit "http://localhost:8787/mcp")
      [lit "--entity"; lit "mind-1"; lit "--dir"; lit "notes";
       lit "--file"; lit "notes/a.PDF"] fresh_process
    = Some (Ok Returned, w') /\
    calls w' = [] /\
    stderr w' = [lit "Unsupported file type: .pdf"].
Proof.
  apply (main_unsupported_file_type 0 sample_cli_host
           (lit "http://localhost:8787/mcp")
           [lit "--entity"; lit "mind-1"; lit "--dir"; lit "notes";
            lit "--file"; lit "notes/a.PDF"] (lit "notes/a.PDF") fresh_process).
  - done.
  - intros Hin. apply list_elem_of_In in Hin. simpl in Hin.
    repeat (destruct Hin as [Hin|Hin]; [discriminate Hin|]). done.
  - reflexivity.
  - reflexivity.
  - reflexivity.
Defined.

(** X26. The [--url] option has no effect on the run it is given to:
    the URL of the requests was fixed when the module was loaded, from
    the environment at that moment or the default, and [main] only
    assigns the option to the environment afterwards. Every request of a
    run goes to that first URL, for the [--entity] of the command line
    and its [--platform] and [--type] or their defaults [file] and
    [conversation]. *)
Theorem program_url_fixed_at_load (fuel : nat) (host : CliHost)
    (args : list jsstring) (w : CliWorld) (r : result Outcome) (w' : CliWorld) :
  program fuel host args w = Some (r, w') ->
  exists new errs,
    calls w' = calls w ++ new /\
    stderr w' = stderr w ++ errs /\
    Forall (fun call =>
              rq_url (fst call)
              = ToString (js_or (env_UNIFIED_MIND_URL w)
                                (VStr (lit "http://localhost:8787/mcp"))) /\
              rq_entity (fst call) = ToString (getArg args (lit "--entity")) /\
              rq_platform (fst call)
              = ToString (js_or (getArg args (lit "--platform")) (VStr (lit "file"))) /\
              rq_type (fst call)
              = ToString (js_or (getArg args (lit "--type"))
                                (VStr (lit "conversation")))) new /\
    env_UNIFIED_MIND_URL w'
    = (if bool_decide (lit "--help" ∈ args) || bool_decide (args = [])
       then env_UNIFIED_MIND_URL w
       else match getArg args (lit "--url") with
            | VStr value => VStr value
            | _ => env_UNIFIED_MIND_URL w
            end).
Proof.
  unfold program, main, UNIFIED_MIND_URL.
  set (url := ToString (js_or (env_UNIFIED_MIND_URL w)
                              (VStr (lit "http://localhost:8787/mcp")))).
  set (entity := ToString (getArg args (lit "--entity"))).
  set (platform := ToString (js_or (getArg args (lit "--platform")) (VStr (lit "file")))).
  set (type := ToString (js_or (getArg args (lit "--type"))
                               (VStr (lit "conversation")))).
  destruct (bool_decide (lit "--help" ∈ args) || bool_decide (args = [])).
  { intros [= <- <-]. exists [], []. rewrite !app_nil_r. by repeat split. }
  unfold cbind at 1.
  set (env' := match getArg args (lit "--url") with
               | VStr value => VStr value
               | _ => env_UNIFIED_MIND_URL w
               end).
  assert (exists w1,
            (if truthy (getArg args (lit "--url"))
             then set_env_UNIFIED_MIND_URL (getArg args (lit "--url"))
             else cret tt) w = Some (Ok tt, w1) /\
            calls w1 = calls w /\ stderr w1 = stderr w /\
            env_UNIFIED_MIND_URL w1 = env') as (w1 & -> & Hc & He & Hu).
  { subst env'. destruct (getArg_cases args (lit "--url")) as [->|(v & Hv & ->)].
    - by eexists.
    - destruct v as [|c v]; [done|]. by eexists. }
  assert (forall (A : Type) (step : C A),
            (forall r1 w2, step w1 = Some (r1, w2) ->
               exists new errs,
                 w2 = after w1 new errs /\
                 Forall (fun call => exists filePath,
                           request_of url entity platform type filePath (fst call))
                        new) ->
            (_ <~ step ;; cret Returned) w1 = Some (r, w') ->
            exists new errs,
              calls w' = calls w ++ new /\
              stderr w' = stderr w ++ errs /\
              Forall (fun call =>
                        rq_url (fst call) = url /\ rq_entity (fst call) = entity /\
                        rq_platform (fst call) = platform /\
                        rq_type (fst call) = type) new /\
              env_UNIFIED_MIND_URL w' = env') as Hstep.
  { intros A step Hframe H. unfold cbind, cret in H.
    destruct (step w1) as [[r1 w2]|] eqn:Hs; [|done].
    destruct (Hframe _ _ eq_refl) as (new & errs & -> & HQ).
    assert (w' = after w1 new errs) as ->
      by (destruct r1; by injection H as <- <-).
    exists new, errs. cbn [after calls stderr env_UNIFIED_MIND_URL].
    rewrite Hc, He, Hu. split; [done|]. split; [done|]. split; [|done].
    eapply Forall_impl; [exact HQ|].
    intros call (f & Hu' & He' & Hp & Ht & _). done. }
  assert (forall line (o : Outcome),
            (_ <~ console_error line ;; cret o) w1 = Some (r, w') ->
            exists new errs,
              calls w' = calls w ++ new /\
              stderr w' = stderr w ++ errs /\
              Forall (fun call =>
                        rq_url (fst call) = url /\ rq_entity (fst call) = entity /\
                        rq_platform (fst call) = platform /\
                        rq_type (fst call) = type) new /\
              env_UNIFIED_MIND_URL w' = env') as Hline.
  { intros line o [= <- <-]. exists [], [line]. simpl.
    rewrite Hc, He, Hu, app_nil_r. by repeat split. }
  destruct (negb (truthy (getArg args (lit "--entity")))); [apply Hline|].
  destruct (truthy (getArg args (lit "--file"))).
  - destruct (kind_of _).
    + apply (Hstep _ _). intros r1 w2 Hrun.
      destruct (processMarkdownFile_frame _ _ _ _ _ _ _ _ _ _ Hrun)
        as (new & errs & -> & HQ & _).
      exists new, errs. split; [done|]. eapply Forall_impl; [exact HQ|].
      intros call Hcall. eexists. exact Hcall.
    + apply (Hstep _ _). intros r1 w2 Hrun.
      destruct (processJSONFile_frame _ _ _ _ _ _ _ _ _ _ Hrun)
        as (new & errs & -> & HQ & _).
      exists new, errs. split; [done|]. eapply Forall_impl; [exact HQ|].
      intros call Hcall. eexists. exact Hcall.
    + apply Hline.
  - destruct (truthy (getArg args (lit "--dir"))); [|apply Hline].
    apply (Hstep _ _). intros r1 w2 Hrun.
    by apply processDirectory_frame in Hrun.
Qed.

(** The environment names one worker and [--url] another: the request
    goes to the first, and the second is in the environment when the run
    is over. *)
Lemma program_url_fixed_at_load_witness :
  exists r w',
    program 20 sample_cli_host
      [lit "--file"; lit "notes/a.md"; lit "--entity"; lit "mind-1";
       lit "--url"; lit "http://other/mcp"]
      {| calls := []; stderr := []; env_UNIFIED_MIND_URL := VStr (lit "http://one/mcp") |}
    = Some (r, w') /\
    map (fun call => rq_url (fst call)) (calls w') = [lit "http://one/mcp"] /\
    env_UNIFIED_MIND_URL w' = VStr (lit "http://other/mcp").
Proof.
  destruct (program 20 sample_cli_host
      [lit "--file"; lit "notes/a.md"; lit "--entity"; lit "mind-1";
       lit "--url"; lit "http://other/mcp"]
      {| calls := []; stderr := [];
         env_UNIFIED_MIND_URL := VStr (lit "http://one/mcp") |})
    as [[r w']|] eqn:Hrun; [|vm_compute in Hrun; discriminate].
  destruct (program_url_fixed_at_load _ _ _ _ _ _ Hrun)
    as (new & errs & Hcalls & _ & Hall & Henv).
  exists r, w'. split; [done|]. split.
  - vm_compute in Hrun. injection Hrun as <- <-. reflexivity.
  - rewrite Henv. reflexivity.
Defined.

(** X27. A conversation that has no [messages], or a falsy one, is not
    skipped: its text is the empty string, which the chunker returns as
    one empty chunk, and the loop sends one request with empty content
    for it, with the id and the title of the conversation, before going
    on with the next one. *)
Theorem conversation_without_messages_is_sent (fuel : nat) (host : CliHost)
    (url filePath entity platform type : jsstring) (conv : Json)
    (messages : option Json) (rest : list Json) (n0 : Z) (w : CliWorld) :
  read conv (lit "messages") = Ok messages ->
  truthy (val_opt messages) = false ->
  exists (ok : bool) (errs : list jsstring),
    each_conversation fuel host url filePath entity platform type (conv :: rest) n0 w
    = each_conversation fuel host url filePath entity platform type rest
        (n0 + (if ok then 1 else 0))
        (after w
           [ ({| rq_url := url; rq_content := []; rq_entity := entity;
                 rq_platform := platform; rq_type := type;
                 rq_metadata :=
                   obj_literal
                     [ (lit "source_file", VStr filePath);
                       (lit "conversation_id", read_val conv (lit "id"));
                       (lit "conversation_title", read_val conv (lit "title")) ] |},
              ok) ]
           errs) /\
    length errs = (if ok then 0%nat else 1%nat).
Proof.
  intros Hread Hfalsy. cbn [each_conversation]. unfold cbind at 1, lift.
  unfold conversation_text. rewrite Hread, Hfalsy.
  unfold cbind at 1, chunks_of. unfold Cli.chunkText.
  rewrite chunkChars_short by (by vm_compute).
  unfold cbind at 1.
  match goal with
  | |- context [ingest_each ?h ?u ?e ?p ?t ?md ?pf ?cs ?k ?n ?w] =>
      destruct (ingest_each_run h u e p t md pf cs k n w)
        as (new & errs & Heach & Hreq & Hcount)
  end.
  rewrite Heach. destruct new as [|[request ok] [|? ?]]; try done.
  cbn [map imap fst] in Hreq. injection Hreq as ->.
  exists ok, errs. rewrite succeeded_cons, succeeded_nil, Z.add_0_r in *.
  split; [done|]. simpl in Hcount. destruct ok; lia.
Qed.

Lemma conversation_without_messages_is_sent_witness :
  exists (ok : bool) (errs : list jsstring),
    each_conversation 0 sample_cli_host (lit "http://localhost:8787/mcp")
      (lit "c.json") (lit "mind-1") (lit "file") (lit "note")
      [JObj [(lit "id", JNum 3)]] 0 fresh_process
    = Some (Ok (0 + (if ok then 1 else 0)),
            after fresh_process
              [ ({| rq_url := lit "http://localhost:8787/mcp"; rq_content := [];
                    rq_entity := lit "mind-1"; rq_platform := lit "file";
                    rq_type := lit "note";
                    rq_metadata :=
                      obj_literal
                        [ (lit "source_file", VStr (lit "c.json"));
                          (lit "conversation_id", VNum 3);
                          (lit "conversation_title", VUndef) ] |},
                 ok) ]
              errs) /\
    length errs = (if ok then 0%nat else 1%nat).
Proof.
  apply (conversation_without_messages_is_sent 0 sample_cli_host
           (lit "http://localhost:8787/mcp") (lit "c.json") (lit "mind-1")
           (lit "file") (lit "note") (JObj [(lit "id", JNum 3)]) None [] 0
           fresh_process).
  - reflexivity.
  - reflexivity.
Defined.
